(** * Amirror: the macOS icon generator [src/app/create_icon.py]

    A shallow embedding of [create_icon.py] and the properties of its
    image-to-iconset transform.

    - Python integers are [Z]; [//] is [Z.div] (floor division).
    - Python floats are IEEE 754 binary64 values, modelled by the Standard
      Library's [spec_float] with [prec = 53] and [emax = 1024]; every
      operation rounds to nearest, ties to even.
    - Exceptions are an explicit result type; the file system is threaded
      through every effectful operation.
    - Pillow (PIL), the [os]/[shutil] calls and the external [iconutil]
      command are not part of the repository.  Their behaviour is described
      by small executable models; what cannot be written down (the decoders,
      the mode conversion, the Lanczos kernel and the limits of the
      resampler, the PNG encoder, what [iconutil] answers) is a field of
      the classes [Pillow] and [Platform].
    - [print] calls are left out: nothing below depends on standard output. *)

From Stdlib Require Import ZArith Lia Bool List String.
From Stdlib Require Import Floats.SpecFloat.
From stdpp Require Import gmap strings list.

Open Scope string_scope.
Open Scope list_scope.
Open Scope Z_scope.

(* ===================================================================== *)
(** ** Python runtime: exceptions and results                             *)
(* ===================================================================== *)

Inductive exn : Type :=
  | FileNotFoundError
  | FileExistsError
  | NotADirectoryError
  | IsADirectoryError
  | UnidentifiedImageError
  | ZeroDivisionError
  | OverflowError
  | ValueError
  | MemoryError
  | UnicodeDecodeError
  | DecompressionBombError
  | SystemExit (code : Z).

Inductive result (A : Type) : Type :=
  | Ok (a : A)
  | Raise (e : exn).
Arguments Ok {A} a.
Arguments Raise {A} e.

Definition result_bind {A B} (r : result A) (k : A -> result B) : result B :=
  match r with
  | Ok a => k a
  | Raise e => Raise e
  end.

(* ===================================================================== *)
(** ** Python floats (binary64)                                           *)
(* ===================================================================== *)

Module PyFloat.

Definition prec : Z := 53.
Definition emax : Z := 1024.

(** [float(z)] for a Python int: correctly rounded; a value beyond the
    binary64 range raises [OverflowError]. *)
Definition of_int (z : Z) : result spec_float :=
  match binary_normalize prec emax z 0 false with
  | S754_infinity _ => Raise OverflowError
  | f => Ok f
  end.

(** [a / b] on two Python ints (true division).  CPython returns the
    correctly rounded quotient; for operands below [2^53] that is the
    binary64 quotient of the two converted operands. *)
Definition truediv (a b : Z) : result spec_float :=
  if b =? 0 then Raise ZeroDivisionError
  else
    result_bind (of_int a) (fun fa =>
    result_bind (of_int b) (fun fb =>
    match SFdiv prec emax fa fb with
    | S754_infinity _ => Raise OverflowError
    | q => Ok q
    end)).

(** [n * x] with [n] an int and [x] a float: [n] is converted first. *)
Definition mul_int (n : Z) (x : spec_float) : result spec_float :=
  result_bind (of_int n) (fun fn => Ok (SFmul prec emax fn x)).

(** [int(x)]: truncation toward zero. *)
Definition to_int (x : spec_float) : result Z :=
  match x with
  | S754_zero _ => Ok 0
  | S754_infinity _ => Raise OverflowError
  | S754_nan => Raise ValueError
  | S754_finite s m e =>
      let a := if 0 <=? e then Z.pos m * 2 ^ e else Z.pos m / 2 ^ (- e) in
      Ok (if s then - a else a)
  end.

(** [round(x)] with one argument: nearest integer, ties to even.  Only the
    specification's formula for the resized dimensions uses it. *)
Definition round (x : spec_float) : result Z :=
  match x with
  | S754_zero _ => Ok 0
  | S754_infinity _ => Raise OverflowError
  | S754_nan => Raise ValueError
  | S754_finite s m e =>
      let a :=
        if 0 <=? e then Z.pos m * 2 ^ e
        else
          let d := 2 ^ (- e) in
          let q := Z.pos m / d in
          let r := Z.pos m mod d in
          match 2 * r ?= d with
          | Lt => q
          | Eq => if Z.even q then q else q + 1
          | Gt => q + 1
          end in
      Ok (if s then - a else a)
  end.

End PyFloat.

(* ===================================================================== *)
(** ** File system and the effect monad                                   *)
(* ===================================================================== *)

(** A path is its list of components: [os.path.join(d, "a", "b")] is
    [d ++ ["a"; "b"]] and [os.path.dirname] drops the last component. *)
Abbreviation path := (list string).
Abbreviation bytes := (list Byte.byte).

Inductive node : Type :=
  | Dir
  | File (content : bytes).

Abbreviation FS := (gmap (list string) node).

(** An effectful computation: it reads and updates the file system and
    either returns a value or raises. *)
Definition M (A : Type) : Type := FS -> result A * FS.

Definition ret {A} (a : A) : M A := fun fs => (Ok a, fs).

Definition bind {A B} (c : M A) (k : A -> M B) : M B :=
  fun fs =>
    match c fs with
    | (Ok a, fs') => k a fs'
    | (Raise e, fs') => (Raise e, fs')
    end.

Definition raise {A} (e : exn) : M A := fun fs => (Raise e, fs).

Definition lift {A} (r : result A) : M A := fun fs => (r, fs).

Declare Scope py_scope.
Delimit Scope py_scope with py.
Notation "x <- c ;; k" := (bind c (fun x => k))
  (at level 100, c at next level, right associativity) : py_scope.
Notation "c ;;; k" := (bind c (fun _ => k))
  (at level 100, right associativity) : py_scope.
Open Scope py_scope.

(** [for x in l: body x] *)
Fixpoint for_each {A} (l : list A) (body : A -> M unit) : M unit :=
  match l with
  | [] => ret tt
  | x :: l' => body x ;;; for_each l' body
  end.

Module Os.

Definition path_join (d : path) (parts : list string) : path := d ++ parts.

Definition path_dirname (p : path) : path := removelast p.

Definition path_exists (p : path) : M bool :=
  fun fs => (Ok (bool_decide (is_Some (fs !! p))), fs).

(** [os.makedirs(p, exist_ok=True)]: creates [p] and every missing
    ancestor, top down; an existing directory is accepted, an existing
    file on the way is an error. *)
Fixpoint makedirs_from (done todo : path) : M unit :=
  match todo with
  | [] => ret tt
  | c :: todo' =>
      let d := done ++ [c] in
      fun fs =>
        match fs !! d with
        | Some (File _) =>
            (Raise (match todo' with [] => FileExistsError | _ => NotADirectoryError end), fs)
        | _ => makedirs_from d todo' (<[d := Dir]> fs)
        end
  end.

Definition makedirs (p : path) : M unit := makedirs_from [] p.

(** Opening [p] for writing and storing [data]: the parent must be a
    directory and [p] itself must not be one. *)
Definition write_file (p : path) (data : bytes) : M unit :=
  fun fs =>
    match fs !! p with
    | Some Dir => (Raise IsADirectoryError, fs)
    | _ =>
        match fs !! path_dirname p with
        | Some Dir => (Ok tt, <[p := File data]> fs)
        | Some (File _) => (Raise NotADirectoryError, fs)
        | None => (Raise FileNotFoundError, fs)
        end
    end.

Definition read_file (p : path) : M bytes :=
  fun fs =>
    match fs !! p with
    | Some (File b) => (Ok b, fs)
    | Some Dir => (Raise IsADirectoryError, fs)
    | None => (Raise FileNotFoundError, fs)
    end.

(** [shutil.rmtree(p)]: removes [p] and everything below it. *)
Definition rmtree (p : path) : M unit :=
  fun fs =>
    match fs !! p with
    | Some Dir => (Ok tt, filter (fun kv => ~ p `prefix_of` kv.1) fs)
    | Some (File _) => (Raise NotADirectoryError, fs)
    | None => (Raise FileNotFoundError, fs)
    end.

End Os.

(* ===================================================================== *)
(** ** Pillow images                                                      *)
(* ===================================================================== *)

(** A pixel holds four 8-bit bands; an image is its mode, its size and its
    pixel data, addressed by column [x] and row [y]. *)
Definition Pixel : Type := Z * Z * Z * Z.

Definition transparent : Pixel := (0, 0, 0, 0).

Record Image : Type := {
  mode : string;
  width : Z;
  height : Z;
  px : Z -> Z -> Pixel
}.

(** A C [int]: what Pillow's core takes for a size or a coordinate. *)
Definition c_int (z : Z) : bool := (- 2 ^ 31 <=? z) && (z <? 2 ^ 31).

(** [Image.MAX_IMAGE_PIXELS], Pillow's guard against decompression bombs. *)
Definition MAX_IMAGE_PIXELS : Z := 1024 * 1024 * 1024 / 4 / 3.

(** The parts of Pillow that stay abstract. *)
Class Pillow : Type := {
  (** the image stored in a file's bytes, if a decoder accepts them and the
      image passes the guard against decompression bombs *)
  decode : bytes -> option Image;
  (** pixel data of [im.convert(mode)] *)
  convert_data : Image -> string -> Z -> Z -> Pixel;
  (** whether the core can resample an image of the first size to the
      second size: the limits libImaging puts on image sizes and on its
      filter tables, and the memory of the machine *)
  can_resample : Z * Z -> Z * Z -> bool;
  (** pixel data of [im] resampled to [w] by [h] with the Lanczos filter *)
  lanczos : Image -> Z -> Z -> Z -> Z -> Pixel;
  (** the PNG encoding of an image *)
  encode_png : Image -> bytes
}.

Section PIL.
Context `{Pillow}.

(** [Image.open(p)].  Pillow identifies no image with an empty side: a
    decoder that reports one is passed over like one that rejects the
    file. *)
Definition Image_open (p : path) : M Image :=
  b <- Os.read_file p ;;
  match decode b with
  | Some im =>
      if (0 <? width im) && (0 <? height im) then ret im
      else raise UnidentifiedImageError
  | None => raise UnidentifiedImageError
  end.

(** [im.size] *)
Definition Image_size (im : Image) : Z * Z := (width im, height im).

(** [im.convert(m)]: same size, new mode. *)
Definition Image_convert (im : Image) (m : string) : Image :=
  {| mode := m; width := width im; height := height im;
     px := convert_data im m |}.

(** [im.resize((w, h), Image.Resampling.LANCZOS)].  Pillow returns a copy
    when the requested size is the current one.  Otherwise the size goes to
    the core as two C ints, and a side outside their range raises
    [OverflowError]; the core refuses a side below one pixel with
    [ValueError], and a resampling beyond its limits with [MemoryError]. *)
Definition Image_resize (im : Image) (size : Z * Z) : result Image :=
  let '(w, h) := size in
  if (w =? width im) && (h =? height im) then Ok im
  else if negb (c_int w && c_int h) then Raise OverflowError
  else if (w <? 1) || (h <? 1) then Raise ValueError
  else if negb (can_resample (width im, height im) (w, h)) then Raise MemoryError
  else Ok {| mode := mode im; width := w; height := h;
             px := lanczos im w h |}.

(** [im.crop((left, top, right, bottom))]: the result is [right - left]
    by [bottom - top]; the part of the box outside the image is filled
    with zero bands (transparent black in RGBA).  A box of more than
    [2 * MAX_IMAGE_PIXELS] pixels raises [DecompressionBombError]; the
    coordinates go to the core as C ints. *)
Definition Image_crop (im : Image) (box : Z * Z * Z * Z) : result Image :=
  let '(x0, y0, x1, y1) := box in
  if x1 <? x0 then Raise ValueError
  else if y1 <? y0 then Raise ValueError
  else if 2 * MAX_IMAGE_PIXELS <? Z.max 1 (x1 - x0) * Z.max 1 (y1 - y0)
  then Raise DecompressionBombError
  else if negb (c_int x0 && c_int y0 && c_int x1 && c_int y1) then Raise OverflowError
  else Ok {| mode := mode im; width := x1 - x0; height := y1 - y0;
             px := fun x y =>
               let sx := x + x0 in
               let sy := y + y0 in
               if (0 <=? sx) && (sx <? width im) && (0 <=? sy) && (sy <? height im)
               then px im sx sy else transparent |}.

(** [im.save(p, "PNG")] *)
Definition Image_save (im : Image) (p : path) : M unit :=
  Os.write_file p (encode_png im).

End PIL.

(* ===================================================================== *)
(** ** The external icon compiler                                         *)
(* ===================================================================== *)

(** What [subprocess.run(["iconutil", "-c", "icns", d, "-o", out],
    capture_output=True, text=True)] can do.  The command runs to
    completion with an exit status, possibly having written its output
    file, and what it printed is decoded as text; or it runs to completion,
    possibly having written its output file, but what it printed is not
    text in the locale's encoding, and [subprocess.run] raises
    [UnicodeDecodeError]; or it cannot be started at all. *)
Inductive process : Type :=
  | Completed (returncode : Z) (output : option bytes)
  | Undecodable (output : option bytes)
  | SpawnFailed.

Class Platform : Type := {
  iconutil : FS -> path -> path -> process
}.

Definition subprocess_run `{Platform} (iconset_dir output_path : path) : M Z :=
  fun fs =>
    match iconutil fs iconset_dir output_path with
    | Completed rc None => (Ok rc, fs)
    | Completed rc (Some b) => (Ok rc, <[output_path := File b]> fs)
    | Undecodable None => (Raise UnicodeDecodeError, fs)
    | Undecodable (Some b) => (Raise UnicodeDecodeError, <[output_path := File b]> fs)
    | SpawnFailed => (Raise FileNotFoundError, fs)
    end.

(** [try: body  except Exception: handler]; [SystemExit] is not an
    [Exception] and passes through. *)
Definition try_except {A} (body : M A) (handler : M A) : M A :=
  fun fs =>
    match body fs with
    | (Raise (SystemExit c), fs') => (Raise (SystemExit c), fs')
    | (Raise _, fs') => handler fs'
    | r => r
    end.

(* ===================================================================== *)
(** ** create_icon.py                                                     *)
(* ===================================================================== *)

(** Lines 27-29: the scale factor and the size the image is resized to. *)
Definition resized_dims (width height size : Z) : result (Z * Z) :=
  result_bind (PyFloat.truediv size (Z.min width height)) (fun scale =>
  result_bind (result_bind (PyFloat.mul_int width scale) PyFloat.to_int) (fun new_width =>
  result_bind (result_bind (PyFloat.mul_int height scale) PyFloat.to_int) (fun new_height =>
  Ok (new_width, new_height)))).

(** Lines 35-38: the crop box. *)
Definition crop_box (new_width new_height size : Z) : Z * Z * Z * Z :=
  let left := (new_width - size) / 2 in
  let top := (new_height - size) / 2 in
  let right := left + size in
  let bottom := top + size in
  (left, top, right, bottom).

(** The ten variants of the iconset (the list [sizes] of
    [generate_iconset]). *)
Definition sizes : list (Z * string) :=
  [ (16, "icon_16x16.png");
    (32, "icon_16x16@2x.png");
    (32, "icon_32x32.png");
    (64, "icon_32x32@2x.png");
    (128, "icon_128x128.png");
    (256, "icon_128x128@2x.png");
    (256, "icon_256x256.png");
    (512, "icon_256x256@2x.png");
    (512, "icon_512x512.png");
    (1024, "icon_512x512@2x.png") ].

Section Program.
Context `{Pillow} `{Platform}.

(** Lines 19-20: [if img.mode != 'RGBA': img = img.convert('RGBA')]. *)
Definition convert_if_needed (img : Image) : Image :=
  if negb (String.eqb (mode img) "RGBA") then Image_convert img "RGBA" else img.

Definition create_square_icon (source_path output_dir : path) (size : Z) : M Image :=
  img <- Image_open source_path ;;
  let img := convert_if_needed img in
  let '(width, height) := Image_size img in
  dims <- lift (resized_dims width height size) ;;
  let '(new_width, new_height) := dims in
  img <- lift (Image_resize img (new_width, new_height)) ;;
  square <- lift (Image_crop img (crop_box new_width new_height size)) ;;
  ret square.

Definition generate_iconset (source_path output_dir : path) : M path :=
  let iconset_dir := Os.path_join output_dir ["AppIcon.iconset"] in
  Os.makedirs iconset_dir ;;;
  base_icon <- create_square_icon source_path output_dir 1024 ;;
  for_each sizes (fun '(size, filename) =>
    resized <- lift (Image_resize base_icon (size, size)) ;;
    let output_path := Os.path_join iconset_dir [filename] in
    Image_save resized output_path) ;;;
  ret iconset_dir.

Definition create_icns (iconset_dir output_path : path) : M bool :=
  try_except
    (returncode <- subprocess_run iconset_dir output_path ;;
     if returncode =? 0 then ret true else ret false)
    (ret false).

(** [main()], with the directory of the script as a parameter. *)
Definition main (script_dir : path) : M unit :=
  let source_icon := Os.path_join script_dir ["icon"; "app_icon.png"] in
  found <- Os.path_exists source_icon ;;
  if negb found then raise (SystemExit 1)
  else
    iconset_dir <- generate_iconset source_icon script_dir ;;
    let icns_output :=
      Os.path_join script_dir ["Amirror.app"; "Contents"; "Resources"; "AppIcon.icns"] in
    Os.makedirs (Os.path_dirname icns_output) ;;;
    ok <- create_icns iconset_dir icns_output ;;
    if ok then Os.rmtree iconset_dir
    else raise (SystemExit 1).

(** Running the script: the exit status of the process and the file
    system it leaves.  An uncaught exception ends the process with
    status 1, [sys.exit(c)] with status [c]. *)
Definition run (script_dir : path) (fs : FS) : Z * FS :=
  match main script_dir fs with
  | (Ok _, fs') => (0, fs')
  | (Raise (SystemExit c), fs') => (c, fs')
  | (Raise _, fs') => (1, fs')
  end.

End Program.

(* ===================================================================== *)
(** ** Definitions used by the statements and proofs                      *)
(* ===================================================================== *)

(** *** Rounding, written out on integers *)

(** [N / D] rounded to the nearest integer, ties to even. *)
Definition rne_div (N D : Z) : Z :=
  let q := N / D in
  let r := N mod D in
  match 2 * r ?= D with
  | Lt => q
  | Eq => if Z.even q then q else q + 1
  | Gt => q + 1
  end.

(** The binary64 number [m * 2^e] for a mantissa [2^52 <= m <= 2^53]. *)
Definition fin (m e : Z) : spec_float :=
  if m =? 2 ^ 53 then S754_finite false (Z.to_pos (2 ^ 52)) (e + 1)
  else S754_finite false (Z.to_pos m) e.

(** [mrs] describes where [N / D] lies: its integer part, and whether the
    discarded part is zero, below, at or above one half. *)
Definition loc_ok (N D : Z) (mrs : shr_record) : Prop :=
  let m := shr_m mrs in
  let rem := N - m * D in
  0 <= m /\ 0 <= rem < D /\
  (shr_r mrs = true <-> D <= 2 * rem) /\
  (shr_s mrs = true <-> (rem <> 0 /\ 2 * rem <> D)).

(** Mantissa and exponent of [float(z)] for [0 < z < 2^53]. *)
Definition mant (z : Z) : Z := z * 2 ^ (53 - Zdigits2 z).

Definition expo (z : Z) : Z := Zdigits2 z - 53.

(** [int(M * (S / m))]: one resized dimension. *)
Definition scaled (S m M : Z) : result Z :=
  result_bind (PyFloat.truediv S m) (fun scale =>
  result_bind (PyFloat.mul_int M scale) PyFloat.to_int).

(** *** The specification's side *)

(** The resized dimensions as the specification words them:
    [round(source_width*scale)] by [round(source_height*scale)]. *)
Definition spec_resized_dims (width height size : Z) : result (Z * Z) :=
  result_bind (PyFloat.truediv size (Z.min width height)) (fun scale =>
  result_bind (result_bind (PyFloat.mul_int width scale) PyFloat.round) (fun new_width =>
  result_bind (result_bind (PyFloat.mul_int height scale) PyFloat.round) (fun new_height =>
  Ok (new_width, new_height)))).

(** The iconset file table of section 6 of the specification. *)
Definition mandated_table : list (Z * string) :=
  [ (16, "icon_16x16.png"); (32, "icon_16x16@2x.png"); (32, "icon_32x32.png");
    (64, "icon_32x32@2x.png"); (128, "icon_128x128.png");
    (256, "icon_128x128@2x.png"); (256, "icon_256x256.png");
    (512, "icon_256x256@2x.png"); (512, "icon_512x512.png");
    (1024, "icon_512x512@2x.png") ].

(** *** File-system conditions and results *)

Definition is_file (fs : FS) (p : path) : bool :=
  match fs !! p with Some (File _) => true | _ => false end.

Definition is_dir (fs : FS) (p : path) : bool :=
  match fs !! p with Some Dir => true | _ => false end.

(** No file sits where [os.makedirs] has to find or create a directory:
    the condition under which [makedirs_from done todo] succeeds. *)
Fixpoint no_file_from (done todo : path) (fs : FS) : bool :=
  match todo with
  | [] => true
  | c :: todo' =>
      negb (is_file fs (done ++ [c])) && no_file_from (done ++ [c]) todo' fs
  end.

Definition no_file_on (p : path) (fs : FS) : bool := no_file_from [] p fs.

(** No directory sits where a variant has to be written. *)
Definition variants_free (iconset_dir : path) (fs : FS) : bool :=
  forallb (fun '(_, filename) => negb (is_dir fs (iconset_dir ++ [filename]))) sizes.

(** The image a successful [im.resize((w, h))] returns. *)
Definition resampled `{Pillow} (im : Image) (w h : Z) : Image :=
  if (w =? width im) && (h =? height im) then im
  else {| mode := mode im; width := w; height := h; px := lanczos im w h |}.

(** Pillow can carry out the resize of line 32 on a source of the given
    size: the resized size is the current one, or both its sides fit a C
    int and the core accepts the resampling. *)
Definition resize_fits `{Pillow} (width height size : Z) : bool :=
  match resized_dims width height size with
  | Ok (nw, nh) =>
      ((nw =? width) && (nh =? height)) ||
      ((nw <? 2 ^ 31) && (nh <? 2 ^ 31) && can_resample (width, height) (nw, nh))
  | Raise _ => false
  end.

(** Pillow can derive every variant from a 1024 by 1024 canvas. *)
Definition variants_fit `{Pillow} : bool :=
  forallb (fun '(size, _) => (size =? 1024) || can_resample (1024, 1024) (size, size))
          sizes.

(** The file system after the variants of [l] have been derived from
    [canvas] and saved under [iconset_dir], in order. *)
Fixpoint staged `{Pillow} (iconset_dir : path) (canvas : Image)
    (l : list (Z * string)) (fs : FS) : FS :=
  match l with
  | [] => fs
  | (size, filename) :: l' =>
      staged iconset_dir canvas l'
        (<[iconset_dir ++ [filename] := File (encode_png (resampled canvas size size))]> fs)
  end.

(** The paths [main] works with. *)
Definition source_icon (script_dir : path) : path :=
  script_dir ++ ["icon"; "app_icon.png"].

Definition iconset_path (script_dir : path) : path :=
  script_dir ++ ["AppIcon.iconset"].

Definition resources_path (script_dir : path) : path :=
  script_dir ++ ["Amirror.app"; "Contents"; "Resources"].

Definition icns_path (script_dir : path) : path :=
  script_dir ++ ["Amirror.app"; "Contents"; "Resources"; "AppIcon.icns"].

(** *** A concrete environment for the examples *)

(** An image of one colour. *)
Definition solid (m : string) (w h : Z) (p : Pixel) : Image :=
  {| mode := m; width := w; height := h; px := fun _ _ => p |}.

(** A stand-in for Pillow: every file decodes to [src], conversion keeps
    the pixel data, images of less than [2^31] pixels can be made,
    resampling takes the nearest source pixel, and the encoder writes one
    byte per binary digit of the width. *)
Definition demo_pillow (src : option Image) : Pillow :=
  {| decode := fun _ => src;
     convert_data := fun im _ => px im;
     can_resample := fun _ '(w, h) => w * h <? 2 ^ 31;
     lanczos := fun im w h x y => px im (x * width im / w) (y * height im / h);
     encode_png := fun im => repeat Byte.x00 (Z.to_nat (Z.log2 (width im))) |}.

(** A stand-in for the platform: [iconutil] always answers [p]. *)
Definition demo_platform (p : process) : Platform :=
  {| iconutil := fun _ _ _ => p |}.

Definition opaque_white : Pixel := (255, 255, 255, 255).

(** A script directory holding [icon/app_icon.png]. *)
Definition demo_fs : FS :=
  {[ ["app"] := Dir;
     ["app"; "icon"] := Dir;
     ["app"; "icon"; "app_icon.png"] := File [Byte.x89; Byte.x50; Byte.x4e; Byte.x47] ]}.

(** *** What a computation leaves alone *)

(** [c] keeps every existing entry at the paths selected by [keep]: it
    neither deletes nor overwrites them, whatever its outcome. *)
Definition preserves {A} (keep : path -> Prop) (c : M A) : Prop :=
  forall (fs : FS) (q : path) (x : node),
    keep q -> fs !! q = Some x -> snd (c fs) !! q = Some x.

(** [c] never ends in [SystemExit]: a failure of [c] is an ordinary
    exception. *)
Definition no_exit {A} (c : M A) : Prop :=
  forall (fs : FS) (code : Z), fst (c fs) <> Raise (SystemExit code).

(* ===================================================================== *)
(** ** Binary64 arithmetic: what the Standard Library's operations compute *)
(* ===================================================================== *)

(** The operations of [SpecFloat] shift the mantissa right bit by bit and
    keep a round and a sticky bit.  The lemmas below show that, on positive
    operands in the normal range, this is [rne_div]: division rounded to
    nearest, ties to even. *)

Lemma digits2_pos_bounds p :
  2 ^ (Z.pos (digits2_pos p) - 1) <= Z.pos p < 2 ^ Z.pos (digits2_pos p).
Proof.
  induction p as [p IH | p IH | ]; cbn [digits2_pos].
  - rewrite Pos2Z.inj_succ.
    replace (Z.succ (Z.pos (digits2_pos p)) - 1) with (Z.succ (Z.pos (digits2_pos p) - 1)) by lia.
    rewrite !Z.pow_succ_r by lia. lia.
  - rewrite Pos2Z.inj_succ.
    replace (Z.succ (Z.pos (digits2_pos p)) - 1) with (Z.succ (Z.pos (digits2_pos p) - 1)) by lia.
    rewrite !Z.pow_succ_r by lia. lia.
  - cbn. lia.
Qed.

Lemma pow2_lt_mono_inv a b : 0 <= b -> 2 ^ a < 2 ^ b -> a < b.
Proof.
  intros Hb Hlt. destruct (Z_lt_le_dec a b) as [|Hle]; [assumption|].
  apply (Z.pow_le_mono_r 2) in Hle; lia.
Qed.

Lemma digits2_pos_unique p d :
  2 ^ (d - 1) <= Z.pos p < 2 ^ d -> Z.pos (digits2_pos p) = d.
Proof.
  intros [Hlo Hhi].
  pose proof (digits2_pos_bounds p) as [Hlo' Hhi'].
  assert (0 < d).
  { destruct (Z_lt_le_dec 0 d); [assumption|].
    assert (2 ^ d <= 2 ^ 0) by (destruct (Z_lt_le_dec d 0);
      [rewrite Z.pow_neg_r by lia; cbn; lia | apply Z.pow_le_mono_r; lia]).
    cbn in *. lia. }
  assert (Z.pos (digits2_pos p) - 1 < d) by (apply pow2_lt_mono_inv; lia).
  assert (d - 1 < Z.pos (digits2_pos p)) by (apply pow2_lt_mono_inv; lia).
  lia.
Qed.

(** One right shift doubles the denominator and keeps the description of
    [N / D] exact: the dropped bit becomes the round bit, the old round and
    sticky bits merge into the sticky bit. *)
Lemma shr_1_ok N D mrs :
  0 < D -> loc_ok N D mrs -> loc_ok N (2 * D) (shr_1 mrs).
Proof.
  intros HD. destruct mrs as [m r s]. unfold loc_ok. cbn [shr_m shr_r shr_s].
  intros (Hm & Hrem & Hr & Hs).
  assert (Hrs : orb r s = true <-> N - m * D <> 0).
  { rewrite orb_true_iff, Hr, Hs. lia. }
  destruct m as [|[p|p|]|p]; cbn [shr_1 shr_m shr_r shr_s]; try lia.
  - rewrite Hrs. repeat split; try lia; try discriminate.
  - rewrite Hrs. rewrite Pos2Z.inj_xI in *. repeat split; try lia.
  - rewrite Hrs. rewrite Pos2Z.inj_xO in *. repeat split; try lia; try discriminate.
  - rewrite Hrs. repeat split; try lia.
Qed.

Lemma pow2_xO p : 2 ^ Z.pos p~0 = 2 ^ Z.pos p * 2 ^ Z.pos p.
Proof.
  replace (Z.pos p~0) with (Z.pos p + Z.pos p) by lia.
  apply Z.pow_add_r; lia.
Qed.

Lemma pow2_xI p : 2 ^ Z.pos p~1 = 2 * (2 ^ Z.pos p * 2 ^ Z.pos p).
Proof.
  replace (Z.pos p~1) with (Z.succ (Z.pos p + Z.pos p)) by lia.
  rewrite Z.pow_succ_r, Z.pow_add_r by lia. reflexivity.
Qed.

Lemma iter_shr_1_ok p : forall N D mrs,
  0 < D -> loc_ok N D mrs ->
  loc_ok N (D * 2 ^ Z.pos p) (SpecFloat.iter_pos shr_1 p mrs).
Proof.
  induction p as [p IH | p IH | ]; intros N D mrs HD Hok; cbn [SpecFloat.iter_pos].
  - assert (0 < 2 ^ Z.pos p) by (apply Z.pow_pos_nonneg; lia).
    replace (D * 2 ^ Z.pos p~1) with (((2 * D) * 2 ^ Z.pos p) * 2 ^ Z.pos p)
      by (rewrite pow2_xI; ring).
    apply IH; [nia|]. apply IH; [lia|]. now apply shr_1_ok.
  - assert (0 < 2 ^ Z.pos p) by (apply Z.pow_pos_nonneg; lia).
    replace (D * 2 ^ Z.pos p~0) with ((D * 2 ^ Z.pos p) * 2 ^ Z.pos p)
      by (rewrite pow2_xO; ring).
    apply IH; [nia|]. apply IH; [lia|]. assumption.
  - change (2 ^ 1) with 2. rewrite Z.mul_comm. now apply shr_1_ok.
Qed.

Lemma loc_ok_div N D mrs :
  0 < D -> loc_ok N D mrs -> shr_m mrs = N / D /\ N - shr_m mrs * D = N mod D.
Proof.
  intros HD (Hm & Hrem & _).
  assert (shr_m mrs = N / D) as E.
  { apply (Z.div_unique N D (shr_m mrs) (N - shr_m mrs * D)); lia. }
  split; [exact E|]. rewrite E at 1.
  pose proof (Z.div_mod N D). lia.
Qed.

(** Rounding on the round and sticky bits is rounding of the quotient. *)
Lemma rne_of_loc N D mrs :
  0 < D -> loc_ok N D mrs ->
  round_nearest_even (shr_m mrs) (loc_of_shr_record mrs) = rne_div N D.
Proof.
  intros HD Hok. destruct (loc_ok_div N D mrs HD Hok) as [Em Er].
  destruct Hok as (Hm & Hrem & Hr & Hs).
  unfold rne_div. rewrite <- Er, <- Em.
  destruct mrs as [m r s]; cbn [shr_m shr_r shr_s loc_of_shr_record] in *.
  destruct r, s; cbn [round_nearest_even].
  - assert ((2 * (N - m * D) ?= D) = Gt) as -> by (apply Z.compare_gt_iff; lia).
    reflexivity.
  - assert ((2 * (N - m * D) ?= D) = Eq) as ->; [|reflexivity].
    apply Z.compare_eq_iff.
    destruct (Z.eq_dec (N - m * D) 0) as [E0|E0]; [lia|].
    destruct (Z.eq_dec (2 * (N - m * D)) D) as [E1|E1]; [lia|].
    assert (false = true) by (apply Hs; split; assumption). discriminate.
  - assert ((2 * (N - m * D) ?= D) = Lt) as ->; [|reflexivity].
    apply Z.compare_lt_iff.
    destruct (Z_lt_le_dec (2 * (N - m * D)) D) as [|Hge]; [assumption|].
    assert (false = true) by (apply Hr; assumption). discriminate.
  - assert (N - m * D = 0) as E0.
    { destruct (Z.eq_dec (N - m * D) 0) as [E0|E0]; [assumption|].
      destruct (Z.eq_dec (2 * (N - m * D)) D) as [E1|E1].
      - assert (false = true) by (apply Hr; lia). discriminate.
      - assert (false = true) by (apply Hs; split; assumption). discriminate. }
    rewrite E0. assert ((2 * 0 ?= D) = Lt) as -> by (apply Z.compare_lt_iff; lia).
    reflexivity.
Qed.

Lemma rne_div_bounds N D :
  0 < D -> 0 <= N ->
  N / D <= rne_div N D <= N / D + 1 /\
  2 * Z.abs (rne_div N D * D - N) <= D.
Proof.
  intros HD HN. unfold rne_div.
  pose proof (Z.div_mod N D ltac:(lia)) as Hdm.
  pose proof (Z.mod_pos_bound N D HD) as Hr.
  destruct (Z.compare_spec (2 * (N mod D)) D) as [E|E|E].
  - destruct (Z.even (N / D)); split; try lia.
  - split; lia.
  - split; lia.
Qed.

(** In the normal range [shr_fexp] shifts a mantissa of [53 + sh] digits by
    [sh] places. *)
Lemma shr_fexp_normal mx lx ex sh N D :
  0 < D -> loc_ok N D (shr_record_of_loc mx lx) ->
  2 ^ (52 + sh) <= mx < 2 ^ (53 + sh) -> 0 <= sh ->
  -1074 <= ex + sh ->
  exists mrs, shr_fexp 53 1024 mx ex lx = (mrs, ex + sh) /\ loc_ok N (D * 2 ^ sh) mrs.
Proof.
  intros HD Hok Hmx Hsh Hex.
  unfold shr_fexp.
  assert (0 < mx) by (assert (0 < 2 ^ (52 + sh)) by (apply Z.pow_pos_nonneg; lia); lia).
  destruct mx as [|p|p]; try lia.
  cbn [Zdigits2].
  rewrite (digits2_pos_unique p (53 + sh)) by (replace (53 + sh - 1) with (52 + sh) by lia; exact Hmx).
  unfold fexp, emin.
  replace (Z.max (53 + sh + ex - 53) (3 - 1024 - 53) - ex) with sh by lia.
  destruct sh as [|s|s]; try lia.
  - cbn [shr]. eexists; split; [f_equal; lia|].
    rewrite Z.mul_1_r. exact Hok.
  - cbn [shr]. eexists; split; [reflexivity|].
    apply iter_shr_1_ok; assumption.
Qed.

Lemma div_pow2_bounds N D sh :
  0 < D -> 0 <= sh -> 2 ^ (52 + sh) <= N / D < 2 ^ (53 + sh) ->
  2 ^ 52 <= N / (D * 2 ^ sh) < 2 ^ 53.
Proof.
  intros HD Hsh Hq.
  assert (0 < 2 ^ sh) as Hp by (apply Z.pow_pos_nonneg; lia).
  rewrite <- Z.div_div by lia.
  rewrite !Z.pow_add_r in Hq by lia.
  split.
  - apply Z.div_le_lower_bound; lia.
  - apply Z.div_lt_upper_bound; lia.
Qed.

Lemma shr_fexp_exact q e :
  2 ^ 52 <= q < 2 ^ 53 -> -1074 <= e ->
  shr_fexp 53 1024 q e loc_Exact =
    ({| shr_m := q; shr_r := false; shr_s := false |}, e).
Proof.
  intros Hq He. unfold shr_fexp.
  destruct q as [|p|p]; try (cbn in Hq; lia).
  cbn [Zdigits2]. rewrite (digits2_pos_unique p 53) by exact Hq.
  unfold fexp, emin.
  replace (Z.max (53 + e - 53) (3 - 1024 - 53) - e) with 0 by lia.
  reflexivity.
Qed.

Lemma shr_fexp_carry e :
  -1074 <= e ->
  shr_fexp 53 1024 (2 ^ 53) e loc_Exact =
    ({| shr_m := 2 ^ 52; shr_r := false; shr_s := false |}, e + 1).
Proof.
  intros He. unfold shr_fexp.
  change (Zdigits2 (2 ^ 53)) with 54.
  unfold fexp, emin.
  replace (Z.max (54 + e - 53) (3 - 1024 - 53) - e) with 1 by lia.
  reflexivity.
Qed.

(** The rounding step shared by all operations: a positive value [N / D]
    of [53 + sh] integer digits, scaled by [2^ex], becomes the float of
    mantissa [rne_div N (D * 2^sh)] and exponent [ex + sh]. *)
Lemma binary_round_aux_spec N D mx lx ex sh :
  0 < D -> loc_ok N D (shr_record_of_loc mx lx) ->
  2 ^ (52 + sh) <= mx < 2 ^ (53 + sh) -> 0 <= sh ->
  -1074 <= ex + sh -> ex + sh + 1 <= 971 ->
  binary_round_aux 53 1024 false mx ex lx = fin (rne_div N (D * 2 ^ sh)) (ex + sh).
Proof.
  intros HD Hok Hmx Hsh Hlo Hhi.
  assert (0 < 2 ^ sh) as Hp by (apply Z.pow_pos_nonneg; lia).
  assert (0 < D * 2 ^ sh) as HD' by nia.
  destruct (shr_fexp_normal mx lx ex sh N D HD Hok Hmx Hsh Hlo) as (mrs & E1 & Hok1).
  unfold binary_round_aux. rewrite E1.
  rewrite (rne_of_loc N (D * 2 ^ sh) mrs HD' Hok1).
  destruct (loc_ok_div N D _ HD Hok) as [Emx _].
  assert (shr_m (shr_record_of_loc mx lx) = mx) as Emx' by (destruct lx as [|[]]; reflexivity).
  rewrite Emx' in Emx.
  assert (0 <= N) as HN.
  { destruct Hok as (_ & Hrem & _). rewrite Emx' in Hrem.
    assert (0 <= mx) by (assert (0 < 2 ^ (52 + sh)) by (apply Z.pow_pos_nonneg; lia); lia).
    nia. }
  rewrite Emx in Hmx.
  pose proof (div_pow2_bounds N D sh HD Hsh Hmx) as Hq.
  pose proof (rne_div_bounds N (D * 2 ^ sh) HD' HN) as [Hrb _].
  set (q := rne_div N (D * 2 ^ sh)) in *.
  assert (2 ^ 52 <= q <= 2 ^ 53) as Hqb by lia.
  unfold fin.
  destruct (Z.eqb_spec q (2 ^ 53)) as [Eq|Nq].
  - rewrite Eq, shr_fexp_carry by lia. cbn [shr_m].
    change (2 ^ 52) with (Z.pos (Z.to_pos (2 ^ 52))) at 1. cbv iota beta.
    replace (ex + sh + 1 <=? 1024 - 53) with true by (symmetry; apply Z.leb_le; lia).
    reflexivity.
  - rewrite shr_fexp_exact by lia. cbn [shr_m].
    destruct q as [|p|p]; try (cbn in Hqb; lia).
    replace (ex + sh <=? 1024 - 53) with true by (symmetry; apply Z.leb_le; lia).
    reflexivity.
Qed.

Lemma pos_iter_xO p k : Z.pos (Pos.iter xO p k) = Z.pos p * 2 ^ Z.pos k.
Proof.
  induction k as [|k IH] using Pos.peano_ind.
  - cbn. lia.
  - rewrite Pos.iter_succ, Pos2Z.inj_xO, IH, Pos2Z.inj_succ, Z.pow_succ_r by lia. ring.
Qed.

Lemma Zdigits2_bounds z :
  0 < z -> 2 ^ (Zdigits2 z - 1) <= z < 2 ^ Zdigits2 z.
Proof.
  destruct z as [|p|p]; try lia. intros _. apply digits2_pos_bounds.
Qed.

Lemma Zdigits2_pos z : 0 < z -> 0 < Zdigits2 z.
Proof. destruct z; cbn; lia. Qed.

Lemma Zdigits2_le z n : 0 < z -> 0 <= n -> z < 2 ^ n -> Zdigits2 z <= n.
Proof.
  intros Hz Hn Hlt. pose proof (Zdigits2_bounds z Hz) as [Hlo _].
  assert (Zdigits2 z - 1 < n); [|lia].
  apply pow2_lt_mono_inv; lia.
Qed.

Lemma mant_bounds z : 0 < z < 2 ^ 53 -> 2 ^ 52 <= mant z < 2 ^ 53.
Proof.
  intros [Hz Hlt]. unfold mant.
  pose proof (Zdigits2_bounds z Hz) as [Hlo Hhi].
  pose proof (Zdigits2_le z 53 Hz ltac:(lia) Hlt).
  pose proof (Zdigits2_pos z Hz).
  assert (0 < 2 ^ (53 - Zdigits2 z)) by (apply Z.pow_pos_nonneg; lia).
  replace (2 ^ 52) with (2 ^ (Zdigits2 z - 1) * 2 ^ (53 - Zdigits2 z))
    by (rewrite <- Z.pow_add_r by lia; f_equal; lia).
  replace (2 ^ 53) with (2 ^ Zdigits2 z * 2 ^ (53 - Zdigits2 z))
    by (rewrite <- Z.pow_add_r by lia; f_equal; lia).
  nia.
Qed.

Lemma rne_div_1 N : rne_div N 1 = N.
Proof.
  unfold rne_div. rewrite Z.mod_1_r, Z.div_1_r. reflexivity.
Qed.

(** [float(z)] is exact for [0 < z < 2^53]. *)
Lemma binary_normalize_pos z :
  0 < z < 2 ^ 53 ->
  binary_normalize 53 1024 z 0 false = S754_finite false (Z.to_pos (mant z)) (expo z).
Proof.
  intros Hz. pose proof (mant_bounds z Hz) as Hm.
  destruct Hz as [Hz Hlt].
  pose proof (Zdigits2_le z 53 Hz ltac:(lia) Hlt) as Hd.
  pose proof (Zdigits2_pos z Hz) as Hd0.
  unfold mant, expo in *.
  destruct z as [|p|p]; try lia.
  cbn [binary_normalize Zdigits2] in *. unfold binary_round.
  set (d := Z.pos (digits2_pos p)) in *.
  assert (fexp 53 1024 (d + 0) = d - 53) as -> by (unfold fexp, emin; lia).
  assert (shl_align p 0 (d - 53) = (Z.to_pos (Z.pos p * 2 ^ (53 - d)), d - 53)) as ->.
  { unfold shl_align. destruct (d - 53 - 0) as [|k|k] eqn:E; try lia.
    - replace (53 - d) with 0 by lia. rewrite Z.mul_1_r. cbn. f_equal. lia.
    - f_equal. replace (53 - d) with (Z.pos k) by lia.
      rewrite <- pos_iter_xO. reflexivity. }
  rewrite (binary_round_aux_spec (Z.pos p * 2 ^ (53 - d)) 1 _ loc_Exact (d - 53) 0);
    try lia.
  - rewrite Z.add_0_r. change (1 * 2 ^ 0) with 1. rewrite rne_div_1. unfold fin.
    destruct (Z.eqb_spec (Z.pos p * 2 ^ (53 - d)) (2 ^ 53)); [lia|reflexivity].
  - rewrite Z2Pos.id by lia. unfold loc_ok; cbn [shr_record_of_loc shr_m shr_r shr_s].
    repeat split; try lia; try discriminate.
Qed.

(** The location computed from a remainder describes the quotient. *)
Lemma new_location_ok D N :
  0 < D -> 0 <= N ->
  loc_ok N D (shr_record_of_loc (N / D) (new_location D (N mod D))).
Proof.
  intros HD HN.
  pose proof (Z.div_mod N D ltac:(lia)) as Hdm.
  pose proof (Z.mod_pos_bound N D HD) as Hr.
  assert (0 <= N / D) as Hq by (apply Z.div_pos; lia).
  assert (N - N / D * D = N mod D) as Erem by lia.
  unfold loc_ok, new_location.
  destruct (Z.even D) eqn:Ev.
  - unfold new_location_even.
    destruct (Z.eqb_spec (N mod D) 0) as [E0|E0].
    + cbn [shr_record_of_loc shr_m shr_r shr_s]. rewrite Erem.
      repeat split; try lia; try discriminate.
    + destruct (Z.compare_spec (2 * (N mod D)) D) as [E|E|E];
        cbn [shr_record_of_loc shr_m shr_r shr_s]; rewrite Erem;
        repeat split; try lia; try discriminate.
  - assert (2 * (N mod D) <> D) as Hodd.
    { intros E. rewrite <- E, Z.even_mul in Ev. discriminate. }
    unfold new_location_odd.
    destruct (Z.eqb_spec (N mod D) 0) as [E0|E0].
    + cbn [shr_record_of_loc shr_m shr_r shr_s]. rewrite Erem.
      repeat split; try lia; try discriminate.
    + destruct (Z.compare_spec (2 * (N mod D) + 1) D) as [E|E|E];
        cbn [shr_record_of_loc shr_m shr_r shr_s]; rewrite Erem;
        repeat split; try lia; try discriminate.
Qed.

(** The quotient of two positive normal floats is their exact quotient
    rounded to 53 bits. *)
Lemma SFdiv_normal (m1 m2 : positive) (e1 e2 : Z) :
  2 ^ 52 <= Z.pos m1 < 2 ^ 53 -> 2 ^ 52 <= Z.pos m2 < 2 ^ 53 ->
  -1000 <= e1 - e2 <= 1000 ->
  let sh := if Z.pos m1 * 2 ^ 53 / Z.pos m2 <? 2 ^ 53 then 0 else 1 in
  SFdiv 53 1024 (S754_finite false m1 e1) (S754_finite false m2 e2) =
    fin (rne_div (Z.pos m1 * 2 ^ 53) (Z.pos m2 * 2 ^ sh)) (e1 - e2 - 53 + sh).
Proof.
  intros H1 H2 He sh.
  unfold SFdiv, SFdiv_core_binary. cbn [Zdigits2 xorb].
  rewrite (digits2_pos_unique m1 53), (digits2_pos_unique m2 53) by assumption.
  assert (Z.min (fexp 53 1024 (53 + e1 - (53 + e2))) (e1 - e2) = e1 - e2 - 53) as ->
    by (unfold fexp, emin; lia).
  replace (e1 - e2 - (e1 - e2 - 53)) with 53 by lia.
  cbv iota beta. rewrite Z.shiftl_mul_pow2 by lia.
  set (N := Z.pos m1 * 2 ^ 53) in *.
  assert (Z.div_eucl N (Z.pos m2) = (N / Z.pos m2, N mod Z.pos m2)) as ->.
  { unfold Z.div, Z.modulo. destruct (Z.div_eucl N (Z.pos m2)); reflexivity. }
  assert (0 <= N) as HN by (unfold N; lia).
  assert (2 ^ 52 <= N / Z.pos m2 < 2 ^ 54) as Hq.
  { split.
    - apply Z.div_le_lower_bound; [lia|]. unfold N. nia.
    - apply Z.div_lt_upper_bound; [lia|]. unfold N.
      change (2 ^ 54) with (2 * 2 ^ 53). nia. }
  apply binary_round_aux_spec; try lia.
  - apply new_location_ok; lia.
  - subst sh. destruct (Z.ltb_spec (N / Z.pos m2) (2 ^ 53)).
    + change (2 ^ (52 + 0)) with (2 ^ 52). change (2 ^ (53 + 0)) with (2 ^ 53). lia.
    + change (2 ^ (52 + 1)) with (2 ^ 53). change (2 ^ (53 + 1)) with (2 ^ 54). lia.
  - subst sh. destruct (_ <? _); lia.
  - subst sh. destruct (_ <? _); lia.
  - subst sh. destruct (_ <? _); lia.
Qed.

(** The product of two positive normal floats is their exact product
    rounded to 53 bits. *)
Lemma SFmul_normal (m1 m2 : positive) (e1 e2 sh : Z) :
  0 <= sh -> 2 ^ (52 + sh) <= Z.pos m1 * Z.pos m2 < 2 ^ (53 + sh) ->
  -1074 <= e1 + e2 + sh -> e1 + e2 + sh <= 970 ->
  SFmul 53 1024 (S754_finite false m1 e1) (S754_finite false m2 e2) =
    fin (rne_div (Z.pos m1 * Z.pos m2) (2 ^ sh)) (e1 + e2 + sh).
Proof.
  intros Hsh Hb Hlo Hhi. unfold SFmul. cbn [xorb].
  rewrite (binary_round_aux_spec (Z.pos m1 * Z.pos m2) 1 _ loc_Exact (e1 + e2) sh);
    try lia.
  - rewrite Z.mul_1_l. reflexivity.
  - unfold loc_ok; cbn [shr_record_of_loc shr_m shr_r shr_s].
    repeat split; try lia; try discriminate.
Qed.

Lemma rne_div_scale N D c :
  0 < c -> 0 < D -> rne_div (N * c) (D * c) = rne_div N D.
Proof.
  intros Hc HD. unfold rne_div.
  rewrite Z.div_mul_cancel_r, Z.mul_mod_distr_r by lia.
  replace (2 * (N mod D * c)) with (2 * (N mod D) * c) by ring.
  rewrite <- Zmult_compare_compat_r by lia. reflexivity.
Qed.

(** [fin q e] is the canonical float of value [q * 2^e] *)
Lemma fin_canonical q e :
  2 ^ 52 <= q <= 2 ^ 53 ->
  exists (q' : positive) (dl : Z),
    fin q e = S754_finite false q' (e + dl) /\
    0 <= dl <= 1 /\ q = Z.pos q' * 2 ^ dl /\ 2 ^ 52 <= Z.pos q' < 2 ^ 53.
Proof.
  intros Hq. unfold fin. destruct (Z.eqb_spec q (2 ^ 53)) as [E|E].
  - exists (Z.to_pos (2 ^ 52)), 1. subst q. repeat split; try lia; reflexivity.
  - exists (Z.to_pos q), 0. rewrite Z.add_0_r, Z2Pos.id, Z.mul_1_r by lia.
    repeat split; lia.
Qed.

Lemma fin_not_special q e :
  match fin q e with
  | S754_infinity _ => False
  | S754_nan => False
  | S754_zero _ => False
  | S754_finite s _ _ => s = false
  end.
Proof. unfold fin. destruct (_ =? _); reflexivity. Qed.

(** [int(x)] of a positive float is the integer part of [q * 2^e]. *)
Lemma to_int_fin q e :
  2 ^ 52 <= q <= 2 ^ 53 ->
  PyFloat.to_int (fin q e) = Ok (if 0 <=? e then q * 2 ^ e else q / 2 ^ (- e)).
Proof.
  intros Hq. unfold fin. destruct (Z.eqb_spec q (2 ^ 53)) as [E|E].
  - subst q. cbn [PyFloat.to_int]. f_equal.
    change (Z.pos (Z.to_pos (2 ^ 52))) with (2 ^ 52).
    destruct (Z.leb_spec 0 e) as [He|He].
    + replace (0 <=? e + 1) with true by (symmetry; apply Z.leb_le; lia).
      rewrite Z.pow_add_r by lia. change (2 ^ 53) with (2 ^ 52 * 2 ^ 1). ring.
    + destruct (Z.leb_spec 0 (e + 1)) as [He1|He1].
      * replace e with (-1) by lia. reflexivity.
      * replace (- e) with (- (e + 1) + 1) by lia.
        rewrite Z.pow_add_r by lia.
        change (2 ^ 53) with (2 ^ 52 * 2 ^ 1).
        assert (0 < 2 ^ (- (e + 1))) by (apply Z.pow_pos_nonneg; lia).
        rewrite Z.div_mul_cancel_r by lia. reflexivity.
  - cbn [PyFloat.to_int]. rewrite Z2Pos.id by lia. reflexivity.
Qed.

Lemma of_int_pos z :
  0 < z < 2 ^ 53 ->
  PyFloat.of_int z = Ok (S754_finite false (Z.to_pos (mant z)) (expo z)).
Proof.
  intros Hz. unfold PyFloat.of_int, PyFloat.prec, PyFloat.emax.
  rewrite binary_normalize_pos by assumption. reflexivity.
Qed.

Lemma expo_bounds z : 0 < z < 2 ^ 53 -> -52 <= expo z <= 0.
Proof.
  intros [Hz Hlt]. unfold expo.
  pose proof (Zdigits2_le z 53 Hz ltac:(lia) Hlt).
  pose proof (Zdigits2_pos z Hz). lia.
Qed.

Lemma mant_expo z : 0 < z < 2 ^ 53 -> mant z = z * 2 ^ (- expo z).
Proof. intros _. unfold mant, expo. do 2 f_equal. lia. Qed.

(** [S / m] on Python ints: the quotient rounded to a 53-bit mantissa [q] at
    exponent [-k]. *)
Lemma truediv_spec S m :
  0 < S < 2 ^ 53 -> 0 < m < 2 ^ 53 ->
  exists k, 0 <= k <= 106 /\ 2 ^ 52 <= S * 2 ^ k / m < 2 ^ 53 /\
    PyFloat.truediv S m = Ok (fin (rne_div (S * 2 ^ k) m) (- k)).
Proof.
  intros HS Hm.
  pose proof (mant_bounds S HS) as HmS. pose proof (mant_bounds m Hm) as Hmm.
  pose proof (expo_bounds S HS) as HeS. pose proof (expo_bounds m Hm) as Hem.
  unfold PyFloat.truediv.
  destruct (Z.eqb_spec m 0) as [|_]; [lia|].
  rewrite (of_int_pos S HS), (of_int_pos m Hm). cbn [result_bind].
  unfold PyFloat.prec, PyFloat.emax.
  rewrite SFdiv_normal by (rewrite ?Z2Pos.id by lia; lia).
  rewrite !Z2Pos.id by lia.
  set (sh := if mant S * 2 ^ 53 / mant m <? 2 ^ 53 then 0 else 1).
  assert (0 <= sh <= 1) as Hsh by (subst sh; destruct (_ <? _); lia).
  assert (2 ^ (52 + sh) <= mant S * 2 ^ 53 / mant m < 2 ^ (53 + sh)) as Hq.
  { assert (2 ^ 52 <= mant S * 2 ^ 53 / mant m < 2 ^ 54) as Hq.
    { split.
      - apply Z.div_le_lower_bound; [lia|]. nia.
      - apply Z.div_lt_upper_bound; [lia|]. change (2 ^ 54) with (2 * 2 ^ 53). nia. }
    subst sh. destruct (Z.ltb_spec (mant S * 2 ^ 53 / mant m) (2 ^ 53)).
    - change (2 ^ (52 + 0)) with (2 ^ 52). change (2 ^ (53 + 0)) with (2 ^ 53). lia.
    - change (2 ^ (52 + 1)) with (2 ^ 53). change (2 ^ (53 + 1)) with (2 ^ 54). lia. }
  apply div_pow2_bounds in Hq; try lia. clearbody sh.
  set (k := expo m - expo S + 53 - sh).
  set (b := - expo m + sh).
  assert (0 < 2 ^ b) as Hb by (apply Z.pow_pos_nonneg; lia).
  assert (mant S * 2 ^ 53 = S * 2 ^ k * 2 ^ b) as EN.
  { rewrite (mant_expo S HS), <- !Z.mul_assoc, <- !Z.pow_add_r by lia.
    do 2 f_equal. lia. }
  assert (mant m * 2 ^ sh = m * 2 ^ b) as ED.
  { rewrite (mant_expo m Hm), <- !Z.mul_assoc, <- !Z.pow_add_r by lia.
    reflexivity. }
  rewrite EN, ED in *.
  rewrite rne_div_scale by lia.
  rewrite Z.div_mul_cancel_r in Hq by lia.
  exists k. split; [lia|]. split; [exact Hq|].
  replace (expo S - expo m - 53 + sh) with (- k) by lia.
  pose proof (fin_not_special (rne_div (S * 2 ^ k) m) (- k)) as Hf.
  destruct (fin _ _); try contradiction; reflexivity.
Qed.

(** [M * x] for a Python int [M] and a positive float [x = q * 2^e]: the
    exact product [M * q] rounded to 53 bits, at exponent [e + sh]. *)
Lemma mul_int_spec M q e :
  0 < M < 2 ^ 53 -> 2 ^ 52 <= q <= 2 ^ 53 -> -900 <= e <= 800 ->
  exists sh, 0 <= sh <= 53 /\ 2 ^ (52 + sh) <= M * q < 2 ^ (53 + sh) /\
    PyFloat.mul_int M (fin q e) = Ok (fin (rne_div (M * q) (2 ^ sh)) (e + sh)).
Proof.
  intros HM Hq He.
  pose proof (mant_bounds M HM) as HmM. pose proof (expo_bounds M HM) as HeM.
  assert (0 < M * q) as HX by nia.
  pose proof (Zdigits2_bounds (M * q) HX) as HdX.
  set (sh := Zdigits2 (M * q) - 53).
  replace (Zdigits2 (M * q) - 1) with (52 + sh) in HdX by (unfold sh; lia).
  replace (Zdigits2 (M * q)) with (53 + sh) in HdX by (unfold sh; lia).
  clearbody sh.
  assert (0 <= sh) as Hsh0.
  { assert (52 < 53 + sh); [|lia]. apply pow2_lt_mono_inv.
    - destruct (Z_lt_le_dec (53 + sh) 0) as [Hneg|]; [|assumption].
      rewrite (Z.pow_neg_r 2 (53 + sh)) in HdX by assumption. lia.
    - nia. }
  assert (sh <= 53) as Hsh1.
  { assert (52 + sh < 106); [|lia]. apply pow2_lt_mono_inv; [lia|].
    change (2 ^ 106) with (2 ^ 53 * 2 ^ 53). nia. }
  exists sh. split; [lia|]. split; [exact HdX|].
  unfold PyFloat.mul_int. rewrite (of_int_pos M HM). cbn [result_bind].
  destruct (fin_canonical q e Hq) as (q' & dl & -> & Hdl & Eq & Hq').
  unfold PyFloat.prec, PyFloat.emax. f_equal.
  set (c := - expo M).
  assert (0 < 2 ^ c) as Hc by (apply Z.pow_pos_nonneg; lia).
  assert (0 < 2 ^ dl) as Hdlp by (apply Z.pow_pos_nonneg; lia).
  assert (0 < 2 ^ sh) as Hshp by (apply Z.pow_pos_nonneg; lia).
  assert (mant M * Z.pos q' * 2 ^ dl = M * q * 2 ^ c) as EP.
  { rewrite (mant_expo M HM), Eq. fold c. ring. }
  assert (0 <= sh + c - dl) as Hsh2.
  { destruct (Z.eq_dec dl 0) as [->|]; [lia|]. replace dl with 1 in * by lia.
    assert (53 < 53 + sh); [|lia]. apply pow2_lt_mono_inv; [lia|].
    change (2 ^ 1) with 2 in *. nia. }
  assert (2 ^ (sh + c) = 2 ^ (sh + c - dl) * 2 ^ dl) as Epow
    by (rewrite <- Z.pow_add_r by lia; f_equal; lia).
  rewrite (SFmul_normal _ _ _ _ (sh + c - dl)); rewrite ?Z2Pos.id by lia; try lia.
  - f_equal; [|unfold c; lia].
    rewrite <- (rne_div_scale _ _ (2 ^ dl)) by (try apply Z.pow_pos_nonneg; lia).
    rewrite <- Epow, EP, Z.pow_add_r by lia.
    apply rne_div_scale; lia.
  - assert (2 ^ (52 + (sh + c - dl)) * 2 ^ dl = 2 ^ (52 + sh) * 2 ^ c) as E1
      by (rewrite <- !Z.pow_add_r by lia; f_equal; lia).
    assert (2 ^ (53 + (sh + c - dl)) * 2 ^ dl = 2 ^ (53 + sh) * 2 ^ c) as E2
      by (rewrite <- !Z.pow_add_r by lia; f_equal; lia).
    nia.
Qed.

(** Two roundings of relative error at most [2^-53] move a value that is
    close to [S] by less than one. *)
Lemma two_roundings_lower S K A Y :
  0 < S < 2 ^ 31 -> 0 < K ->
  (2 ^ 53 - 1) * (S * K) <= 2 ^ 53 * Y ->
  (2 ^ 53 - 1) * Y <= 2 ^ 53 * A ->
  (S - 1) * K <= A.
Proof.
  intros HS HK H1 H2.
  assert (S * K <= 2 ^ 31 * K) as HP by nia.
  replace ((S - 1) * K) with (S * K - K) by ring.
  set (P := S * K) in *. clearbody P.
  change (2 ^ 53) with 9007199254740992 in *.
  change (2 ^ 31) with 2147483648 in *. lia.
Qed.

Lemma two_roundings_upper S K A Y :
  0 < S < 2 ^ 31 -> 0 < K ->
  2 ^ 53 * Y <= (2 ^ 53 + 1) * (S * K) ->
  2 ^ 53 * A <= (2 ^ 53 + 1) * Y ->
  A < (S + 1) * K.
Proof.
  intros HS HK H1 H2.
  assert (S * K <= 2 ^ 31 * K) as HP by nia.
  replace ((S + 1) * K) with (S * K + K) by ring.
  set (P := S * K) in *. clearbody P.
  change (2 ^ 53) with 9007199254740992 in *.
  change (2 ^ 31) with 2147483648 in *. lia.
Qed.

(** A value [q * D] within half a [D] of [N], with [q] of 53 bits, is
    within [2^-53] of [N] in relative terms. *)
Lemma half_ulp_relative q D N :
  0 < D -> 2 ^ 52 * D <= N -> 2 * Z.abs (q * D - N) <= D ->
  (2 ^ 53 - 1) * N <= 2 ^ 53 * (q * D) <= (2 ^ 53 + 1) * N.
Proof.
  intros HD HN Herr.
  set (Y := q * D) in *. clearbody Y.
  change (2 ^ 53) with 9007199254740992 in *.
  change (2 ^ 52) with 4503599627370496 in *. lia.
Qed.

(** [int(M * (S / m))] is at least [S - 1] when [m <= M], and [int(m * (S / m))]
    is [S - 1] or [S]: the two roundings cannot move the product by one. *)
Lemma scaled_bounds S m M :
  0 < S < 2 ^ 31 -> 0 < m -> m <= M < 2 ^ 31 ->
  exists n, scaled S m M = Ok n /\ S - 1 <= n /\ (M = m -> n <= S).
Proof.
  intros HS Hm HM.
  assert (2 ^ 31 < 2 ^ 53) as H3153 by (apply Z.pow_lt_mono_r; lia).
  destruct (truediv_spec S m ltac:(lia) ltac:(lia)) as (k & Hk & Hq0 & Ediv).
  assert (0 < 2 ^ k) as Hkp by (apply Z.pow_pos_nonneg; lia).
  assert (0 <= S * 2 ^ k) as HN by nia.
  pose proof (rne_div_bounds (S * 2 ^ k) m Hm HN) as [Hq1 Herr1].
  set (q1 := rne_div (S * 2 ^ k) m) in *.
  assert (2 ^ 52 * m <= S * 2 ^ k) as Hlo6.
  { destruct Hq0 as [Hq0 _].
    pose proof (Z.mul_div_le (S * 2 ^ k) m Hm).
    apply Z.le_trans with (m * (S * 2 ^ k / m)); [|assumption].
    rewrite (Z.mul_comm m). apply Z.mul_le_mono_nonneg_r; lia. }
  destruct (mul_int_spec M q1 (- k) ltac:(lia) ltac:(lia) ltac:(lia))
    as (sh & Hsh & HX & Emul).
  assert (0 < 2 ^ sh) as Hshp by (apply Z.pow_pos_nonneg; lia).
  assert (0 < q1) as Hq1p by lia.
  assert (0 <= M * q1) as HN2 by nia.
  pose proof (rne_div_bounds (M * q1) (2 ^ sh) Hshp HN2) as [Hq2 Herr2].
  pose proof (div_pow2_bounds (M * q1) 1 sh ltac:(lia) ltac:(lia)) as Hq2b.
  rewrite Z.div_1_r, Z.mul_1_l in Hq2b. specialize (Hq2b HX).
  set (q2 := rne_div (M * q1) (2 ^ sh)) in *.
  unfold scaled. rewrite Ediv. cbn [result_bind]. rewrite Emul. cbn [result_bind].
  rewrite to_int_fin by lia.
  eexists; split; [reflexivity|].
  rewrite Z.pow_add_r in HX by lia.
  (* relative error of the quotient and of the product *)
  pose proof (half_ulp_relative q1 m (S * 2 ^ k) Hm Hlo6 Herr1) as [Hd_lo Hd_hi].
  pose proof (half_ulp_relative q2 (2 ^ sh) (M * q1) Hshp (proj1 HX) Herr2) as [Hm_lo Hm_hi].
  assert (q1 * m <= M * q1) as Hmono
    by (rewrite (Z.mul_comm M); apply Z.mul_le_mono_nonneg_l; lia).
  assert ((2 ^ 53 - 1) * (S * 2 ^ k) <= 2 ^ 53 * (M * q1)) as Hlow.
  { apply Z.le_trans with (2 ^ 53 * (q1 * m)); [assumption|].
    apply Z.mul_le_mono_nonneg_l; [lia|assumption]. }
  pose proof (two_roundings_lower S (2 ^ k) (q2 * 2 ^ sh) (M * q1) HS Hkp Hlow Hm_lo) as Hge.
  destruct (Z.leb_spec 0 (- k + sh)) as [Hpos|Hneg].
  - assert (2 ^ sh = 2 ^ k * 2 ^ (- k + sh)) as Esh
      by (rewrite <- Z.pow_add_r by lia; f_equal; lia).
    assert (0 < 2 ^ (- k + sh)) as Hp by (apply Z.pow_pos_nonneg; lia).
    split.
    + apply Z.le_trans with (q2 * 1); [lia|].
      apply Z.mul_le_mono_nonneg_l; lia.
    + intros ->. exfalso.
      rewrite (Z.mul_comm m q1) in Hm_hi.
      pose proof (two_roundings_upper S (2 ^ k) (q2 * 2 ^ sh) (q1 * m) HS Hkp Hd_hi Hm_hi) as Hlt.
      rewrite Esh in Hlt.
      assert (2 ^ 52 * (2 ^ k * 1) <= q2 * (2 ^ k * 2 ^ (- k + sh))).
      { apply Z.mul_le_mono_nonneg; try lia.
        apply Z.mul_le_mono_nonneg_l; lia. }
      assert ((S + 1) * 2 ^ k <= 2 ^ 31 * 2 ^ k)
        by (apply Z.mul_le_mono_nonneg_r; lia).
      change (2 ^ 52) with 4503599627370496 in *.
      change (2 ^ 31) with 2147483648 in *. lia.
  - replace (- (- k + sh)) with (k - sh) by lia.
    assert (0 < 2 ^ (k - sh)) as Hksp by (apply Z.pow_pos_nonneg; lia).
    assert (2 ^ k = 2 ^ (k - sh) * 2 ^ sh) as Ek
      by (rewrite <- Z.pow_add_r by lia; f_equal; lia).
    split.
    + apply Z.div_le_lower_bound; [assumption|].
      rewrite Ek in Hge.
      apply Z.mul_le_mono_pos_r with (2 ^ sh); [assumption|].
      replace (2 ^ (k - sh) * (S - 1) * 2 ^ sh) with ((S - 1) * (2 ^ (k - sh) * 2 ^ sh)) by ring.
      exact Hge.
    + intros ->.
      assert (q2 / 2 ^ (k - sh) < S + 1); [|lia].
      apply Z.div_lt_upper_bound; [assumption|].
      rewrite (Z.mul_comm m q1) in Hm_hi.
      pose proof (two_roundings_upper S (2 ^ k) (q2 * 2 ^ sh) (q1 * m) HS Hkp Hd_hi Hm_hi) as Hlt.
      rewrite Ek in Hlt.
      apply Z.mul_lt_mono_pos_r with (2 ^ sh); [assumption|].
      replace (2 ^ (k - sh) * (S + 1) * 2 ^ sh) with ((S + 1) * (2 ^ (k - sh) * 2 ^ sh)) by ring.
      exact Hlt.
Qed.

(** Rounding is monotone in the numerator. *)
Lemma rne_div_mono N N' D :
  0 < D -> 0 <= N <= N' -> rne_div N D <= rne_div N' D.
Proof.
  intros HD HN.
  pose proof (rne_div_bounds N D HD ltac:(lia)) as [Hb _].
  pose proof (rne_div_bounds N' D HD ltac:(lia)) as [Hb' _].
  assert (N / D <= N' / D) as Hq by (apply Z.div_le_mono; lia).
  destruct (Z.eq_dec (N / D) (N' / D)) as [E|E]; [|lia].
  clear Hb Hb' Hq. unfold rne_div. rewrite <- E.
  pose proof (Z.div_mod N D ltac:(lia)) as H1.
  pose proof (Z.div_mod N' D ltac:(lia)) as H2. rewrite <- E in H2.
  assert (N mod D <= N' mod D) as Hr by lia.
  destruct (Z.compare_spec (2 * (N mod D)) D), (Z.compare_spec (2 * (N' mod D)) D),
    (Z.even (N / D)); lia.
Qed.

(** The integer part of [q * 2^(sh - k)]. *)
Lemma trunc_as_div q sh k :
  0 <= k -> 0 <= sh ->
  (if 0 <=? - k + sh then q * 2 ^ (- k + sh) else q / 2 ^ (- (- k + sh))) =
  q * 2 ^ sh / 2 ^ k.
Proof.
  intros Hk Hsh.
  assert (0 < 2 ^ k) by (apply Z.pow_pos_nonneg; lia).
  assert (0 < 2 ^ sh) by (apply Z.pow_pos_nonneg; lia).
  destruct (Z.leb_spec 0 (- k + sh)).
  - replace (2 ^ sh) with (2 ^ (- k + sh) * 2 ^ k)
      by (rewrite <- Z.pow_add_r by lia; f_equal; lia).
    rewrite Z.mul_assoc, Z.div_mul by lia. reflexivity.
  - replace (2 ^ k) with (2 ^ (- (- k + sh)) * 2 ^ sh)
      by (rewrite <- Z.pow_add_r by lia; f_equal; lia).
    rewrite Z.div_mul_cancel_r by (try apply Z.pow_nonzero; lia). reflexivity.
Qed.

(** Rounding to 53 bits is monotone: [X <= X'] implies that the rounded
    value of [X] is at most that of [X']. *)
Lemma round53_mono X X' sh sh' :
  0 <= sh -> 0 <= sh' -> 0 < X <= X' ->
  2 ^ (52 + sh) <= X < 2 ^ (53 + sh) ->
  2 ^ (52 + sh') <= X' < 2 ^ (53 + sh') ->
  rne_div X (2 ^ sh) * 2 ^ sh <= rne_div X' (2 ^ sh') * 2 ^ sh'.
Proof.
  intros Hsh Hsh' HX Hd Hd'.
  assert (0 < 2 ^ sh) as Hp by (apply Z.pow_pos_nonneg; lia).
  assert (0 < 2 ^ sh') as Hp' by (apply Z.pow_pos_nonneg; lia).
  assert (sh <= sh') as Hle.
  { assert (52 + sh < 53 + sh'); [|lia]. apply pow2_lt_mono_inv; lia. }
  destruct (Z.eq_dec sh sh') as [<-|Hne].
  - apply Z.mul_le_mono_nonneg_r; [lia|]. apply rne_div_mono; lia.
  - pose proof (div_pow2_bounds X 1 sh ltac:(lia) Hsh) as Hq.
    rewrite Z.div_1_r, Z.mul_1_l in Hq. specialize (Hq Hd).
    pose proof (div_pow2_bounds X' 1 sh' ltac:(lia) Hsh') as Hq'.
    rewrite Z.div_1_r, Z.mul_1_l in Hq'. specialize (Hq' Hd').
    pose proof (rne_div_bounds X (2 ^ sh) Hp ltac:(lia)) as [Hb _].
    pose proof (rne_div_bounds X' (2 ^ sh') Hp' ltac:(lia)) as [Hb' _].
    apply Z.le_trans with (2 ^ 53 * 2 ^ sh).
    + apply Z.mul_le_mono_nonneg_r; lia.
    + apply Z.le_trans with (2 ^ 52 * 2 ^ sh').
      * rewrite <- !Z.pow_add_r by lia. apply Z.pow_le_mono_r; lia.
      * apply Z.mul_le_mono_nonneg_r; lia.
Qed.

(** [int(M * (S / m))] is monotone in [M]. *)
Lemma scaled_mono S m M M' n n' :
  0 < S < 2 ^ 31 -> 0 < m < 2 ^ 31 -> 0 < M <= M' -> M' < 2 ^ 31 ->
  scaled S m M = Ok n -> scaled S m M' = Ok n' -> n <= n'.
Proof.
  intros HS Hm HM HM'.
  assert (2 ^ 31 < 2 ^ 53) as H3153 by (apply Z.pow_lt_mono_r; lia).
  destruct (truediv_spec S m ltac:(lia) ltac:(lia)) as (k & Hk & Hq0 & Ediv).
  assert (0 < 2 ^ k) as Hkp by (apply Z.pow_pos_nonneg; lia).
  pose proof (rne_div_bounds (S * 2 ^ k) m ltac:(lia) ltac:(nia)) as [Hq1 _].
  set (q1 := rne_div (S * 2 ^ k) m) in *.
  destruct (mul_int_spec M q1 (- k) ltac:(lia) ltac:(lia) ltac:(lia))
    as (sh & Hsh & HX & Emul).
  destruct (mul_int_spec M' q1 (- k) ltac:(lia) ltac:(lia) ltac:(lia))
    as (sh' & Hsh' & HX' & Emul').
  assert (2 ^ 52 <= rne_div (M * q1) (2 ^ sh) <= 2 ^ 53) as Hq2.
  { pose proof (div_pow2_bounds (M * q1) 1 sh ltac:(lia) ltac:(lia)) as Hb.
    rewrite Z.div_1_r, Z.mul_1_l in Hb. specialize (Hb HX).
    pose proof (rne_div_bounds (M * q1) (2 ^ sh)
      ltac:(apply Z.pow_pos_nonneg; lia) ltac:(nia)) as [? _]. lia. }
  assert (2 ^ 52 <= rne_div (M' * q1) (2 ^ sh') <= 2 ^ 53) as Hq2'.
  { pose proof (div_pow2_bounds (M' * q1) 1 sh' ltac:(lia) ltac:(lia)) as Hb.
    rewrite Z.div_1_r, Z.mul_1_l in Hb. specialize (Hb HX').
    pose proof (rne_div_bounds (M' * q1) (2 ^ sh')
      ltac:(apply Z.pow_pos_nonneg; lia) ltac:(nia)) as [? _]. lia. }
  unfold scaled. rewrite Ediv. cbn [result_bind]. rewrite Emul, Emul'. cbn [result_bind].
  rewrite !to_int_fin by lia. rewrite !trunc_as_div by lia.
  intros [= <-] [= <-].
  apply Z.div_le_mono; [lia|].
  apply round53_mono; try lia.
  split; [nia|]. apply Z.mul_le_mono_nonneg_r; lia.
Qed.

(* ===================================================================== *)
(** ** File-system operations                                             *)
(* ===================================================================== *)

Lemma is_file_insert_dir (fs : FS) (k q : path) :
  is_file (<[k := Dir]> fs) q = if decide (k = q) then false else is_file fs q.
Proof.
  unfold is_file. rewrite lookup_insert. destruct (decide (k = q)); reflexivity.
Qed.

Lemma no_file_from_insert_dir todo : forall done k (fs : FS),
  no_file_from done todo fs = true ->
  no_file_from done todo (<[k := Dir]> fs) = true.
Proof.
  induction todo as [|c todo IH]; intros done k fs Hno; [reflexivity|].
  cbn [no_file_from] in *. apply andb_true_iff in Hno as [Hc Hrest].
  apply andb_true_iff. split; [|apply IH; exact Hrest].
  rewrite is_file_insert_dir. destruct (decide _); [reflexivity|exact Hc].
Qed.

Lemma prefix_of_snoc (done : path) (c : string) (todo : path) :
  (done ++ [c]) `prefix_of` (done ++ c :: todo).
Proof. exists todo. rewrite <- app_assoc. reflexivity. Qed.

(** [os.makedirs] succeeds when no file is in the way; it only adds
    directories, on prefixes of its argument. *)
Lemma makedirs_from_ok todo : forall done (fs : FS),
  no_file_from done todo fs = true ->
  exists fs', Os.makedirs_from done todo fs = (Ok tt, fs') /\
    fs ⊆ fs' /\
    (todo <> [] -> fs' !! (done ++ todo) = Some Dir) /\
    (forall q, ~ q `prefix_of` (done ++ todo) -> fs' !! q = fs !! q) /\
    (forall q, is_file fs' q = is_file fs q).
Proof.
  induction todo as [|c todo IH]; intros done fs Hno.
  - exists fs. repeat split; try reflexivity. intros []; reflexivity.
  - cbn [no_file_from] in Hno. apply andb_true_iff in Hno as [Hc Hrest].
    apply negb_true_iff in Hc.
    set (d := done ++ [c]) in *.
    assert (fs ⊆ <[d := Dir]> fs) as Hsub.
    { unfold is_file in Hc. destruct (fs !! d) as [[|b]|] eqn:E; try discriminate.
      - rewrite insert_id by exact E. reflexivity.
      - apply insert_subseteq. exact E. }
    destruct (IH d (<[d := Dir]> fs) (no_file_from_insert_dir _ _ _ _ Hrest))
      as (fs' & Erun & Hsub' & Htarget & Hframe & Hfile).
    exists fs'.
    assert (done ++ c :: todo = d ++ todo) as Epath
      by (unfold d; rewrite <- app_assoc; reflexivity).
    split.
    { cbn [Os.makedirs_from]. fold d. unfold is_file in Hc.
      destruct (fs !! d) as [[|b]|]; try discriminate; exact Erun. }
    split; [etransitivity; eassumption|].
    split.
    { intros _. rewrite Epath. destruct todo as [|c' todo'].
      - rewrite app_nil_r. apply (lookup_weaken _ _ _ _ (lookup_insert_eq fs d Dir) Hsub').
      - apply Htarget. discriminate. }
    split.
    { intros q Hq. rewrite Epath in Hq. rewrite (Hframe q Hq).
      apply lookup_insert_ne. intros <-. apply Hq. exists todo. reflexivity. }
    intros q. rewrite Hfile, is_file_insert_dir.
    destruct (decide (d = q)) as [<-|]; [symmetry; exact Hc|reflexivity].
Qed.

Lemma makedirs_ok (p : path) (fs : FS) :
  no_file_on p fs = true ->
  exists fs', Os.makedirs p fs = (Ok tt, fs') /\
    fs ⊆ fs' /\
    (p <> [] -> fs' !! p = Some Dir) /\
    (forall q, ~ q `prefix_of` p -> fs' !! q = fs !! q) /\
    (forall q, is_file fs' q = is_file fs q).
Proof. apply (makedirs_from_ok p []). Qed.

Lemma no_file_from_ext todo : forall done (fs fs' : FS),
  (forall q, q `prefix_of` (done ++ todo) -> is_file fs' q = is_file fs q) ->
  no_file_from done todo fs' = no_file_from done todo fs.
Proof.
  induction todo as [|c todo IH]; intros done fs fs' Hext; [reflexivity|].
  cbn [no_file_from]. rewrite (Hext (done ++ [c])) by apply prefix_of_snoc.
  f_equal. apply IH. intros q Hq. apply Hext.
  rewrite <- app_assoc in Hq. exact Hq.
Qed.

Lemma removelast_snoc (d : path) (c : string) : Os.path_dirname (d ++ [c]) = d.
Proof. apply removelast_last. Qed.

Lemma snoc_ne_self (d : path) (c : string) : d ++ [c] <> d.
Proof.
  intros E. apply (f_equal (@List.length string)) in E.
  rewrite length_app in E. cbn in E. lia.
Qed.

Lemma write_file_ok (p : path) (data : bytes) (fs : FS) :
  is_dir fs p = false -> fs !! Os.path_dirname p = Some Dir ->
  Os.write_file p data fs = (Ok tt, <[p := File data]> fs).
Proof.
  intros Hp Hparent. unfold Os.write_file, is_dir in *. rewrite Hparent.
  destruct (fs !! p) as [[|b]|]; try discriminate; reflexivity.
Qed.

Lemma write_file_inv (p : path) (data : bytes) (fs fs' : FS) :
  Os.write_file p data fs = (Ok tt, fs') -> fs' = <[p := File data]> fs.
Proof.
  unfold Os.write_file.
  destruct (fs !! p) as [[|b]|]; [discriminate| |];
    destruct (fs !! Os.path_dirname p) as [[|b']|]; congruence.
Qed.

Lemma rmtree_ok (p : path) (fs : FS) :
  fs !! p = Some Dir ->
  exists fs', Os.rmtree p fs = (Ok tt, fs') /\
    (forall q, p `prefix_of` q -> fs' !! q = None) /\
    (forall q, ~ p `prefix_of` q -> fs' !! q = fs !! q).
Proof.
  intros Hp. unfold Os.rmtree. rewrite Hp. eexists. split; [reflexivity|]. split.
  - intros q Hq. apply map_lookup_filter_None. right. intros x _ Hn. apply Hn. exact Hq.
  - intros q Hq. destruct (fs !! q) as [x|] eqn:E.
    + apply map_lookup_filter_Some. split; [exact E|exact Hq].
    + apply map_lookup_filter_None. left. exact E.
Qed.

(* ===================================================================== *)
(** ** Pillow operations and the variants loop                            *)
(* ===================================================================== *)

Section PillowFacts.
Context `{Pillow}.

Lemma c_int_true (z : Z) : - 2 ^ 31 <= z < 2 ^ 31 -> c_int z = true.
Proof.
  intros Hz. unfold c_int. apply andb_true_intro. split.
  - apply Z.leb_le. lia.
  - apply Z.ltb_lt. lia.
Qed.

Lemma Image_resize_ok (im : Image) (w h : Z) :
  1 <= w < 2 ^ 31 -> 1 <= h < 2 ^ 31 ->
  can_resample (width im, height im) (w, h) = true ->
  Image_resize im (w, h) = Ok (resampled im w h).
Proof.
  intros Hw Hh Hcan. unfold Image_resize, resampled.
  destruct ((w =? width im) && (h =? height im)); [reflexivity|].
  rewrite !c_int_true by lia. cbn [andb negb].
  replace (w <? 1) with false by (symmetry; apply Z.ltb_ge; lia).
  replace (h <? 1) with false by (symmetry; apply Z.ltb_ge; lia).
  rewrite Hcan. reflexivity.
Qed.

(** A resize to the current size returns the image, whatever the limits. *)
Lemma Image_resize_same (im : Image) (w h : Z) :
  w = width im -> h = height im ->
  Image_resize im (w, h) = Ok im /\ resampled im w h = im.
Proof.
  intros Ew Eh. unfold Image_resize, resampled. rewrite Ew, Eh, !Z.eqb_refl.
  split; reflexivity.
Qed.

Lemma Image_resize_inv (im v : Image) (w h : Z) :
  Image_resize im (w, h) = Ok v -> v = resampled im w h.
Proof.
  unfold Image_resize, resampled.
  destruct ((w =? width im) && (h =? height im)); [congruence|].
  destruct (negb (c_int w && c_int h)); [discriminate|].
  destruct ((w <? 1) || (h <? 1)); [discriminate|].
  destruct (negb (can_resample _ _)); congruence.
Qed.

Lemma resampled_size (im : Image) (w h : Z) :
  width (resampled im w h) = w /\ height (resampled im w h) = h /\
  mode (resampled im w h) = mode im.
Proof.
  unfold resampled.
  destruct (Z.eqb_spec w (width im)), (Z.eqb_spec h (height im)); cbn; auto.
Qed.

Lemma resampled_same (im : Image) :
  resampled im (width im) (height im) = im.
Proof. unfold resampled. rewrite !Z.eqb_refl. reflexivity. Qed.

Lemma convert_if_needed_rgba (im : Image) :
  mode (convert_if_needed im) = "RGBA" /\
  width (convert_if_needed im) = width im /\
  height (convert_if_needed im) = height im.
Proof.
  unfold convert_if_needed.
  destruct (String.eqb_spec (mode im) "RGBA") as [E|E]; cbn; auto.
Qed.

(** The loop of [generate_iconset] writes the variants one after the other. *)
Lemma for_each_save_ok (dir : path) (canvas : Image) l : forall fs : FS,
  fs !! dir = Some Dir ->
  (forall size filename, In (size, filename) l ->
     Image_resize canvas (size, size) = Ok (resampled canvas size size) /\
     is_dir fs (dir ++ [filename]) = false) ->
  for_each l (fun '(size, filename) =>
      resized <- lift (Image_resize canvas (size, size)) ;;
      let output_path := Os.path_join dir [filename] in
      Image_save resized output_path) fs
  = (Ok tt, staged dir canvas l fs).
Proof.
  induction l as [|[size filename] l IH]; intros fs Hdir Hl; [reflexivity|].
  destruct (Hl size filename (or_introl eq_refl)) as [Hsize Hfree].
  cbn [for_each staged]. unfold bind at 1. unfold bind at 1, lift at 1.
  rewrite Hsize.
  unfold Image_save, Os.path_join.
  rewrite write_file_ok; [|exact Hfree|rewrite removelast_snoc; exact Hdir].
  apply IH.
  - rewrite lookup_insert_ne by apply snoc_ne_self. exact Hdir.
  - intros size' filename' Hin.
    destruct (Hl size' filename' (or_intror Hin)) as [Hsize' Hfree'].
    split; [exact Hsize'|]. unfold is_dir in *. rewrite lookup_insert.
    destruct (decide _); [reflexivity|exact Hfree'].
Qed.

Lemma for_each_save_inv (dir : path) (canvas : Image) l : forall fs fs' : FS,
  for_each l (fun '(size, filename) =>
      resized <- lift (Image_resize canvas (size, size)) ;;
      let output_path := Os.path_join dir [filename] in
      Image_save resized output_path) fs
  = (Ok tt, fs') ->
  fs' = staged dir canvas l fs.
Proof.
  induction l as [|[size filename] l IH]; intros fs fs' Hrun.
  - cbn [for_each] in Hrun. unfold ret in Hrun. injection Hrun as <-. reflexivity.
  - cbn [for_each staged] in *. unfold bind at 1 in Hrun.
    unfold bind at 1, lift at 1 in Hrun.
    destruct (Image_resize canvas (size, size)) as [v|e] eqn:Ev; [|discriminate].
    apply Image_resize_inv in Ev. subst v.
    unfold Image_save, Os.path_join in Hrun.
    destruct (Os.write_file _ _ fs) as [[[]|e] fs1] eqn:Ew; [|discriminate].
    apply write_file_inv in Ew. subst fs1. apply IH. exact Hrun.
Qed.

Lemma staged_lookup_other (dir : path) (canvas : Image) l : forall (fs : FS) (p : path),
  (forall size filename, In (size, filename) l -> p <> dir ++ [filename]) ->
  staged dir canvas l fs !! p = fs !! p.
Proof.
  induction l as [|[size filename] l IH]; intros fs p Hp; [reflexivity|].
  cbn [staged]. rewrite IH.
  - apply lookup_insert_ne. intros E. apply (Hp size filename (or_introl eq_refl)).
    symmetry. exact E.
  - intros size' filename' Hin. apply (Hp size' filename'). right. exact Hin.
Qed.

Lemma staged_lookup_in (dir : path) (canvas : Image) l : forall (fs : FS) size filename,
  NoDup (map snd l) -> In (size, filename) l ->
  staged dir canvas l fs !! (dir ++ [filename]) =
    Some (File (encode_png (resampled canvas size size))).
Proof.
  induction l as [|[size0 filename0] l IH]; intros fs size filename Hnd Hin; [destruct Hin|].
  cbn [map snd] in Hnd. apply NoDup_cons in Hnd as [Hfresh Hnd].
  cbn [staged]. destruct Hin as [[= -> ->]|Hin].
  - rewrite staged_lookup_other; [apply lookup_insert_eq|].
    intros size' filename' Hin E. apply app_inv_head in E. injection E as <-.
    apply Hfresh. apply list_elem_of_In. apply (in_map snd _ _ Hin).
  - apply IH; assumption.
Qed.

Lemma staged_is_file (dir : path) (canvas : Image) (l : list (Z * string))
    (fs : FS) (q : path) :
  (forall size filename, In (size, filename) l -> q <> dir ++ [filename]) ->
  is_file (staged dir canvas l fs) q = is_file fs q.
Proof. intros Hq. unfold is_file. rewrite staged_lookup_other by exact Hq. reflexivity. Qed.

End PillowFacts.

(* ===================================================================== *)
(** ** The resized dimensions and the crop                                *)
(* ===================================================================== *)

Lemma resized_dims_scaled (w h size : Z) :
  resized_dims w h size =
  result_bind (scaled size (Z.min w h) w) (fun new_width =>
  result_bind (scaled size (Z.min w h) h) (fun new_height =>
  Ok (new_width, new_height))).
Proof. unfold resized_dims, scaled. destruct (PyFloat.truediv _ _); reflexivity. Qed.

(** The resized dimensions exist; each is at least [size - 1], the one of
    the smaller source side is at most [size] and at most the other one. *)
Lemma resized_dims_ok (w h size : Z) :
  0 < w < 2 ^ 31 -> 0 < h < 2 ^ 31 -> 0 < size < 2 ^ 31 ->
  exists nw nh,
    resized_dims w h size = Ok (nw, nh) /\
    scaled size (Z.min w h) w = Ok nw /\ scaled size (Z.min w h) h = Ok nh /\
    size - 1 <= nw /\ size - 1 <= nh /\
    (w <= h -> nw <= size /\ nw <= nh) /\
    (h <= w -> nh <= size /\ nh <= nw).
Proof.
  intros Hw Hh Hs. rewrite resized_dims_scaled.
  set (m := Z.min w h).
  assert (0 < m < 2 ^ 31) as Hm by (unfold m; lia).
  destruct (scaled_bounds size m w Hs ltac:(lia) ltac:(unfold m; lia)) as (nw & Ew & Hlw & Huw).
  destruct (scaled_bounds size m h Hs ltac:(lia) ltac:(unfold m; lia)) as (nh & Eh & Hlh & Huh).
  exists nw, nh. rewrite Ew, Eh. cbn [result_bind].
  repeat split; try assumption.
  - apply Huw. unfold m. lia.
  - apply (scaled_mono size m w h nw nh); try assumption; lia.
  - apply Huh. unfold m. lia.
  - apply (scaled_mono size m h w nh nw); try assumption; lia.
Qed.

Section ProgramFacts.
Context `{Pillow}.

Lemma Image_crop_inv (im canvas : Image) (x0 y0 x1 y1 : Z) :
  Image_crop im (x0, y0, x1, y1) = Ok canvas ->
  canvas = {| mode := mode im; width := x1 - x0; height := y1 - y0;
              px := fun x y =>
                let sx := x + x0 in
                let sy := y + y0 in
                if (0 <=? sx) && (sx <? width im) && (0 <=? sy) && (sy <? height im)
                then px im sx sy else transparent |}.
Proof.
  unfold Image_crop. destruct (x1 <? x0); [discriminate|].
  destruct (y1 <? y0); [discriminate|].
  destruct (2 * MAX_IMAGE_PIXELS <? _); [discriminate|].
  destruct (negb _); [discriminate|]. congruence.
Qed.

(** A crop that succeeds has the size of its box and the mode of the image. *)
Lemma Image_crop_size (im canvas : Image) (nw nh size : Z) :
  Image_crop im (crop_box nw nh size) = Ok canvas ->
  width canvas = size /\ height canvas = size /\ mode canvas = mode im.
Proof.
  unfold crop_box. intros E. apply Image_crop_inv in E. subst canvas. cbn.
  repeat split; lia.
Qed.

(** The crop of line 40 for the edge 1024 succeeds whether or not the box
    lies inside the image. *)
Lemma Image_crop_box (im : Image) (nw nh : Z) :
  1023 <= nw < 2 ^ 31 -> 1023 <= nh < 2 ^ 31 ->
  exists canvas,
    Image_crop im (crop_box nw nh 1024) = Ok canvas /\
    width canvas = 1024 /\ height canvas = 1024 /\ mode canvas = mode im /\
    forall x y, px canvas x y =
      let sx := x + (nw - 1024) / 2 in
      let sy := y + (nh - 1024) / 2 in
      if (0 <=? sx) && (sx <? width im) && (0 <=? sy) && (sy <? height im)
      then px im sx sy else transparent.
Proof.
  intros Hnw Hnh. unfold Image_crop, crop_box.
  change (2 ^ 31) with 2147483648 in *.
  pose proof (Z.div_mod (nw - 1024) 2 ltac:(lia)).
  pose proof (Z.mod_pos_bound (nw - 1024) 2 ltac:(lia)).
  pose proof (Z.div_mod (nh - 1024) 2 ltac:(lia)).
  pose proof (Z.mod_pos_bound (nh - 1024) 2 ltac:(lia)).
  set (x0 := (nw - 1024) / 2) in *. set (y0 := (nh - 1024) / 2) in *.
  replace (x0 + 1024 <? x0) with false by (symmetry; apply Z.ltb_ge; lia).
  replace (y0 + 1024 <? y0) with false by (symmetry; apply Z.ltb_ge; lia).
  replace (Z.max 1 (x0 + 1024 - x0)) with 1024 by lia.
  replace (Z.max 1 (y0 + 1024 - y0)) with 1024 by lia.
  change (2 * MAX_IMAGE_PIXELS <? 1024 * 1024) with false.
  rewrite !c_int_true by (change (2 ^ 31) with 2147483648; lia). cbn [andb negb].
  eexists. split; [reflexivity|]. cbn. repeat split; lia.
Qed.

(** [create_square_icon] never touches the file system. *)
Lemma create_square_icon_fs (src out : path) (size : Z) (fs : FS) :
  snd (create_square_icon src out size fs) = fs.
Proof.
  unfold create_square_icon, Image_open, Os.read_file, bind, lift, ret, raise.
  destruct (fs !! src) as [[|b]|]; try reflexivity.
  destruct (decode b) as [im|]; [|reflexivity].
  destruct ((0 <? width im) && (0 <? height im)); [|reflexivity].
  cbn [Image_size]. destruct (resized_dims _ _ _) as [[nw nh]|]; [|reflexivity].
  destruct (Image_resize _ _); [|reflexivity].
  destruct (Image_crop _ _); reflexivity.
Qed.

(** Its result is a function of the bytes of the source file and of the
    edge length alone. *)
Lemma create_square_icon_bytes (src src' out out' : path) (size : Z) (fs fs' : FS)
    (b : bytes) :
  fs !! src = Some (File b) -> fs' !! src' = Some (File b) ->
  fst (create_square_icon src out size fs) = fst (create_square_icon src' out' size fs').
Proof.
  intros E E'.
  unfold create_square_icon, Image_open, Os.read_file, bind, lift, ret, raise.
  rewrite E, E'.
  destruct (decode b) as [im|]; [|reflexivity].
  destruct ((0 <? width im) && (0 <? height im)); [|reflexivity].
  cbn [Image_size]. destruct (resized_dims _ _ _) as [[nw nh]|]; [|reflexivity].
  destruct (Image_resize _ _); [|reflexivity].
  destruct (Image_crop _ _); reflexivity.
Qed.

(** What a call of [create_square_icon] that returns has done. *)
Lemma create_square_icon_inv (src out : path) (size : Z) (fs fs' : FS) (canvas : Image) :
  create_square_icon src out size fs = (Ok canvas, fs') ->
  exists b im nw nh,
    fs !! src = Some (File b) /\ decode b = Some im /\
    resized_dims (width im) (height im) size = Ok (nw, nh) /\
    Image_resize (convert_if_needed im) (nw, nh)
      = Ok (resampled (convert_if_needed im) nw nh) /\
    Image_crop (resampled (convert_if_needed im) nw nh) (crop_box nw nh size)
      = Ok canvas /\
    fs' = fs.
Proof.
  unfold create_square_icon, Image_open, Os.read_file, bind, lift, ret, raise.
  destruct (fs !! src) as [[|b]|] eqn:Esrc; try discriminate.
  destruct (decode b) as [im|] eqn:Edec; [|discriminate].
  destruct ((0 <? width im) && (0 <? height im)); [|discriminate].
  cbn [Image_size]. destruct (convert_if_needed_rgba im) as (_ & Hcw & Hch).
  rewrite Hcw, Hch.
  destruct (resized_dims _ _ _) as [[nw nh]|] eqn:Edims; [|discriminate].
  destruct (Image_resize _ _) as [v|] eqn:Ev; [|discriminate].
  pose proof (Image_resize_inv _ _ _ _ Ev) as ->.
  destruct (Image_crop _ _) as [c|] eqn:Ec; [|discriminate].
  intros [= <- <-]. exists b, im, nw, nh. repeat split; assumption.
Qed.

(** When Pillow can carry out the resize, it returns the resampled image;
    both resized sides are at least 1023 and fit a C int. *)
Lemma resize_fits_ok (im : Image) (nw nh : Z) :
  0 < width im < 2 ^ 31 -> 0 < height im < 2 ^ 31 ->
  resize_fits (width im) (height im) 1024 = true ->
  resized_dims (width im) (height im) 1024 = Ok (nw, nh) ->
  Image_resize (convert_if_needed im) (nw, nh)
    = Ok (resampled (convert_if_needed im) nw nh) /\
  1023 <= nw < 2 ^ 31 /\ 1023 <= nh < 2 ^ 31.
Proof.
  intros Hw Hh Hfit Edims.
  destruct (resized_dims_ok (width im) (height im) 1024 Hw Hh ltac:(cbn; lia))
    as (nw' & nh' & Edims' & _ & _ & Hnw & Hnh & _).
  assert (nw' = nw /\ nh' = nh) as [-> ->] by (split; congruence).
  destruct (convert_if_needed_rgba im) as (_ & Hcw & Hch).
  unfold resize_fits in Hfit. rewrite Edims in Hfit.
  apply orb_prop in Hfit as [Hsame|Hcan].
  - apply andb_prop in Hsame as [E1 E2]. apply Z.eqb_eq in E1, E2.
    destruct (Image_resize_same (convert_if_needed im) nw nh) as [Er Es];
      [congruence|congruence|].
    rewrite Er, Es. split; [reflexivity|]. lia.
  - apply andb_prop in Hcan as [Hb Hcan]. apply andb_prop in Hb as [B1 B2].
    apply Z.ltb_lt in B1, B2. split; [|lia].
    apply Image_resize_ok; [lia|lia|]. rewrite Hcw, Hch. exact Hcan.
Qed.

(** On a decodable source of positive size that Pillow can resize,
    [create_square_icon] returns the crop of the resized image; the canvas
    is 1024 by 1024, RGBA. *)
Lemma create_square_icon_ok (src out : path) (fs : FS) (b : bytes) (im : Image) :
  fs !! src = Some (File b) -> decode b = Some im ->
  0 < width im < 2 ^ 31 -> 0 < height im < 2 ^ 31 ->
  resize_fits (width im) (height im) 1024 = true ->
  exists nw nh canvas,
    resized_dims (width im) (height im) 1024 = Ok (nw, nh) /\
    1023 <= nw < 2 ^ 31 /\ 1023 <= nh < 2 ^ 31 /\
    Image_crop (resampled (convert_if_needed im) nw nh) (crop_box nw nh 1024) = Ok canvas /\
    create_square_icon src out 1024 fs = (Ok canvas, fs) /\
    width canvas = 1024 /\ height canvas = 1024 /\ mode canvas = "RGBA".
Proof.
  intros E Ed Hw Hh Hfit.
  destruct (resized_dims_ok (width im) (height im) 1024 Hw Hh ltac:(cbn; lia))
    as (nw & nh & Edims & _).
  destruct (resize_fits_ok im nw nh Hw Hh Hfit Edims) as (Eres & Hnw & Hnh).
  destruct (convert_if_needed_rgba im) as (Hmode & Hcw & Hch).
  destruct (Image_crop_box (resampled (convert_if_needed im) nw nh) nw nh Hnw Hnh)
    as (canvas & Ecrop & Hcanw & Hcanh & Hcanm & _).
  exists nw, nh, canvas. split; [exact Edims|]. split; [exact Hnw|]. split; [exact Hnh|].
  split; [exact Ecrop|].
  split; [|split; [exact Hcanw|split; [exact Hcanh|]]].
  - unfold create_square_icon, Image_open, Os.read_file, bind, lift, ret.
    rewrite E, Ed.
    replace (0 <? width im) with true by (symmetry; apply Z.ltb_lt; lia).
    replace (0 <? height im) with true by (symmetry; apply Z.ltb_lt; lia).
    cbn [andb Image_size]. rewrite Hcw, Hch, Edims, Eres, Ecrop. reflexivity.
  - rewrite Hcanm. destruct (resampled_size (convert_if_needed im) nw nh) as (_ & _ & ->).
    exact Hmode.
Qed.

End ProgramFacts.

(* ===================================================================== *)
(** ** The iconset                                                        *)
(* ===================================================================== *)

Lemma sizes_NoDup : NoDup (map snd sizes).
Proof. apply (bool_decide_unpack (NoDup (map snd sizes))). vm_compute. exact I. Qed.

Lemma sizes_positive (size : Z) (filename : string) :
  In (size, filename) sizes -> 1 <= size.
Proof.
  intros Hin. assert (Forall (fun sf => 1 <= fst sf) sizes) as Hall.
  { unfold sizes. repeat constructor; cbn; lia. }
  rewrite Forall_forall in Hall. apply list_elem_of_In in Hin. apply (Hall _ Hin).
Qed.

Lemma sizes_bounded (size : Z) (filename : string) :
  In (size, filename) sizes -> 1 <= size <= 1024.
Proof.
  intros Hin. assert (Forall (fun sf => 1 <= fst sf <= 1024) sizes) as Hall.
  { unfold sizes. repeat constructor; cbn; lia. }
  rewrite Forall_forall in Hall. apply list_elem_of_In in Hin. apply (Hall _ Hin).
Qed.

Lemma snoc_not_prefix (d : path) (c : string) : ~ (d ++ [c]) `prefix_of` d.
Proof.
  intros [k Hk]. apply (f_equal (@List.length string)) in Hk.
  rewrite !length_app in Hk. cbn in Hk. lia.
Qed.

Lemma sibling_not_prefix (d : path) (c c' : string) (l l' : path) :
  c <> c' -> ~ (d ++ c :: l) `prefix_of` (d ++ c' :: l').
Proof.
  intros Hne [k Hk]. rewrite <- app_assoc in Hk. apply app_inv_head in Hk.
  cbn in Hk. congruence.
Qed.

Lemma resources_dirname (script_dir : path) :
  Os.path_dirname (icns_path script_dir) = resources_path script_dir.
Proof.
  unfold icns_path, resources_path, Os.path_dirname.
  change ["Amirror.app"; "Contents"; "Resources"; "AppIcon.icns"]
    with (["Amirror.app"; "Contents"; "Resources"] ++ ["AppIcon.icns"]).
  rewrite app_assoc. apply removelast_last.
Qed.

Section IconsetFacts.
Context `{Pillow}.

(** Each variant can be derived from a 1024 by 1024 canvas when Pillow's
    limits allow it; the largest one is the canvas itself. *)
Lemma variant_resize_ok (canvas : Image) (size : Z) (filename : string) :
  width canvas = 1024 -> height canvas = 1024 -> variants_fit = true ->
  In (size, filename) sizes ->
  Image_resize canvas (size, size) = Ok (resampled canvas size size).
Proof.
  intros Hcw Hch Hvar Hin.
  pose proof (sizes_bounded size filename Hin) as Hb.
  unfold variants_fit in Hvar. rewrite forallb_forall in Hvar.
  specialize (Hvar (size, filename) Hin). cbn beta iota in Hvar.
  apply orb_prop in Hvar as [E|Hcan].
  - apply Z.eqb_eq in E. subst size.
    destruct (Image_resize_same canvas 1024 1024) as [Er Es]; [congruence|congruence|].
    rewrite Er, Es. reflexivity.
  - apply Image_resize_ok; [cbn; lia|cbn; lia|]. rewrite Hcw, Hch. exact Hcan.
Qed.

(** With nothing in the way and within Pillow's limits, [generate_iconset]
    creates the staging directory, builds the canvas once and stages the
    ten variants. *)
Lemma generate_iconset_ok (src out : path) (fs : FS) (b : bytes) (im : Image) :
  fs !! src = Some (File b) -> decode b = Some im ->
  0 < width im < 2 ^ 31 -> 0 < height im < 2 ^ 31 ->
  resize_fits (width im) (height im) 1024 = true -> variants_fit = true ->
  no_file_on (out ++ ["AppIcon.iconset"]) fs = true ->
  variants_free (out ++ ["AppIcon.iconset"]) fs = true ->
  exists fs1 canvas,
    Os.makedirs (out ++ ["AppIcon.iconset"]) fs = (Ok tt, fs1) /\
    create_square_icon src out 1024 fs1 = (Ok canvas, fs1) /\
    width canvas = 1024 /\ height canvas = 1024 /\ mode canvas = "RGBA" /\
    generate_iconset src out fs =
      (Ok (out ++ ["AppIcon.iconset"]),
       staged (out ++ ["AppIcon.iconset"]) canvas sizes fs1).
Proof.
  intros Esrc Edec Hw Hh Hfit Hvar Hno Hfree.
  set (dir := out ++ ["AppIcon.iconset"]) in *.
  destruct (makedirs_ok dir fs Hno) as (fs1 & Emk & Hsub & Hdir & Hframe & _).
  assert (fs1 !! src = Some (File b)) as Esrc1 by (apply (lookup_weaken _ _ _ _ Esrc Hsub)).
  destruct (create_square_icon_ok src out fs1 b im Esrc1 Edec Hw Hh Hfit)
    as (nw & nh & canvas & _ & _ & _ & _ & Ecanvas & Hcw & Hch & Hcm).
  exists fs1, canvas. repeat (split; [assumption|]).
  unfold generate_iconset, Os.path_join. fold dir.
  unfold bind at 1. rewrite Emk. unfold bind at 1. rewrite Ecanvas.
  unfold bind at 1. rewrite (for_each_save_ok dir canvas sizes fs1).
  - reflexivity.
  - apply Hdir. unfold dir. destruct out; discriminate.
  - intros size filename Hin.
    split; [apply (variant_resize_ok canvas size filename Hcw Hch Hvar Hin)|].
    unfold is_dir. rewrite Hframe by apply snoc_not_prefix.
    unfold variants_free in Hfree. rewrite forallb_forall in Hfree.
    specialize (Hfree (size, filename) Hin). cbn in Hfree.
    apply negb_true_iff in Hfree. exact Hfree.
Qed.

(** A completed [generate_iconset] has done exactly that. *)
Lemma generate_iconset_inv (src out d : path) (fs fs' : FS) :
  generate_iconset src out fs = (Ok d, fs') ->
  exists fs1 canvas,
    Os.makedirs (out ++ ["AppIcon.iconset"]) fs = (Ok tt, fs1) /\
    create_square_icon src out 1024 fs1 = (Ok canvas, fs1) /\
    d = out ++ ["AppIcon.iconset"] /\
    fs' = staged d canvas sizes fs1.
Proof.
  unfold generate_iconset, Os.path_join. unfold bind at 1.
  destruct (Os.makedirs _ fs) as [[[]|e] fs1] eqn:Emk; [|discriminate].
  unfold bind at 1.
  pose proof (create_square_icon_fs src out 1024 fs1) as Hfs.
  destruct (create_square_icon src out 1024 fs1) as [[canvas|e] fs1'] eqn:Ecanvas;
    [|discriminate].
  cbn [snd] in Hfs. subst fs1'. unfold bind at 1.
  destruct (for_each sizes _ fs1) as [[[]|e] fs2] eqn:Eloop; [|discriminate].
  apply for_each_save_inv in Eloop. unfold ret. intros [= <- <-].
  exists fs1, canvas. repeat split; assumption.
Qed.

End IconsetFacts.

(* ===================================================================== *)
(** ** The resized dimensions (lines 27-32)                               *)
(* ===================================================================== *)

Lemma scaled_inv (S m M n : Z) :
  scaled S m M = Ok n ->
  exists scale f,
    PyFloat.truediv S m = Ok scale /\ PyFloat.mul_int M scale = Ok f /\
    PyFloat.to_int f = Ok n.
Proof.
  unfold scaled. destruct (PyFloat.truediv S m) as [scale|] eqn:Es; [|discriminate].
  cbn [result_bind]. destruct (PyFloat.mul_int M scale) as [f|] eqn:Ef; [|discriminate].
  cbn [result_bind]. intros E. exists scale, f. repeat split; assumption.
Qed.

(** C1, as stated, fails.  For a 500 by 300 source the code resizes to
    1706 by 1024 where [round(source_width*scale)] is 1707: the products are
    truncated, not rounded.  For a 49 by 49 source the product
    [49 * (1024 / 49)] is the double just below 1024, and both resized
    dimensions are 1023: the smaller one is not the edge length. *)
Lemma C1_counterexample :
  resized_dims 500 300 1024 = Ok (1706, 1024) /\
  spec_resized_dims 500 300 1024 = Ok (1707, 1024) /\
  resized_dims 49 49 1024 = Ok (1023, 1023) /\
  spec_resized_dims 49 49 1024 = Ok (1024, 1024) /\
  Z.min 1023 1023 <> 1024.
Proof. repeat split; try (vm_compute; reflexivity). discriminate. Qed.

(** C1, amended.  For every source of positive width and height below
    [2^31] and every edge length below [2^31], with
    [scale = size / min(width, height)] computed in binary64, the resized
    dimensions are [int(width*scale)] by [int(height*scale)]: the binary64
    products truncated toward zero.  The smaller of the two is the one of
    the smaller source side, it is at most the edge length, and the other
    one is at least as large. *)
Theorem C1_resized_dims_truncated (w h size : Z) :
  0 < w < 2 ^ 31 -> 0 < h < 2 ^ 31 -> 0 < size < 2 ^ 31 ->
  exists scale fw fh nw nh,
    PyFloat.truediv size (Z.min w h) = Ok scale /\
    PyFloat.mul_int w scale = Ok fw /\ PyFloat.to_int fw = Ok nw /\
    PyFloat.mul_int h scale = Ok fh /\ PyFloat.to_int fh = Ok nh /\
    resized_dims w h size = Ok (nw, nh) /\
    Z.min nw nh <= size /\
    (w <= h -> nw <= nh) /\ (h <= w -> nh <= nw).
Proof.
  intros Hw Hh Hs.
  destruct (resized_dims_ok w h size Hw Hh Hs)
    as (nw & nh & Edims & Ew & Eh & _ & _ & Hwh & Hhw).
  destruct (scaled_inv _ _ _ _ Ew) as (scale & fw & Escale & Efw & Enw).
  destruct (scaled_inv _ _ _ _ Eh) as (scale' & fh & Escale' & Efh & Enh).
  assert (scale' = scale) as -> by congruence.
  exists scale, fw, fh, nw, nh. repeat (split; [assumption|]).
  split; [|split; intros Hle; [apply Hwh|apply Hhw]; exact Hle].
  destruct (Z.le_ge_cases w h) as [Hle|Hle]; [apply Hwh in Hle|apply Hhw in Hle]; lia.
Qed.

Lemma C1_resized_dims_truncated_witness :
  exists scale fw fh nw nh,
    PyFloat.truediv 1024 (Z.min 3000 1000) = Ok scale /\
    PyFloat.mul_int 3000 scale = Ok fw /\ PyFloat.to_int fw = Ok nw /\
    PyFloat.mul_int 1000 scale = Ok fh /\ PyFloat.to_int fh = Ok nh /\
    resized_dims 3000 1000 1024 = Ok (nw, nh) /\
    Z.min nw nh <= 1024 /\
    (3000 <= 1000 -> nw <= nh) /\ (1000 <= 3000 -> nh <= nw).
Proof. apply (C1_resized_dims_truncated 3000 1000 1024); cbn; lia. Defined.

(* ===================================================================== *)
(** ** The center crop (lines 34-40)                                      *)
(* ===================================================================== *)

(** C2 fails on the code.  A 49 by 49 source is resized to 1023 by 1023;
    the crop box is then [(-1, -1, 1023, 1023)], which starts one pixel
    outside the resized image: nothing clamps it.  The canvas gets a
    transparent first row and first column although the source is fully
    opaque, against the docstring of [create_square_icon] (the image is
    scaled to fill the entire square). *)
Lemma C2_crop_box_outside_image :
  resized_dims 49 49 1024 = Ok (1023, 1023) /\
  crop_box 1023 1023 1024 = (-1, -1, 1023, 1023) /\
  match @create_square_icon (demo_pillow (Some (solid "RGBA" 49 49 opaque_white)))
          (source_icon ["app"]) ["app"] 1024 demo_fs with
  | (Ok canvas, _) =>
      px canvas 0 0 = transparent /\ px canvas 5 0 = transparent /\
      px canvas 0 5 = transparent /\ px canvas 1 1 = opaque_white
  | (Raise _, _) => False
  end.
Proof. vm_compute. repeat split. Qed.

(* ===================================================================== *)
(** ** Decode failure (lines 47-51 and 16)                                *)
(* ===================================================================== *)

(** C3, as stated, fails.  [generate_iconset] calls [os.makedirs] before it
    opens the source: with an undecodable [icon/app_icon.png] the run ends
    with status 1 and the staging directory, absent before, is there. *)
Lemma C3_counterexample :
  is_dir demo_fs (iconset_path ["app"]) = false /\
  fst (@run (demo_pillow None) (demo_platform SpawnFailed) ["app"] demo_fs) = 1 /\
  is_dir (snd (@run (demo_pillow None) (demo_platform SpawnFailed) ["app"] demo_fs))
    (iconset_path ["app"]) = true.
Proof. vm_compute. repeat split. Qed.

(** C3, amended.  When the source file exists but cannot be decoded, the
    run aborts with exit status 1 right after the staging directory has been
    created: the file system it leaves is the one [os.makedirs] produced,
    with the staging directory in it, no variant written and the compiler
    never run. *)
Theorem C3_decode_failure_after_makedirs `{Pillow} `{Platform}
    (script_dir : path) (fs : FS) (b : bytes) :
  fs !! source_icon script_dir = Some (File b) ->
  decode b = None ->
  no_file_on (iconset_path script_dir) fs = true ->
  exists fs1,
    Os.makedirs (iconset_path script_dir) fs = (Ok tt, fs1) /\
    run script_dir fs = (1, fs1) /\
    fs1 !! iconset_path script_dir = Some Dir /\
    (forall q, ~ q `prefix_of` iconset_path script_dir -> fs1 !! q = fs !! q).
Proof.
  intros Esrc Edec Hno.
  destruct (makedirs_ok _ fs Hno) as (fs1 & Emk & Hsub & Hdir & Hframe & _).
  exists fs1. split; [exact Emk|]. split; [|split; [|exact Hframe]].
  - unfold run, main, Os.path_exists, Os.path_join. fold (source_icon script_dir).
    unfold bind at 1. rewrite Esrc.
    rewrite bool_decide_eq_true_2 by (eexists; reflexivity). cbn [negb].
    unfold bind at 1. unfold generate_iconset, Os.path_join.
    fold (iconset_path script_dir). unfold bind at 1. rewrite Emk.
    unfold bind at 1. unfold create_square_icon, Image_open, Os.read_file.
    unfold bind at 1. unfold bind at 1.
    rewrite (lookup_weaken _ _ _ _ Esrc Hsub), Edec. reflexivity.
  - apply Hdir. unfold iconset_path. destruct script_dir; discriminate.
Qed.

Lemma C3_decode_failure_after_makedirs_witness :
  exists fs1,
    Os.makedirs (iconset_path ["app"]) demo_fs = (Ok tt, fs1) /\
    @run (demo_pillow None) (demo_platform (Completed 0 None)) ["app"] demo_fs = (1, fs1) /\
    fs1 !! iconset_path ["app"] = Some Dir /\
    (forall q, ~ q `prefix_of` iconset_path ["app"] -> fs1 !! q = demo_fs !! q).
Proof.
  apply (@C3_decode_failure_after_makedirs (demo_pillow None)
           (demo_platform (Completed 0 None)) ["app"] demo_fs
           [Byte.x89; Byte.x50; Byte.x4e; Byte.x47]);
    vm_compute; reflexivity.
Defined.

(* ===================================================================== *)
(** ** The canvas (lines 12-42)                                           *)
(* ===================================================================== *)

(** C4.  For every decodable source of positive width and height, every
    canvas that [create_square_icon] returns is 1024 by 1024 and in RGBA
    mode; and it returns one whenever Pillow can carry out the resize of
    line 32.  (For a source such as 1 by 2097152 the resized height is
    [2^31], [resize] raises [OverflowError] and no canvas is returned.) *)
Theorem C4_canvas_square_rgba `{Pillow}
    (source_path output_dir : path) (fs : FS) (b : bytes) (im : Image) :
  fs !! source_path = Some (File b) -> decode b = Some im ->
  0 < width im < 2 ^ 31 -> 0 < height im < 2 ^ 31 ->
  (forall canvas fs',
     create_square_icon source_path output_dir 1024 fs = (Ok canvas, fs') ->
     width canvas = 1024 /\ height canvas = 1024 /\ mode canvas = "RGBA") /\
  (resize_fits (width im) (height im) 1024 = true ->
   exists canvas,
     create_square_icon source_path output_dir 1024 fs = (Ok canvas, fs) /\
     width canvas = 1024 /\ height canvas = 1024 /\ mode canvas = "RGBA").
Proof.
  intros Esrc Edec Hw Hh. split.
  - intros canvas fs' Erun.
    apply create_square_icon_inv in Erun
      as (b' & im' & nw & nh & _ & _ & _ & _ & Ecrop & _).
    apply Image_crop_size in Ecrop as (Hcw & Hch & Hcm).
    split; [exact Hcw|]. split; [exact Hch|]. rewrite Hcm.
    destruct (resampled_size (convert_if_needed im') nw nh) as (_ & _ & ->).
    apply convert_if_needed_rgba.
  - intros Hfit.
    destruct (create_square_icon_ok source_path output_dir fs b im Esrc Edec Hw Hh Hfit)
      as (nw & nh & canvas & _ & _ & _ & _ & Erun & Hcw & Hch & Hcm).
    exists canvas. auto.
Qed.

Lemma C4_canvas_square_rgba_witness :
  exists canvas,
    @create_square_icon (demo_pillow (Some (solid "RGB" 500 300 opaque_white)))
      (source_icon ["app"]) ["app"] 1024 demo_fs = (Ok canvas, demo_fs) /\
    width canvas = 1024 /\ height canvas = 1024 /\ mode canvas = "RGBA".
Proof.
  apply (@C4_canvas_square_rgba (demo_pillow (Some (solid "RGB" 500 300 opaque_white)))
           (source_icon ["app"]) ["app"] demo_fs
           [Byte.x89; Byte.x50; Byte.x4e; Byte.x47] (solid "RGB" 500 300 opaque_white));
    [vm_compute; reflexivity | reflexivity | cbn; lia | cbn; lia | vm_compute; reflexivity].
Defined.

(** C5.  For a source that is already 1024 by 1024 the canvas is the source
    converted to RGBA, pixel for pixel: the scale is 1, Pillow's [resize]
    returns the image unchanged and the crop box is the whole image. *)
Theorem C5_identity_canvas `{Pillow}
    (source_path output_dir : path) (fs : FS) (b : bytes) (im : Image) :
  fs !! source_path = Some (File b) -> decode b = Some im ->
  width im = 1024 -> height im = 1024 ->
  exists canvas,
    create_square_icon source_path output_dir 1024 fs = (Ok canvas, fs) /\
    mode canvas = "RGBA" /\ width canvas = 1024 /\ height canvas = 1024 /\
    forall x y, 0 <= x < 1024 -> 0 <= y < 1024 ->
      px canvas x y = px (convert_if_needed im) x y.
Proof.
  intros Esrc Edec Hw Hh.
  destruct (create_square_icon_ok source_path output_dir fs b im Esrc Edec)
    as (nw & nh & canvas & Edims & _ & _ & Ecrop & Erun & Hcw & Hch & Hcm);
    [rewrite Hw; cbn; lia | rewrite Hh; cbn; lia
    | rewrite Hw, Hh; vm_compute; reflexivity |].
  exists canvas. repeat (split; [assumption|]).
  rewrite Hw, Hh in Edims.
  assert (resized_dims 1024 1024 1024 = Ok (1024, 1024)) as E1024
    by (vm_compute; reflexivity).
  rewrite E1024 in Edims. injection Edims as <- <-.
  destruct (convert_if_needed_rgba im) as (_ & Hcvw & Hcvh).
  assert (resampled (convert_if_needed im) 1024 1024 = convert_if_needed im) as Esame.
  { rewrite <- Hw at 1. rewrite <- Hh at 1. rewrite <- Hcvw at 1. rewrite <- Hcvh.
    apply resampled_same. }
  rewrite Esame in Ecrop.
  destruct (Image_crop_box (convert_if_needed im) 1024 1024 ltac:(cbn; lia) ltac:(cbn; lia))
    as (canvas' & Ecrop' & _ & _ & _ & Hpx).
  assert (canvas' = canvas) as -> by congruence.
  intros x y Hx Hy. rewrite Hpx. cbv zeta.
  change ((1024 - 1024) / 2) with 0. rewrite !Z.add_0_r, Hcvw, Hcvh, Hw, Hh.
  replace (0 <=? x) with true by (symmetry; apply Z.leb_le; lia).
  replace (x <? 1024) with true by (symmetry; apply Z.ltb_lt; lia).
  replace (0 <=? y) with true by (symmetry; apply Z.leb_le; lia).
  replace (y <? 1024) with true by (symmetry; apply Z.ltb_lt; lia).
  reflexivity.
Qed.

Lemma C5_identity_canvas_witness :
  exists canvas,
    @create_square_icon (demo_pillow (Some (solid "RGB" 1024 1024 opaque_white)))
      (source_icon ["app"]) ["app"] 1024 demo_fs = (Ok canvas, demo_fs) /\
    mode canvas = "RGBA" /\ width canvas = 1024 /\ height canvas = 1024 /\
    forall x y, 0 <= x < 1024 -> 0 <= y < 1024 ->
      px canvas x y =
      px (@convert_if_needed (demo_pillow (Some (solid "RGB" 1024 1024 opaque_white)))
            (solid "RGB" 1024 1024 opaque_white)) x y.
Proof.
  apply (@C5_identity_canvas (demo_pillow (Some (solid "RGB" 1024 1024 opaque_white)))
           (source_icon ["app"]) ["app"] demo_fs
           [Byte.x89; Byte.x50; Byte.x4e; Byte.x47]
           (solid "RGB" 1024 1024 opaque_white));
    [vm_compute; reflexivity | reflexivity | reflexivity | reflexivity].
Defined.

(* ===================================================================== *)
(** ** The ten variants (lines 51-71)                                     *)
(* ===================================================================== *)

(** C6, as stated, fails.  A 1 by 2097152 source is decodable, but its
    resized size is 1024 by [2^31]: the height does not fit the C int that
    Pillow's [resize] takes, the call raises [OverflowError], and
    [generate_iconset] ends there without having written a single variant. *)
Lemma C6_counterexample :
  resized_dims 1 2097152 1024 = Ok (1024, 2 ^ 31) /\
  fst (@generate_iconset (demo_pillow (Some (solid "RGBA" 1 2097152 opaque_white)))
         (source_icon ["app"]) ["app"] demo_fs) = Raise OverflowError /\
  forallb (fun '(_, filename) =>
             negb (is_file
                     (snd (@generate_iconset
                             (demo_pillow (Some (solid "RGBA" 1 2097152 opaque_white)))
                             (source_icon ["app"]) ["app"] demo_fs))
                     ["app"; "AppIcon.iconset"; filename]))
          mandated_table = true.
Proof. vm_compute. repeat split. Qed.

(** C6, amended.  For every decodable source of positive size that Pillow
    can resize (the resized size is the current one, or both resized sides
    fit a C int and the resampler accepts them), with the variants within
    the resampler's limits and nothing in the way of the staging directory
    and of the variant files, [generate_iconset] succeeds and leaves, for
    each row of the mandated table, a file of that name holding the PNG
    encoding of the canvas resized to that size, square; the table has ten
    rows with distinct names, and no other path of the file system is
    changed by the loop. *)
Theorem C6_ten_variants_written `{Pillow}
    (source_path output_dir : path) (fs : FS) (b : bytes) (im : Image) :
  fs !! source_path = Some (File b) -> decode b = Some im ->
  0 < width im < 2 ^ 31 -> 0 < height im < 2 ^ 31 ->
  resize_fits (width im) (height im) 1024 = true -> variants_fit = true ->
  no_file_on (output_dir ++ ["AppIcon.iconset"]) fs = true ->
  variants_free (output_dir ++ ["AppIcon.iconset"]) fs = true ->
  exists fs1 canvas fs',
    Os.makedirs (output_dir ++ ["AppIcon.iconset"]) fs = (Ok tt, fs1) /\
    create_square_icon source_path output_dir 1024 fs1 = (Ok canvas, fs1) /\
    generate_iconset source_path output_dir fs = (Ok (output_dir ++ ["AppIcon.iconset"]), fs') /\
    Forall (fun '(size, filename) =>
              exists v, Image_resize canvas (size, size) = Ok v /\
                width v = size /\ height v = size /\
                fs' !! (output_dir ++ ["AppIcon.iconset"] ++ [filename])
                  = Some (File (encode_png v)))
           mandated_table /\
    length mandated_table = 10%nat /\
    NoDup (map snd mandated_table) /\
    (forall p,
       (forall size filename, In (size, filename) mandated_table ->
          p <> output_dir ++ ["AppIcon.iconset"] ++ [filename]) ->
       fs' !! p = fs1 !! p).
Proof.
  intros Esrc Edec Hw Hh Hfit Hvar Hno Hfree.
  destruct (generate_iconset_ok source_path output_dir fs b im Esrc Edec Hw Hh
              Hfit Hvar Hno Hfree)
    as (fs1 & canvas & Emk & Ecanvas & Hcw & Hch & _ & Egen).
  exists fs1, canvas, (staged (output_dir ++ ["AppIcon.iconset"]) canvas sizes fs1).
  repeat (split; [assumption|]).
  change mandated_table with sizes.
  split; [|split; [reflexivity|split; [exact sizes_NoDup|]]].
  - apply Forall_forall. intros [size filename] Hin. apply list_elem_of_In in Hin.
    exists (resampled canvas size size).
    destruct (resampled_size canvas size size) as (Hrw & Hrh & _).
    split; [apply (variant_resize_ok canvas size filename Hcw Hch Hvar Hin)|].
    split; [exact Hrw|]. split; [exact Hrh|].
    rewrite app_assoc. apply staged_lookup_in; [exact sizes_NoDup|exact Hin].
  - intros p Hp. apply staged_lookup_other. intros size filename Hin.
    rewrite <- app_assoc. apply (Hp size filename Hin).
Qed.

Lemma C6_ten_variants_written_witness :
  exists fs',
    @generate_iconset (demo_pillow (Some (solid "RGB" 500 300 opaque_white)))
      (source_icon ["app"]) ["app"] demo_fs = (Ok ["app"; "AppIcon.iconset"], fs') /\
    is_file fs' ["app"; "AppIcon.iconset"; "icon_16x16.png"] = true /\
    is_file fs' ["app"; "AppIcon.iconset"; "icon_512x512@2x.png"] = true.
Proof.
  destruct (@C6_ten_variants_written (demo_pillow (Some (solid "RGB" 500 300 opaque_white)))
              (source_icon ["app"]) ["app"] demo_fs
              [Byte.x89; Byte.x50; Byte.x4e; Byte.x47]
              (solid "RGB" 500 300 opaque_white))
    as (fs1 & canvas & fs' & _ & _ & Egen & Hall & _);
    [vm_compute; reflexivity | reflexivity | cbn; lia | cbn; lia
    | vm_compute; reflexivity | vm_compute; reflexivity
    | vm_compute; reflexivity | vm_compute; reflexivity |].
  exists fs'. split; [exact Egen|].
  rewrite Forall_forall in Hall. split.
  - destruct (Hall (16, "icon_16x16.png")) as (v & _ & _ & _ & Ev);
      [apply list_elem_of_In; cbn; tauto|].
    unfold is_file. cbn [app] in Ev. rewrite Ev. reflexivity.
  - destruct (Hall (1024, "icon_512x512@2x.png")) as (v & _ & _ & _ & Ev);
      [apply list_elem_of_In; cbn; tauto|].
    unfold is_file. cbn [app] in Ev. rewrite Ev. reflexivity.
Defined.

(** C7.  Within one run the variants of equal pixel size hold the same
    bytes: the two 32-pixel files, the two 256-pixel files and the two
    512-pixel files.  The run builds one canvas, by the single call of
    [create_square_icon] after the staging directory is made; each file of a
    pair holds the PNG encoding of that canvas resized to the size of the
    pair. *)
Theorem C7_equal_sizes_equal_bytes `{Pillow}
    (source_path output_dir : path) (fs : FS) (b : bytes) (im : Image) :
  fs !! source_path = Some (File b) -> decode b = Some im ->
  0 < width im < 2 ^ 31 -> 0 < height im < 2 ^ 31 ->
  resize_fits (width im) (height im) 1024 = true -> variants_fit = true ->
  no_file_on (output_dir ++ ["AppIcon.iconset"]) fs = true ->
  variants_free (output_dir ++ ["AppIcon.iconset"]) fs = true ->
  exists fs1 canvas v32 v256 v512 fs',
    Os.makedirs (output_dir ++ ["AppIcon.iconset"]) fs = (Ok tt, fs1) /\
    create_square_icon source_path output_dir 1024 fs1 = (Ok canvas, fs1) /\
    Image_resize canvas (32, 32) = Ok v32 /\
    Image_resize canvas (256, 256) = Ok v256 /\
    Image_resize canvas (512, 512) = Ok v512 /\
    generate_iconset source_path output_dir fs = (Ok (output_dir ++ ["AppIcon.iconset"]), fs') /\
    fs' !! (output_dir ++ ["AppIcon.iconset"; "icon_16x16@2x.png"])
      = Some (File (encode_png v32)) /\
    fs' !! (output_dir ++ ["AppIcon.iconset"; "icon_32x32.png"])
      = Some (File (encode_png v32)) /\
    fs' !! (output_dir ++ ["AppIcon.iconset"; "icon_128x128@2x.png"])
      = Some (File (encode_png v256)) /\
    fs' !! (output_dir ++ ["AppIcon.iconset"; "icon_256x256.png"])
      = Some (File (encode_png v256)) /\
    fs' !! (output_dir ++ ["AppIcon.iconset"; "icon_256x256@2x.png"])
      = Some (File (encode_png v512)) /\
    fs' !! (output_dir ++ ["AppIcon.iconset"; "icon_512x512.png"])
      = Some (File (encode_png v512)).
Proof.
  intros Esrc Edec Hw Hh Hfit Hvar Hno Hfree.
  destruct (generate_iconset_ok source_path output_dir fs b im Esrc Edec Hw Hh
              Hfit Hvar Hno Hfree)
    as (fs1 & canvas & Emk & Ecanvas & Hcw & Hch & _ & Egen).
  exists fs1, canvas, (resampled canvas 32 32), (resampled canvas 256 256),
    (resampled canvas 512 512),
    (staged (output_dir ++ ["AppIcon.iconset"]) canvas sizes fs1).
  split; [exact Emk|]. split; [exact Ecanvas|].
  split; [apply (variant_resize_ok canvas 32 "icon_32x32.png" Hcw Hch Hvar); cbn; tauto|].
  split; [apply (variant_resize_ok canvas 256 "icon_256x256.png" Hcw Hch Hvar); cbn; tauto|].
  split; [apply (variant_resize_ok canvas 512 "icon_512x512.png" Hcw Hch Hvar); cbn; tauto|].
  split; [exact Egen|].
  assert (forall size filename, In (size, filename) sizes ->
            staged (output_dir ++ ["AppIcon.iconset"]) canvas sizes fs1
              !! (output_dir ++ ["AppIcon.iconset"; filename])
            = Some (File (encode_png (resampled canvas size size)))) as Hlook.
  { intros size filename Hin.
    change ["AppIcon.iconset"; filename] with (["AppIcon.iconset"] ++ [filename]).
    rewrite app_assoc. apply staged_lookup_in; [exact sizes_NoDup|exact Hin]. }
  repeat split; apply Hlook; cbn; tauto.
Qed.

Lemma C7_equal_sizes_equal_bytes_witness :
  exists fs' d32 d256 d512,
    @generate_iconset (demo_pillow (Some (solid "RGB" 500 300 opaque_white)))
      (source_icon ["app"]) ["app"] demo_fs = (Ok (["app"] ++ ["AppIcon.iconset"]), fs') /\
    fs' !! (["app"] ++ ["AppIcon.iconset"; "icon_16x16@2x.png"]) = Some (File d32) /\
    fs' !! (["app"] ++ ["AppIcon.iconset"; "icon_32x32.png"]) = Some (File d32) /\
    fs' !! (["app"] ++ ["AppIcon.iconset"; "icon_128x128@2x.png"]) = Some (File d256) /\
    fs' !! (["app"] ++ ["AppIcon.iconset"; "icon_256x256.png"]) = Some (File d256) /\
    fs' !! (["app"] ++ ["AppIcon.iconset"; "icon_256x256@2x.png"]) = Some (File d512) /\
    fs' !! (["app"] ++ ["AppIcon.iconset"; "icon_512x512.png"]) = Some (File d512).
Proof.
  destruct (@C7_equal_sizes_equal_bytes
              (demo_pillow (Some (solid "RGB" 500 300 opaque_white)))
              (source_icon ["app"]) ["app"] demo_fs
              [Byte.x89; Byte.x50; Byte.x4e; Byte.x47]
              (solid "RGB" 500 300 opaque_white))
    as (fs1 & canvas & v32 & v256 & v512 & fs' & _ & _ & _ & _ & _ & Egen & Hfiles);
    [vm_compute; reflexivity | reflexivity | cbn; lia | cbn; lia
    | vm_compute; reflexivity | vm_compute; reflexivity
    | vm_compute; reflexivity | vm_compute; reflexivity |].
  exists fs'. eexists _, _, _. split; [exact Egen|exact Hfiles].
Defined.

(* ===================================================================== *)
(** ** Compilation and clean-up (lines 75-91 and 110-117)                 *)
(* ===================================================================== *)

Lemma makedirs_from_sound todo : forall done (fs fs' : FS),
  Os.makedirs_from done todo fs = (Ok tt, fs') ->
  no_file_from done todo fs = true.
Proof.
  induction todo as [|c todo IH]; intros done fs fs' Hrun; [reflexivity|].
  cbn [Os.makedirs_from no_file_from] in *.
  assert (is_file fs (done ++ [c]) = false) as Hc.
  { unfold is_file. destruct (fs !! (done ++ [c])) as [[|b]|]; try reflexivity.
    discriminate. }
  rewrite Hc. cbn [negb andb].
  assert (Os.makedirs_from (done ++ [c]) todo (<[done ++ [c] := Dir]> fs) = (Ok tt, fs'))
    as Hrun'.
  { unfold is_file in Hc. destruct (fs !! (done ++ [c])) as [[|b]|];
      try discriminate; exact Hrun. }
  apply IH in Hrun'. rewrite <- Hrun'. symmetry. apply no_file_from_ext.
  intros q _. rewrite is_file_insert_dir.
  destruct (decide _) as [<-|]; [symmetry; exact Hc|reflexivity].
Qed.

Lemma iconset_not_on_resources (script_dir q : path) :
  iconset_path script_dir `prefix_of` q -> ~ q `prefix_of` resources_path script_dir.
Proof.
  intros Hpre Hq. assert (iconset_path script_dir `prefix_of` resources_path script_dir)
    as Hbad by (etransitivity; eassumption).
  revert Hbad. unfold iconset_path, resources_path.
  apply sibling_not_prefix. discriminate.
Qed.

Lemma iconset_not_on_icns (script_dir q : path) :
  iconset_path script_dir `prefix_of` q -> icns_path script_dir <> q.
Proof.
  intros Hpre <-. revert Hpre. unfold iconset_path, icns_path.
  apply sibling_not_prefix. discriminate.
Qed.

(** C8.  With the ten variants staged and the resources directory made
    (which leaves the staging directory as [generate_iconset] left it),
    [main] runs the compiler.  When [iconutil] exits with a nonzero status,
    or [subprocess.run] raises (the command cannot be started, or what it
    printed cannot be decoded), the run ends with exit status 1 and
    everything at or below the staging directory is as it was when the
    compiler was started: the directory and the ten variants are kept.
    When [iconutil] exits with status 0 the run ends with status 0 and
    nothing is left at or below the staging directory. *)
Theorem C8_staging_kept_unless_compiled `{Pillow} `{Platform}
    (script_dir : path) (fs : FS) (b : bytes) (im : Image) :
  fs !! source_icon script_dir = Some (File b) -> decode b = Some im ->
  0 < width im < 2 ^ 31 -> 0 < height im < 2 ^ 31 ->
  resize_fits (width im) (height im) 1024 = true -> variants_fit = true ->
  no_file_on (iconset_path script_dir) fs = true ->
  variants_free (iconset_path script_dir) fs = true ->
  no_file_on (resources_path script_dir) fs = true ->
  exists fs1 fs2 code fs',
    generate_iconset (source_icon script_dir) script_dir fs
      = (Ok (iconset_path script_dir), fs1) /\
    Os.makedirs (resources_path script_dir) fs1 = (Ok tt, fs2) /\
    fs2 !! iconset_path script_dir = Some Dir /\
    (forall size filename, In (size, filename) sizes ->
       is_file fs2 (iconset_path script_dir ++ [filename]) = true) /\
    (forall q, iconset_path script_dir `prefix_of` q -> fs2 !! q = fs1 !! q) /\
    run script_dir fs = (code, fs') /\
    match iconutil fs2 (iconset_path script_dir) (icns_path script_dir) with
    | Completed returncode _ =>
        if returncode =? 0
        then code = 0 /\
             forall q, iconset_path script_dir `prefix_of` q -> fs' !! q = None
        else code = 1 /\
             forall q, iconset_path script_dir `prefix_of` q -> fs' !! q = fs2 !! q
    | Undecodable _ | SpawnFailed =>
        code = 1 /\
        forall q, iconset_path script_dir `prefix_of` q -> fs' !! q = fs2 !! q
    end.
Proof.
  intros Esrc Edec Hw Hh Hfit Hvar Hno Hfree Hnores.
  set (dir := iconset_path script_dir) in *.
  destruct (generate_iconset_ok (source_icon script_dir) script_dir fs b im
              Esrc Edec Hw Hh Hfit Hvar Hno Hfree)
    as (fs1 & canvas & Emk & _ & _ & _ & _ & Egen).
  fold (iconset_path script_dir) in Emk, Egen. fold dir in Emk, Egen.
  destruct (makedirs_ok dir fs Hno) as (fs1' & Emk' & _ & Hdir & _ & Hfile1).
  assert (fs1' = fs1) as -> by congruence.
  set (fsS := staged dir canvas sizes fs1) in *.
  assert (forall size filename, In (size, filename) sizes ->
            forall q, q `prefix_of` resources_path script_dir -> q <> dir ++ [filename])
    as Hapart.
  { intros size filename _ q Hq ->. revert Hq. unfold dir, iconset_path, resources_path.
    rewrite <- app_assoc. apply sibling_not_prefix. discriminate. }
  assert (no_file_on (resources_path script_dir) fsS = true) as HnoS.
  { unfold no_file_on. rewrite <- Hnores. apply no_file_from_ext. intros q Hq.
    unfold fsS. rewrite staged_is_file; [apply Hfile1|].
    intros size filename Hin. apply (Hapart size filename Hin q Hq). }
  destruct (makedirs_ok _ fsS HnoS) as (fs2 & Emk2 & _ & _ & Hframe2 & _).
  assert (forall q, dir `prefix_of` q -> fs2 !! q = fsS !! q) as Hkeep.
  { intros q Hq. apply Hframe2. apply iconset_not_on_resources. exact Hq. }
  assert (fs2 !! dir = Some Dir) as Hdir2.
  { rewrite Hkeep by reflexivity. unfold fsS. rewrite staged_lookup_other.
    - apply Hdir. unfold dir, iconset_path. destruct script_dir; discriminate.
    - intros size filename _ E. symmetry in E. revert E. apply snoc_ne_self. }
  assert (forall size filename, In (size, filename) sizes ->
            is_file fs2 (dir ++ [filename]) = true) as Hvariants.
  { intros size filename Hin. unfold is_file.
    rewrite Hkeep by (exists [filename]; reflexivity).
    unfold fsS. rewrite (staged_lookup_in dir canvas sizes fs1 size filename sizes_NoDup Hin).
    reflexivity. }
  assert (main script_dir fs =
            (ok <- create_icns dir (icns_path script_dir) ;;
             if ok then Os.rmtree dir else raise (SystemExit 1)) fs2) as Emain.
  { unfold main, Os.path_exists, Os.path_join. fold (source_icon script_dir).
    fold (icns_path script_dir). rewrite resources_dirname.
    unfold bind at 1. rewrite Esrc.
    rewrite bool_decide_eq_true_2 by (eexists; reflexivity). cbn [negb].
    unfold bind at 1. rewrite Egen. fold fsS.
    unfold bind at 1. rewrite Emk2. reflexivity. }
  exists fsS, fs2.
  assert (forall out, <[icns_path script_dir := File out]> fs2 !! dir = Some Dir) as Hdir3.
  { intros out. rewrite lookup_insert_ne; [exact Hdir2|].
    apply iconset_not_on_icns. reflexivity. }
  assert (forall out q, dir `prefix_of` q ->
            <[icns_path script_dir := File out]> fs2 !! q = fs2 !! q) as Hkept3.
  { intros out q Hq. apply lookup_insert_ne. apply iconset_not_on_icns. exact Hq. }
  unfold run. rewrite Emain. clear Emain.
  unfold bind at 1. unfold create_icns, try_except, subprocess_run.
  unfold bind at 1.
  destruct (iconutil fs2 dir (icns_path script_dir)) as [rc [out|]|[out|]|].
  - (* the command ran and wrote its output file *)
    destruct (Z.eqb_spec rc 0) as [->|Hrc]; unfold ret.
    + destruct (rmtree_ok dir _ (Hdir3 out)) as (fs4 & Erm & Hgone & _). rewrite Erm.
      exists 0, fs4. repeat split; assumption.
    + unfold raise. eexists 1, _. repeat split; try assumption. apply Hkept3.
  - (* the command ran and wrote nothing *)
    destruct (Z.eqb_spec rc 0) as [->|Hrc]; unfold ret.
    + destruct (rmtree_ok dir _ Hdir2) as (fs4 & Erm & Hgone & _). rewrite Erm.
      exists 0, fs4. repeat split; assumption.
    + unfold raise. exists 1, fs2. repeat split; assumption.
  - (* what the command printed cannot be decoded; its output file is written *)
    unfold ret, raise. eexists 1, _. repeat split; try assumption. apply Hkept3.
  - (* what the command printed cannot be decoded; no output file *)
    unfold ret, raise. exists 1, fs2. repeat split; assumption.
  - (* the command could not be started *)
    unfold ret, raise. exists 1, fs2. repeat split; assumption.
Qed.

Lemma C8_staging_kept_unless_compiled_witness :
  fst (@run (demo_pillow (Some (solid "RGB" 500 300 opaque_white)))
         (demo_platform (Completed 1 None)) ["app"] demo_fs) = 1 /\
  is_file (snd (@run (demo_pillow (Some (solid "RGB" 500 300 opaque_white)))
                  (demo_platform (Completed 1 None)) ["app"] demo_fs))
    (iconset_path ["app"] ++ ["icon_16x16.png"]) = true.
Proof.
  destruct (@C8_staging_kept_unless_compiled
              (demo_pillow (Some (solid "RGB" 500 300 opaque_white)))
              (demo_platform (Completed 1 None)) ["app"] demo_fs
              [Byte.x89; Byte.x50; Byte.x4e; Byte.x47]
              (solid "RGB" 500 300 opaque_white))
    as (fs1 & fs2 & code & fs' & _ & _ & _ & Hvariants & _ & Erun & Hout);
    [vm_compute; reflexivity | reflexivity | cbn; lia | cbn; lia
    | vm_compute; reflexivity | vm_compute; reflexivity
    | vm_compute; reflexivity | vm_compute; reflexivity | vm_compute; reflexivity |].
  rewrite Erun. cbn [fst snd]. cbn [iconutil demo_platform Z.eqb] in Hout.
  destruct Hout as [-> Hkeep]. split; [reflexivity|].
  unfold is_file. rewrite Hkeep by (exists ["icon_16x16.png"]; reflexivity).
  apply (Hvariants 16 "icon_16x16.png"). cbn. tauto.
Defined.

(* ===================================================================== *)
(** ** Determinism and the unused parameter                               *)
(* ===================================================================== *)

(** C9.  The transform is a function of the bytes of the source file and
    of the edge length.  Two runs on file systems that hold the same bytes
    at their source paths build the same canvas (or fail alike), whatever
    else the file systems contain and wherever the output goes; when both
    iconset generations complete, each variant file holds the same bytes
    in both runs.  (Pillow's decoder, filter and encoder are functions in
    this model.) *)
Theorem C9_transform_deterministic `{Pillow}
    (srcA srcB outA outB : path) (fsA fsB : FS) (b : bytes) (size : Z) :
  fsA !! srcA = Some (File b) -> fsB !! srcB = Some (File b) ->
  fst (create_square_icon srcA outA size fsA) =
  fst (create_square_icon srcB outB size fsB) /\
  forall dA dB fsA' fsB',
    generate_iconset srcA outA fsA = (Ok dA, fsA') ->
    generate_iconset srcB outB fsB = (Ok dB, fsB') ->
    forall sz filename, In (sz, filename) sizes ->
      is_file fsA' (dA ++ [filename]) = true /\
      fsA' !! (dA ++ [filename]) = fsB' !! (dB ++ [filename]).
Proof.
  intros EA EB. split; [apply (create_square_icon_bytes _ _ _ _ _ _ _ b EA EB)|].
  intros dA dB fsA' fsB' HA HB sz filename Hin.
  apply generate_iconset_inv in HA as (fsA1 & cA & EmkA & EcA & -> & ->).
  apply generate_iconset_inv in HB as (fsB1 & cB & EmkB & EcB & -> & ->).
  destruct (makedirs_ok _ fsA (makedirs_from_sound _ _ _ _ EmkA)) as (fsA1' & EmkA' & HsubA & _).
  destruct (makedirs_ok _ fsB (makedirs_from_sound _ _ _ _ EmkB)) as (fsB1' & EmkB' & HsubB & _).
  assert (fsA1' = fsA1) as -> by congruence.
  assert (fsB1' = fsB1) as -> by congruence.
  pose proof (create_square_icon_bytes srcA srcB outA outB 1024 fsA1 fsB1 b
                (lookup_weaken _ _ _ _ EA HsubA) (lookup_weaken _ _ _ _ EB HsubB)) as Hc.
  rewrite EcA, EcB in Hc. cbn [fst] in Hc. injection Hc as <-.
  unfold is_file.
  rewrite !(staged_lookup_in _ cA sizes _ sz filename sizes_NoDup Hin).
  split; reflexivity.
Qed.

Lemma C9_transform_deterministic_witness :
  fst (@create_square_icon (demo_pillow (Some (solid "RGB" 500 300 opaque_white)))
         (source_icon ["app"]) ["app"] 1024 demo_fs) =
  fst (@create_square_icon (demo_pillow (Some (solid "RGB" 500 300 opaque_white)))
         ["copy.png"] ["elsewhere"] 1024
         {[ ["copy.png"] := File [Byte.x89; Byte.x50; Byte.x4e; Byte.x47] ]}) /\
  snd (@generate_iconset (demo_pillow (Some (solid "RGB" 500 300 opaque_white)))
         (source_icon ["app"]) ["app"] demo_fs)
    !! (["app"; "AppIcon.iconset"] ++ ["icon_32x32.png"]) =
  snd (@generate_iconset (demo_pillow (Some (solid "RGB" 500 300 opaque_white)))
         ["copy.png"] ["elsewhere"]
         {[ ["copy.png"] := File [Byte.x89; Byte.x50; Byte.x4e; Byte.x47] ]})
    !! (["elsewhere"; "AppIcon.iconset"] ++ ["icon_32x32.png"]).
Proof.
  destruct (@C9_transform_deterministic
              (demo_pillow (Some (solid "RGB" 500 300 opaque_white)))
              (source_icon ["app"]) ["copy.png"] ["app"] ["elsewhere"] demo_fs
              {[ ["copy.png"] := File [Byte.x89; Byte.x50; Byte.x4e; Byte.x47] ]}
              [Byte.x89; Byte.x50; Byte.x4e; Byte.x47] 1024)
    as [Hcanvas Hvariants]; [vm_compute; reflexivity | vm_compute; reflexivity |].
  split; [exact Hcanvas|].
  assert (fst (@generate_iconset (demo_pillow (Some (solid "RGB" 500 300 opaque_white)))
                 (source_icon ["app"]) ["app"] demo_fs)
          = Ok ["app"; "AppIcon.iconset"]) as EA by (vm_compute; reflexivity).
  assert (fst (@generate_iconset (demo_pillow (Some (solid "RGB" 500 300 opaque_white)))
                 ["copy.png"] ["elsewhere"]
                 {[ ["copy.png"] := File [Byte.x89; Byte.x50; Byte.x4e; Byte.x47] ]})
          = Ok ["elsewhere"; "AppIcon.iconset"]) as EB by (vm_compute; reflexivity).
  destruct (@generate_iconset _ (source_icon ["app"]) ["app"] demo_fs) as [rA fsA'] eqn:HA.
  destruct (@generate_iconset _ ["copy.png"] ["elsewhere"] _) as [rB fsB'] eqn:HB.
  cbn [fst snd] in *. subst rA rB.
  apply (Hvariants _ _ _ _ eq_refl eq_refl 32 "icon_32x32.png"). cbn. tauto.
Defined.

(** C10.  [create_square_icon] ignores its [output_dir] argument: any two
    values give the same result, and the file system is returned as it was
    received. *)
Theorem C10_output_dir_unused `{Pillow}
    (source_path output_dir output_dir' : path) (size : Z) (fs : FS) :
  create_square_icon source_path output_dir size fs =
  create_square_icon source_path output_dir' size fs /\
  snd (create_square_icon source_path output_dir size fs) = fs.
Proof. split; [reflexivity|apply create_square_icon_fs]. Qed.

(* ===================================================================== *)
(** ** Further properties: what the operations preserve                   *)
(* ===================================================================== *)

Lemma preserves_ret {A} (keep : path -> Prop) (a : A) : preserves keep (ret a).
Proof. intros fs q x _ E. exact E. Qed.

Lemma preserves_raise {A} (keep : path -> Prop) (e : exn) :
  preserves keep (@raise A e).
Proof. intros fs q x _ E. exact E. Qed.

Lemma preserves_lift {A} (keep : path -> Prop) (r : result A) :
  preserves keep (lift r).
Proof. intros fs q x _ E. exact E. Qed.

Lemma preserves_bind {A B} (keep : path -> Prop) (c : M A) (k : A -> M B) :
  preserves keep c -> (forall a, preserves keep (k a)) -> preserves keep (bind c k).
Proof.
  intros Hc Hk fs q x Hq E. unfold bind.
  specialize (Hc fs q x Hq E).
  destruct (c fs) as [[a|e] fs1]; cbn [snd] in *.
  - apply (Hk a fs1 q x Hq Hc).
  - exact Hc.
Qed.

Lemma preserves_weaken {A} (keep keep' : path -> Prop) (c : M A) :
  (forall q, keep' q -> keep q) -> preserves keep c -> preserves keep' c.
Proof. intros Hsub Hc fs q x Hq. apply Hc. apply Hsub. exact Hq. Qed.

Lemma preserves_for_each {A} (keep : path -> Prop) (l : list A) (body : A -> M unit) :
  (forall a, In a l -> preserves keep (body a)) -> preserves keep (for_each l body).
Proof.
  induction l as [|a l IH]; intros Hbody; cbn [for_each].
  - apply preserves_ret.
  - apply preserves_bind.
    + apply Hbody. left. reflexivity.
    + intros _. apply IH. intros a' Hin. apply Hbody. right. exact Hin.
Qed.

Lemma preserves_try_except {A} (keep : path -> Prop) (body handler : M A) :
  preserves keep body -> preserves keep handler ->
  preserves keep (try_except body handler).
Proof.
  intros Hb Hh fs q x Hq E. unfold try_except.
  specialize (Hb fs q x Hq E).
  destruct (body fs) as [[a|[]] fs1]; cbn [snd] in *; try exact Hb;
    apply (Hh fs1 q x Hq Hb).
Qed.

(** [os.makedirs] only adds directories: no existing entry changes. *)
Lemma makedirs_from_preserves todo : forall done,
  preserves (fun _ => True) (Os.makedirs_from done todo).
Proof.
  induction todo as [|c todo IH]; intros done fs q x _ E; cbn [Os.makedirs_from].
  - exact E.
  - destruct (fs !! (done ++ [c])) as [[|b]|] eqn:Ed; cbn [snd]; try exact E.
    + apply IH; [exact I|]. rewrite insert_id by exact Ed. exact E.
    + apply IH; [exact I|]. rewrite lookup_insert_ne; [exact E|].
      intros <-. congruence.
Qed.

Lemma write_file_preserves (p : path) (data : bytes) :
  preserves (fun q => q <> p) (Os.write_file p data).
Proof.
  intros fs q x Hq E. unfold Os.write_file.
  destruct (fs !! p) as [[|b]|]; cbn [snd]; try exact E;
    destruct (fs !! Os.path_dirname p) as [[|b']|]; cbn [snd]; try exact E;
    rewrite lookup_insert_ne by congruence; exact E.
Qed.

Lemma rmtree_preserves (p : path) :
  preserves (fun q => ~ p `prefix_of` q) (Os.rmtree p).
Proof.
  intros fs q x Hq E. unfold Os.rmtree.
  destruct (fs !! p) as [[|b]|]; cbn [snd]; try exact E.
  apply map_lookup_filter_Some. split; [exact E|exact Hq].
Qed.

Lemma subprocess_run_preserves `{Platform} (d out : path) :
  preserves (fun q => q <> out) (subprocess_run d out).
Proof.
  intros fs q x Hq E. unfold subprocess_run.
  destruct (iconutil fs d out) as [rc [b|]|[b|]|]; cbn [snd]; try exact E;
    rewrite lookup_insert_ne by congruence; exact E.
Qed.

Lemma create_icns_preserves `{Platform} (d out : path) :
  preserves (fun q => q <> out) (create_icns d out).
Proof.
  unfold create_icns. apply preserves_try_except; [|apply preserves_ret].
  apply preserves_bind; [apply subprocess_run_preserves|].
  intros rc. destruct (rc =? 0); apply preserves_ret.
Qed.

Section PreservesFacts.
Context `{Pillow}.

Lemma create_square_icon_preserves (src out : path) (size : Z) :
  preserves (fun _ => True) (create_square_icon src out size).
Proof. intros fs q x _ E. rewrite create_square_icon_fs. exact E. Qed.

(** [generate_iconset] changes nothing outside the staging directory. *)
Lemma generate_iconset_preserves (src out : path) :
  preserves (fun q => ~ (out ++ ["AppIcon.iconset"]) `prefix_of` q)
    (generate_iconset src out).
Proof.
  unfold generate_iconset, Os.path_join.
  apply preserves_bind.
  { apply (preserves_weaken (fun _ => True)); [trivial|apply makedirs_from_preserves]. }
  intros _. apply preserves_bind.
  { apply (preserves_weaken (fun _ => True)); [trivial|apply create_square_icon_preserves]. }
  intros canvas. apply preserves_bind; [|intros _; apply preserves_ret].
  apply preserves_for_each. intros [size filename] _.
  apply preserves_bind; [apply preserves_lift|]. intros v.
  apply (preserves_weaken (fun q => q <> (out ++ ["AppIcon.iconset"]) ++ [filename]));
    [|apply write_file_preserves].
  intros q Hq ->. apply Hq. exists [filename]. reflexivity.
Qed.

End PreservesFacts.

(* ===================================================================== *)
(** ** Further properties: how a run can end                              *)
(* ===================================================================== *)

Lemma no_exit_ret {A} (a : A) : no_exit (ret a).
Proof. intros fs code. discriminate. Qed.

Lemma no_exit_lift {A} (r : result A) :
  (forall code, r <> Raise (SystemExit code)) -> no_exit (lift r).
Proof. intros Hr fs code. apply Hr. Qed.

Lemma no_exit_bind {A B} (c : M A) (k : A -> M B) :
  no_exit c -> (forall a, no_exit (k a)) -> no_exit (bind c k).
Proof.
  intros Hc Hk fs code. unfold bind. specialize (Hc fs code).
  destruct (c fs) as [[a|e] fs1]; cbn [fst] in *; [apply Hk|].
  intros [= ->]. apply Hc. reflexivity.
Qed.

Lemma no_exit_for_each {A} (l : list A) (body : A -> M unit) :
  (forall a, no_exit (body a)) -> no_exit (for_each l body).
Proof.
  intros Hbody. induction l as [|a l IH]; cbn [for_each].
  - apply no_exit_ret.
  - apply no_exit_bind; [apply Hbody|intros _; exact IH].
Qed.

Lemma makedirs_from_no_exit todo : forall done, no_exit (Os.makedirs_from done todo).
Proof.
  induction todo as [|c todo IH]; intros done fs code; cbn [Os.makedirs_from].
  - discriminate.
  - destruct (fs !! (done ++ [c])) as [[|b]|]; try apply IH.
    cbn [fst]. destruct todo; discriminate.
Qed.

Lemma write_file_no_exit (p : path) (data : bytes) : no_exit (Os.write_file p data).
Proof.
  intros fs code. unfold Os.write_file.
  destruct (fs !! p) as [[|b]|]; try discriminate;
    destruct (fs !! Os.path_dirname p) as [[|b']|]; discriminate.
Qed.

Lemma rmtree_no_exit (p : path) : no_exit (Os.rmtree p).
Proof.
  intros fs code. unfold Os.rmtree. destruct (fs !! p) as [[|b]|]; discriminate.
Qed.

Lemma of_int_no_exit (z code : Z) : PyFloat.of_int z <> Raise (SystemExit code).
Proof. unfold PyFloat.of_int. destruct (binary_normalize _ _ _ _ _); discriminate. Qed.

Lemma result_bind_no_exit {A B} (r : result A) (k : A -> result B) :
  (forall code, r <> Raise (SystemExit code)) ->
  (forall a code, k a <> Raise (SystemExit code)) ->
  forall code, result_bind r k <> Raise (SystemExit code).
Proof.
  intros Hr Hk code. destruct r as [a|e]; cbn; [apply Hk|].
  intros [= ->]. apply (Hr code). reflexivity.
Qed.

Lemma to_int_no_exit (x : spec_float) (code : Z) :
  PyFloat.to_int x <> Raise (SystemExit code).
Proof. destruct x; discriminate. Qed.

Lemma mul_int_no_exit (n : Z) (x : spec_float) (code : Z) :
  PyFloat.mul_int n x <> Raise (SystemExit code).
Proof.
  unfold PyFloat.mul_int. apply result_bind_no_exit; [apply of_int_no_exit|discriminate].
Qed.

Lemma truediv_no_exit (a b code : Z) : PyFloat.truediv a b <> Raise (SystemExit code).
Proof.
  unfold PyFloat.truediv. destruct (b =? 0); [discriminate|].
  apply result_bind_no_exit; [apply of_int_no_exit|]. intros fa.
  apply result_bind_no_exit; [apply of_int_no_exit|]. intros fb code'.
  destruct (SFdiv _ _ fa fb); discriminate.
Qed.

Lemma resized_dims_no_exit (w h size code : Z) :
  resized_dims w h size <> Raise (SystemExit code).
Proof.
  unfold resized_dims. apply result_bind_no_exit; [apply truediv_no_exit|]. intros scale.
  apply result_bind_no_exit.
  { apply result_bind_no_exit; [apply mul_int_no_exit|apply to_int_no_exit]. }
  intros nw. apply result_bind_no_exit.
  { apply result_bind_no_exit; [apply mul_int_no_exit|apply to_int_no_exit]. }
  discriminate.
Qed.

Section ExitFacts.
Context `{Pillow}.

Lemma Image_resize_no_exit (im : Image) (size : Z * Z) (code : Z) :
  Image_resize im size <> Raise (SystemExit code).
Proof.
  destruct size as [w h]. unfold Image_resize.
  destruct (_ && _); [discriminate|]. destruct (negb _); [discriminate|].
  destruct (_ || _); [discriminate|]. destruct (negb _); discriminate.
Qed.

Lemma Image_crop_no_exit (im : Image) (box : Z * Z * Z * Z) (code : Z) :
  Image_crop im box <> Raise (SystemExit code).
Proof.
  destruct box as [[[x0 y0] x1] y1]. unfold Image_crop.
  destruct (x1 <? x0); [discriminate|]. destruct (y1 <? y0); [discriminate|].
  destruct (_ <? _); [discriminate|]. destruct (negb _); discriminate.
Qed.

Lemma Image_open_no_exit (p : path) : no_exit (Image_open p).
Proof.
  intros fs code. unfold Image_open, Os.read_file, bind, ret, raise.
  destruct (fs !! p) as [[|b]|]; try discriminate.
  destruct (decode b) as [im|]; [|discriminate].
  destruct (_ && _); discriminate.
Qed.

Lemma create_square_icon_no_exit (src out : path) (size : Z) :
  no_exit (create_square_icon src out size).
Proof.
  unfold create_square_icon. apply no_exit_bind; [apply Image_open_no_exit|].
  intros im. cbn [Image_size].
  apply no_exit_bind; [apply no_exit_lift; intros code; apply resized_dims_no_exit|].
  intros [nw nh].
  apply no_exit_bind; [apply no_exit_lift; intros code; apply Image_resize_no_exit|].
  intros v.
  apply no_exit_bind; [apply no_exit_lift; intros code; apply Image_crop_no_exit|].
  intros canvas. apply no_exit_ret.
Qed.

Lemma generate_iconset_no_exit (src out : path) : no_exit (generate_iconset src out).
Proof.
  unfold generate_iconset. apply no_exit_bind; [apply makedirs_from_no_exit|].
  intros _. apply no_exit_bind; [apply create_square_icon_no_exit|].
  intros canvas. apply no_exit_bind; [|intros _; apply no_exit_ret].
  apply no_exit_for_each. intros [size filename].
  apply no_exit_bind; [apply no_exit_lift; intros code; apply Image_resize_no_exit|].
  intros v. apply write_file_no_exit.
Qed.

End ExitFacts.

(** The outcome of [create_icns], read off the answer of [iconutil]. *)
Lemma create_icns_outcome `{Platform} (d out : path) (fs : FS) :
  create_icns d out fs =
  match iconutil fs d out with
  | Completed rc None => (Ok (rc =? 0), fs)
  | Completed rc (Some b) => (Ok (rc =? 0), <[out := File b]> fs)
  | Undecodable None => (Ok false, fs)
  | Undecodable (Some b) => (Ok false, <[out := File b]> fs)
  | SpawnFailed => (Ok false, fs)
  end.
Proof.
  unfold create_icns, try_except, bind, subprocess_run, ret.
  destruct (iconutil fs d out) as [rc [b|]|[b|]|]; try reflexivity;
    destruct (rc =? 0); reflexivity.
Qed.

Lemma run_snd `{Pillow} `{Platform} (script_dir : path) (fs : FS) :
  snd (run script_dir fs) = snd (main script_dir fs).
Proof. unfold run. destruct (main script_dir fs) as [[[]|[]] fs']; reflexivity. Qed.

Lemma sibling_ne (d : path) (c c' : string) (l l' : path) :
  c <> c' -> d ++ c :: l <> d ++ c' :: l'.
Proof. intros Hne E. apply app_inv_head in E. congruence. Qed.

Section RunFacts.
Context `{Pillow} `{Platform}.

(** The steps of [main], with the staging directory that
    [generate_iconset] returns written out. *)
Lemma main_steps (script_dir : path) (fs : FS) :
  main script_dir fs =
  match fs !! source_icon script_dir with
  | None => (Raise (SystemExit 1), fs)
  | Some _ =>
      match generate_iconset (source_icon script_dir) script_dir fs with
      | (Raise e, fs1) => (Raise e, fs1)
      | (Ok _, fs1) =>
          match Os.makedirs (resources_path script_dir) fs1 with
          | (Raise e, fs2) => (Raise e, fs2)
          | (Ok _, fs2) =>
              match create_icns (iconset_path script_dir) (icns_path script_dir) fs2 with
              | (Raise e, fs3) => (Raise e, fs3)
              | (Ok true, fs3) => Os.rmtree (iconset_path script_dir) fs3
              | (Ok false, fs3) => (Raise (SystemExit 1), fs3)
              end
          end
      end
  end.
Proof.
  unfold main, Os.path_exists, Os.path_join.
  fold (source_icon script_dir). fold (icns_path script_dir).
  rewrite resources_dirname. unfold bind at 1.
  destruct (fs !! source_icon script_dir) as [x|] eqn:Esrc.
  - rewrite bool_decide_eq_true_2 by (eexists; reflexivity). cbn [negb].
    unfold bind at 1.
    destruct (generate_iconset (source_icon script_dir) script_dir fs)
      as [[d|e] fs1] eqn:Egen; [|reflexivity].
    apply generate_iconset_inv in Egen as (_ & _ & _ & _ & -> & _).
    fold (iconset_path script_dir).
    unfold bind at 1. destruct (Os.makedirs _ fs1) as [[[]|e] fs2]; [|reflexivity].
    unfold bind at 1.
    destruct (create_icns _ _ fs2) as [[[|]|e] fs3]; reflexivity.
  - rewrite bool_decide_eq_false_2 by (intros [x Hx]; discriminate). reflexivity.
Qed.

Lemma main_preserves (script_dir : path) :
  preserves (fun q => ~ iconset_path script_dir `prefix_of` q /\ q <> icns_path script_dir)
    (main script_dir).
Proof.
  intros fs q x [Hq Hicns] E. rewrite main_steps.
  destruct (fs !! source_icon script_dir); [|exact E].
  pose proof (generate_iconset_preserves (source_icon script_dir) script_dir fs q x Hq E)
    as E1.
  destruct (generate_iconset _ _ fs) as [[d|e] fs1]; cbn [snd] in *; [|exact E1].
  pose proof (makedirs_from_preserves (resources_path script_dir) [] fs1 q x I E1) as E2.
  fold (Os.makedirs (resources_path script_dir)) in E2.
  destruct (Os.makedirs _ fs1) as [[[]|e] fs2]; cbn [snd] in *; [|exact E2].
  pose proof (create_icns_preserves (iconset_path script_dir) (icns_path script_dir)
                fs2 q x Hicns E2) as E3.
  destruct (create_icns _ _ fs2) as [[[|]|e] fs3]; cbn [snd] in *; try exact E3.
  apply (rmtree_preserves (iconset_path script_dir) fs3 q x Hq E3).
Qed.

(** How [main] can end: normally, with nothing left at the staging path;
    by [sys.exit(1)]; or by an exception that is not [SystemExit]. *)
Lemma main_outcome (script_dir : path) (fs : FS) :
  match main script_dir fs with
  | (Ok _, fs') =>
      fs' !! iconset_path script_dir = None /\ is_Some (fs !! source_icon script_dir)
  | (Raise e, _) => e = SystemExit 1 \/ forall code, e <> SystemExit code
  end.
Proof.
  rewrite main_steps.
  destruct (fs !! source_icon script_dir) as [x|]; [|left; reflexivity].
  pose proof (generate_iconset_no_exit (source_icon script_dir) script_dir fs) as Hgen.
  destruct (generate_iconset _ _ fs) as [[d|e] fs1]; cbn [fst] in Hgen;
    [|right; intros code ->; apply (Hgen code); reflexivity].
  pose proof (makedirs_from_no_exit (resources_path script_dir) [] fs1) as Hmk.
  fold (Os.makedirs (resources_path script_dir)) in Hmk.
  destruct (Os.makedirs _ fs1) as [[[]|e] fs2]; cbn [fst] in Hmk;
    [|right; intros code ->; apply (Hmk code); reflexivity].
  rewrite create_icns_outcome.
  assert (forall fs3, match Os.rmtree (iconset_path script_dir) fs3 with
            | (Ok _, fs') => fs' !! iconset_path script_dir = None /\ is_Some (Some x)
            | (Raise e, _) => e = SystemExit 1 \/ forall code, e <> SystemExit code
            end) as Hrm.
  { intros fs3. unfold Os.rmtree.
    destruct (fs3 !! iconset_path script_dir) as [[|b]|]; try (right; discriminate).
    split; [|eexists; reflexivity].
    apply map_lookup_filter_None. right. intros y _ Hn. apply Hn. reflexivity. }
  destruct (iconutil fs2 _ _) as [rc [b|]|[b|]|]; try (left; reflexivity);
    destruct (rc =? 0); try (left; reflexivity); apply Hrm.
Qed.

End RunFacts.

(* ===================================================================== *)
(** ** Further properties of [main] and [create_icns]                     *)
(* ===================================================================== *)

(** X1.  When nothing exists at [icon/app_icon.png], [main] exits with
    status 1 before doing anything: the file system is left as it was, and
    in particular no staging directory is created. *)
Theorem X1_missing_source_exits_untouched `{Pillow} `{Platform}
    (script_dir : path) (fs : FS) :
  fs !! source_icon script_dir = None ->
  run script_dir fs = (1, fs).
Proof. intros E. unfold run. rewrite main_steps, E. reflexivity. Qed.

Lemma X1_missing_source_exits_untouched_witness :
  @run (demo_pillow None) (demo_platform (Completed 0 None)) ["app"] ∅ = (1, ∅).
Proof.
  apply (@X1_missing_source_exits_untouched (demo_pillow None)
           (demo_platform (Completed 0 None)) ["app"] ∅).
  apply lookup_empty.
Defined.

(** X2.  [create_icns] never raises: it returns [True] exactly when
    [iconutil] ran to completion with exit status 0 and what it printed
    could be decoded, and [False] when the status is nonzero, when the
    output cannot be decoded (whatever the status) or when the command could
    not be started. *)
Theorem X2_create_icns_returns_bool `{Platform} (iconset_dir output_path : path) (fs : FS) :
  exists (ok : bool) (fs' : FS),
    create_icns iconset_dir output_path fs = (Ok ok, fs') /\
    (ok = true <-> exists out, iconutil fs iconset_dir output_path = Completed 0 out) /\
    (ok = false <->
       (exists returncode out,
          iconutil fs iconset_dir output_path = Completed returncode out /\
          returncode <> 0) \/
       (exists out, iconutil fs iconset_dir output_path = Undecodable out) \/
       iconutil fs iconset_dir output_path = SpawnFailed).
Proof.
  rewrite create_icns_outcome.
  destruct (iconutil fs iconset_dir output_path) as [rc out|out|] eqn:E.
  - assert (exists fs', (match out with
                         | None => (Ok (rc =? 0), fs)
                         | Some b => (Ok (rc =? 0), <[output_path := File b]> fs)
                         end) = (Ok (rc =? 0), fs')) as [fs' ->]
      by (destruct out; eexists; reflexivity).
    exists (rc =? 0), fs'. split; [reflexivity|]. split.
    + rewrite Z.eqb_eq. split; [intros ->; eexists; reflexivity|].
      intros [out' [= -> _]]. reflexivity.
    + rewrite Z.eqb_neq. split.
      * intros Hrc. left. exists rc, out. split; [reflexivity|exact Hrc].
      * intros [(rc' & out' & [= -> _] & Hrc)|[[out' [=]]|[=]]]. exact Hrc.
  - assert (exists fs', (match out with
                         | None => (@Ok bool false, fs)
                         | Some b => (Ok false, <[output_path := File b]> fs)
                         end) = (Ok false, fs')) as [fs' ->]
      by (destruct out; eexists; reflexivity).
    exists false, fs'. split; [reflexivity|]. split.
    + split; [discriminate|intros [out' [=]]].
    + split; [|reflexivity]. intros _. right. left. exists out. reflexivity.
  - exists false, fs. split; [reflexivity|]. split.
    + split; [discriminate|intros [out' [=]]].
    + split; [|reflexivity]. intros _. right. right. reflexivity.
Qed.

(** X3.  The exit status of a run is 0 or 1, whatever the file system, the
    image and the compiler do.  A run that exits with status 0 found the
    source icon and leaves nothing at the staging path. *)
Theorem X3_exit_status_zero_or_one `{Pillow} `{Platform} (script_dir : path) (fs : FS) :
  (fst (run script_dir fs) = 0 \/ fst (run script_dir fs) = 1) /\
  (fst (run script_dir fs) = 0 ->
     snd (run script_dir fs) !! iconset_path script_dir = None /\
     is_Some (fs !! source_icon script_dir)).
Proof.
  pose proof (main_outcome script_dir fs) as Hout. unfold run.
  destruct (main script_dir fs) as [[[]|e] fs']; cbn [fst snd].
  - split; [left; reflexivity|intros _; exact Hout].
  - destruct Hout as [->|Hne].
    + split; [right; reflexivity|discriminate].
    + destruct e; try (split; [right; reflexivity|discriminate]).
      exfalso. apply (Hne code). reflexivity.
Qed.

(** X4.  A run never deletes or overwrites an existing entry outside the
    staging directory, except the compiled icon itself: whatever the
    outcome, every file or directory that is neither at or below
    [AppIcon.iconset] nor at the output path is still there, unchanged. *)
Theorem X4_run_keeps_other_entries `{Pillow} `{Platform}
    (script_dir : path) (fs : FS) (q : path) (x : node) :
  fs !! q = Some x ->
  ~ iconset_path script_dir `prefix_of` q ->
  q <> icns_path script_dir ->
  snd (run script_dir fs) !! q = Some x.
Proof.
  intros E Hq Hicns. rewrite run_snd.
  apply (main_preserves script_dir fs q x (conj Hq Hicns) E).
Qed.

Lemma X4_run_keeps_other_entries_witness :
  snd (@run (demo_pillow (Some (solid "RGB" 500 300 opaque_white)))
         (demo_platform (Completed 0 (Some []))) ["app"] demo_fs)
    !! source_icon ["app"]
  = Some (File [Byte.x89; Byte.x50; Byte.x4e; Byte.x47]).
Proof.
  apply (@X4_run_keeps_other_entries
           (demo_pillow (Some (solid "RGB" 500 300 opaque_white)))
           (demo_platform (Completed 0 (Some []))) ["app"] demo_fs).
  - vm_compute. reflexivity.
  - apply (sibling_not_prefix ["app"] "AppIcon.iconset" "icon" [] ["app_icon.png"]).
    discriminate.
  - discriminate.
Defined.

(** X5.  When [generate_iconset] fails, with the source icon present,
    [main] stops there: the exit status is 1 and the file system is the one
    the failed generation left, so the compiler is not run (its answer plays
    no part) and nothing is cleaned up. *)
Theorem X5_generation_failure_stops_run `{Pillow} `{Platform}
    (script_dir : path) (fs fs' : FS) (e : exn) :
  is_Some (fs !! source_icon script_dir) ->
  generate_iconset (source_icon script_dir) script_dir fs = (Raise e, fs') ->
  run script_dir fs = (1, fs').
Proof.
  intros [x Esrc] Egen. unfold run. rewrite main_steps, Esrc, Egen.
  pose proof (generate_iconset_no_exit (source_icon script_dir) script_dir fs) as Hne.
  rewrite Egen in Hne. cbn [fst] in Hne.
  destruct e; try reflexivity. exfalso. apply (Hne code). reflexivity.
Qed.

Lemma X5_generation_failure_stops_run_witness :
  let fs := <[ ["app"; "AppIcon.iconset"; "icon_32x32.png"] := Dir ]> demo_fs in
  let r := @run (demo_pillow (Some (solid "RGB" 500 300 opaque_white)))
             (demo_platform (Completed 0 (Some []))) ["app"] fs in
  fst r = 1 /\
  snd r = snd (@generate_iconset (demo_pillow (Some (solid "RGB" 500 300 opaque_white)))
                 (source_icon ["app"]) ["app"] fs) /\
  is_file (snd r) ["app"; "AppIcon.iconset"; "icon_16x16.png"] = true /\
  is_file (snd r) ["app"; "AppIcon.iconset"; "icon_64x64.png"] = false.
Proof.
  intros fs r.
  assert (fst (@generate_iconset (demo_pillow (Some (solid "RGB" 500 300 opaque_white)))
                 (source_icon ["app"]) ["app"] fs) = Raise IsADirectoryError) as Efst
    by (vm_compute; reflexivity).
  assert (r = (1, snd (@generate_iconset
                         (demo_pillow (Some (solid "RGB" 500 300 opaque_white)))
                         (source_icon ["app"]) ["app"] fs))) as ->.
  { apply (@X5_generation_failure_stops_run
             (demo_pillow (Some (solid "RGB" 500 300 opaque_white)))
             (demo_platform (Completed 0 (Some []))) ["app"] fs _ IsADirectoryError).
    - eexists. vm_compute. reflexivity.
    - rewrite <- Efst. apply surjective_pairing. }
  cbn [fst snd]. repeat split; vm_compute; reflexivity.
Defined.

Section CompilerFacts.
Context `{Pillow} `{Platform}.

(** With a decodable source and nothing in the way, [main] reaches the
    compiler: the ten variants are staged and the resources directory
    exists. *)
Lemma main_reaches_compiler (script_dir : path) (fs : FS) (b : bytes) (im : Image) :
  fs !! source_icon script_dir = Some (File b) -> decode b = Some im ->
  0 < width im < 2 ^ 31 -> 0 < height im < 2 ^ 31 ->
  resize_fits (width im) (height im) 1024 = true -> variants_fit = true ->
  no_file_on (iconset_path script_dir) fs = true ->
  variants_free (iconset_path script_dir) fs = true ->
  no_file_on (resources_path script_dir) fs = true ->
  exists fs2,
    fs2 !! iconset_path script_dir = Some Dir /\
    fs2 !! resources_path script_dir = Some Dir /\
    main script_dir fs =
      match create_icns (iconset_path script_dir) (icns_path script_dir) fs2 with
      | (Raise e, fs3) => (Raise e, fs3)
      | (Ok true, fs3) => Os.rmtree (iconset_path script_dir) fs3
      | (Ok false, fs3) => (Raise (SystemExit 1), fs3)
      end.
Proof.
  intros Esrc Edec Hw Hh Hfit Hvar Hno Hfree Hnores.
  set (dir := iconset_path script_dir) in *.
  destruct (generate_iconset_ok (source_icon script_dir) script_dir fs b im
              Esrc Edec Hw Hh Hfit Hvar Hno Hfree)
    as (fs1 & canvas & Emk & _ & _ & _ & _ & Egen).
  fold (iconset_path script_dir) in Emk, Egen. fold dir in Emk, Egen.
  destruct (makedirs_ok dir fs Hno) as (fs1' & Emk' & _ & Hdir & _ & Hfile1).
  assert (fs1' = fs1) as -> by congruence.
  set (fsS := staged dir canvas sizes fs1) in *.
  assert (no_file_on (resources_path script_dir) fsS = true) as HnoS.
  { unfold no_file_on. rewrite <- Hnores. apply no_file_from_ext. intros q Hq.
    unfold fsS. rewrite staged_is_file; [apply Hfile1|].
    intros size filename _ ->. revert Hq. unfold dir, iconset_path, resources_path.
    rewrite <- app_assoc. apply sibling_not_prefix. discriminate. }
  destruct (makedirs_ok _ fsS HnoS) as (fs2 & Emk2 & _ & Hres & Hframe2 & _).
  exists fs2. split; [|split].
  - rewrite Hframe2 by (apply iconset_not_on_resources; reflexivity).
    unfold fsS. rewrite staged_lookup_other.
    + apply Hdir. unfold dir, iconset_path. destruct script_dir; discriminate.
    + intros size filename _ E. symmetry in E. revert E. apply snoc_ne_self.
  - apply Hres. unfold resources_path. destruct script_dir; discriminate.
  - rewrite main_steps, Esrc, Egen. fold fsS. rewrite Emk2. reflexivity.
Qed.

End CompilerFacts.

(** X6.  The successful run, end to end.  With a decodable source within
    Pillow's limits, nothing in the way and a compiler that exits with
    status 0 after writing its output and printing decodable text, the run
    exits with status 0; afterwards the compiled icon is at
    [Amirror.app/Contents/Resources/AppIcon.icns] inside directories that
    now exist, the source icon is still there, and nothing is left at or
    below the staging directory. *)
Theorem X6_successful_run `{Pillow} `{Platform}
    (script_dir : path) (fs : FS) (b out : bytes) (im : Image) :
  fs !! source_icon script_dir = Some (File b) -> decode b = Some im ->
  0 < width im < 2 ^ 31 -> 0 < height im < 2 ^ 31 ->
  resize_fits (width im) (height im) 1024 = true -> variants_fit = true ->
  no_file_on (iconset_path script_dir) fs = true ->
  variants_free (iconset_path script_dir) fs = true ->
  no_file_on (resources_path script_dir) fs = true ->
  (forall fs2, iconutil fs2 (iconset_path script_dir) (icns_path script_dir)
               = Completed 0 (Some out)) ->
  exists fs',
    run script_dir fs = (0, fs') /\
    fs' !! icns_path script_dir = Some (File out) /\
    fs' !! resources_path script_dir = Some Dir /\
    fs' !! source_icon script_dir = Some (File b) /\
    (forall q, iconset_path script_dir `prefix_of` q -> fs' !! q = None).
Proof.
  intros Esrc Edec Hw Hh Hfit Hvar Hno Hfree Hnores Hcomp.
  destruct (main_reaches_compiler script_dir fs b im Esrc Edec Hw Hh Hfit Hvar
              Hno Hfree Hnores)
    as (fs2 & Hdir2 & Hres2 & Emain).
  rewrite create_icns_outcome, Hcomp in Emain. cbn [Z.eqb] in Emain.
  assert (icns_path script_dir <> iconset_path script_dir) as Hne1
    by (apply iconset_not_on_icns; reflexivity).
  assert (icns_path script_dir <> resources_path script_dir) as Hne2.
  { unfold icns_path, resources_path. intros E. apply app_inv_head in E. discriminate. }
  assert (~ iconset_path script_dir `prefix_of` icns_path script_dir) as Hout.
  { intros Hpre. apply (iconset_not_on_icns script_dir _ Hpre). reflexivity. }
  assert (~ iconset_path script_dir `prefix_of` resources_path script_dir) as Hres.
  { intros Hpre. apply (iconset_not_on_resources script_dir _ Hpre). reflexivity. }
  destruct (rmtree_ok (iconset_path script_dir)
              (<[icns_path script_dir := File out]> fs2))
    as (fs4 & Erm & Hgone & Hkept);
    [rewrite lookup_insert_ne by exact Hne1; exact Hdir2|].
  rewrite Erm in Emain. exists fs4.
  assert (run script_dir fs = (0, fs4)) as Erun by (unfold run; rewrite Emain; reflexivity).
  split; [exact Erun|]. split; [|split; [|split; [|exact Hgone]]].
  - rewrite Hkept by exact Hout. apply lookup_insert_eq.
  - rewrite Hkept by exact Hres. rewrite lookup_insert_ne by exact Hne2. exact Hres2.
  - replace fs4 with (snd (run script_dir fs)) by (rewrite Erun; reflexivity).
    rewrite run_snd.
    apply (main_preserves script_dir fs _ _ (conj
             (sibling_not_prefix script_dir "AppIcon.iconset" "icon" [] ["app_icon.png"]
                ltac:(discriminate))
             (sibling_ne script_dir "icon" "Amirror.app" _ _ ltac:(discriminate))) Esrc).
Qed.

Lemma X6_successful_run_witness :
  exists fs',
    @run (demo_pillow (Some (solid "RGB" 500 300 opaque_white)))
      (demo_platform (Completed 0 (Some [Byte.x69; Byte.x63; Byte.x6e; Byte.x73])))
      ["app"] demo_fs = (0, fs') /\
    fs' !! icns_path ["app"] = Some (File [Byte.x69; Byte.x63; Byte.x6e; Byte.x73]) /\
    fs' !! resources_path ["app"] = Some Dir /\
    fs' !! source_icon ["app"] = Some (File [Byte.x89; Byte.x50; Byte.x4e; Byte.x47]) /\
    (forall q, iconset_path ["app"] `prefix_of` q -> fs' !! q = None).
Proof.
  apply (@X6_successful_run (demo_pillow (Some (solid "RGB" 500 300 opaque_white)))
           (demo_platform (Completed 0 (Some [Byte.x69; Byte.x63; Byte.x6e; Byte.x73])))
           ["app"] demo_fs [Byte.x89; Byte.x50; Byte.x4e; Byte.x47]
           [Byte.x69; Byte.x63; Byte.x6e; Byte.x73] (solid "RGB" 500 300 opaque_white));
    [vm_compute; reflexivity | reflexivity | cbn; lia | cbn; lia
    | vm_compute; reflexivity | vm_compute; reflexivity
    | vm_compute; reflexivity | vm_compute; reflexivity | vm_compute; reflexivity
    | reflexivity].
Defined.

(* ===================================================================== *)
(** ** Further properties of [generate_iconset]                           *)
(* ===================================================================== *)

Lemma makedirs_from_idem todo : forall done (fs fs' : FS),
  Os.makedirs_from done todo fs = (Ok tt, fs') ->
  Os.makedirs_from done todo fs' = (Ok tt, fs').
Proof.
  induction todo as [|c todo IH]; intros done fs fs' Hrun; [reflexivity|].
  cbn [Os.makedirs_from] in *.
  assert (Os.makedirs_from (done ++ [c]) todo (<[done ++ [c] := Dir]> fs) = (Ok tt, fs'))
    as Hrun' by (destruct (fs !! (done ++ [c])) as [[|b]|]; try discriminate; exact Hrun).
  pose proof (makedirs_from_preserves todo (done ++ [c]) _ (done ++ [c]) Dir I
                (lookup_insert_eq fs (done ++ [c]) Dir)) as Hd.
  rewrite Hrun' in Hd. cbn [snd] in Hd. rewrite Hd.
  rewrite insert_id by exact Hd. apply (IH _ _ _ Hrun').
Qed.

Lemma makedirs_from_insert todo : forall done (fs fs' : FS) (p : path) (v : node),
  Os.makedirs_from done todo fs = (Ok tt, fs') ->
  ~ p `prefix_of` (done ++ todo) ->
  Os.makedirs_from done todo (<[p := v]> fs) = (Ok tt, <[p := v]> fs').
Proof.
  induction todo as [|c todo IH]; intros done fs fs' p v Hrun Hp.
  - cbn in *. unfold ret in *. congruence.
  - cbn [Os.makedirs_from] in *.
    assert (p <> done ++ [c]) as Hne by (intros ->; apply Hp; apply prefix_of_snoc).
    rewrite lookup_insert_ne by exact Hne.
    destruct (fs !! (done ++ [c])) as [[|b]|]; try discriminate;
      rewrite insert_insert_ne by (apply not_eq_sym; exact Hne);
      (apply IH; [exact Hrun|rewrite <- app_assoc; exact Hp]).
Qed.

Section RerunFacts.
Context `{Pillow}.

Lemma makedirs_staged (dir : path) (canvas : Image) l : forall fs fs' : FS,
  Os.makedirs dir fs = (Ok tt, fs') ->
  Os.makedirs dir (staged dir canvas l fs) = (Ok tt, staged dir canvas l fs').
Proof.
  induction l as [|[size filename] l IH]; intros fs fs' Hrun; [exact Hrun|].
  cbn [staged]. apply IH. apply (makedirs_from_insert dir [] fs fs'); [exact Hrun|].
  cbn [app]. apply snoc_not_prefix.
Qed.

(** Staging the same variants a second time changes nothing. *)
Lemma staged_idem (dir : path) (canvas : Image) (l : list (Z * string)) (fs : FS) :
  NoDup (map snd l) ->
  staged dir canvas l (staged dir canvas l fs) = staged dir canvas l fs.
Proof.
  intros Hnd. apply map_eq. intros p.
  destruct (decide (Exists (fun sf : Z * string => p = dir ++ [snd sf]) l)) as [Hex|Hno].
  - apply Exists_exists in Hex as ([size filename] & Hin & ->). cbn [snd].
    apply list_elem_of_In in Hin.
    rewrite !(staged_lookup_in dir canvas l _ size filename Hnd Hin). reflexivity.
  - assert (forall size filename, In (size, filename) l -> p <> dir ++ [filename]) as Hp.
    { intros size filename Hin ->. apply Hno. apply Exists_exists.
      exists (size, filename). split; [apply list_elem_of_In; exact Hin|reflexivity]. }
    rewrite !staged_lookup_other by exact Hp. reflexivity.
Qed.

(** X7.  [generate_iconset] can be run again on what it produced (as after
    a failed compilation, which keeps the staging directory): for a source
    within Pillow's limits, the existing directory is accepted, every
    variant is overwritten with the same bytes, and the file system is left
    exactly as the first run left it. *)
Theorem X7_generate_iconset_rerun
    (source_path output_dir : path) (fs : FS) (b : bytes) (im : Image) :
  fs !! source_path = Some (File b) -> decode b = Some im ->
  0 < width im < 2 ^ 31 -> 0 < height im < 2 ^ 31 ->
  resize_fits (width im) (height im) 1024 = true -> variants_fit = true ->
  no_file_on (output_dir ++ ["AppIcon.iconset"]) fs = true ->
  variants_free (output_dir ++ ["AppIcon.iconset"]) fs = true ->
  ~ (output_dir ++ ["AppIcon.iconset"]) `prefix_of` source_path ->
  exists fs',
    generate_iconset source_path output_dir fs
      = (Ok (output_dir ++ ["AppIcon.iconset"]), fs') /\
    generate_iconset source_path output_dir fs'
      = (Ok (output_dir ++ ["AppIcon.iconset"]), fs').
Proof.
  intros Esrc Edec Hw Hh Hfit Hvar Hno Hfree Hout.
  set (dir := output_dir ++ ["AppIcon.iconset"]) in *.
  destruct (generate_iconset_ok source_path output_dir fs b im Esrc Edec Hw Hh
              Hfit Hvar Hno Hfree)
    as (fs1 & canvas & Emk & Ecanvas & Hcw & Hch & _ & Egen).
  fold dir in Emk, Egen.
  destruct (makedirs_ok dir fs Hno) as (fs1' & Emk' & Hsub & Hdir & _).
  assert (fs1' = fs1) as -> by congruence.
  set (fsS := staged dir canvas sizes fs1) in *.
  exists fsS. split; [exact Egen|].
  assert (forall size filename, In (size, filename) sizes -> source_path <> dir ++ [filename])
    as Hsrc.
  { intros size filename _ ->. apply Hout. exists [filename]. reflexivity. }
  assert (fsS !! source_path = Some (File b)) as EsrcS.
  { unfold fsS. rewrite staged_lookup_other by exact Hsrc.
    apply (lookup_weaken _ _ _ _ Esrc Hsub). }
  assert (create_square_icon source_path output_dir 1024 fsS = (Ok canvas, fsS)) as EcanvasS.
  { pose proof (create_square_icon_bytes source_path source_path output_dir output_dir
                  1024 fsS fs1 b EsrcS (lookup_weaken _ _ _ _ Esrc Hsub)) as Hfst.
    pose proof (create_square_icon_fs source_path output_dir 1024 fsS) as Hsnd.
    rewrite Ecanvas in Hfst. cbn [fst] in Hfst.
    destruct (create_square_icon source_path output_dir 1024 fsS) as [r fsX].
    cbn [fst snd] in *. congruence. }
  assert (Os.makedirs dir fsS = (Ok tt, fsS)) as EmkS
    by apply (makedirs_staged dir canvas sizes fs1 fs1 (makedirs_from_idem _ _ _ _ Emk)).
  unfold generate_iconset, Os.path_join. fold dir.
  unfold bind at 1. rewrite EmkS. unfold bind at 1. rewrite EcanvasS.
  unfold bind at 1. rewrite (for_each_save_ok dir canvas sizes fsS).
  - unfold fsS. rewrite staged_idem by exact sizes_NoDup. reflexivity.
  - unfold fsS. rewrite staged_lookup_other.
    + apply Hdir. unfold dir. destruct output_dir; discriminate.
    + intros size filename _ E. symmetry in E. revert E. apply snoc_ne_self.
  - intros size filename Hin.
    split; [apply (variant_resize_ok canvas size filename Hcw Hch Hvar Hin)|].
    unfold is_dir, fsS.
    rewrite (staged_lookup_in dir canvas sizes fs1 size filename sizes_NoDup Hin).
    reflexivity.
Qed.

End RerunFacts.

Lemma X7_generate_iconset_rerun_witness :
  exists fs',
    @generate_iconset (demo_pillow (Some (solid "RGB" 500 300 opaque_white)))
      (source_icon ["app"]) ["app"] demo_fs = (Ok (["app"] ++ ["AppIcon.iconset"]), fs') /\
    @generate_iconset (demo_pillow (Some (solid "RGB" 500 300 opaque_white)))
      (source_icon ["app"]) ["app"] fs' = (Ok (["app"] ++ ["AppIcon.iconset"]), fs').
Proof.
  apply (@X7_generate_iconset_rerun (demo_pillow (Some (solid "RGB" 500 300 opaque_white)))
           (source_icon ["app"]) ["app"] demo_fs
           [Byte.x89; Byte.x50; Byte.x4e; Byte.x47] (solid "RGB" 500 300 opaque_white));
    [vm_compute; reflexivity | reflexivity | cbn; lia | cbn; lia
    | vm_compute; reflexivity | vm_compute; reflexivity
    | vm_compute; reflexivity | vm_compute; reflexivity |].
  apply (sibling_not_prefix ["app"] "AppIcon.iconset" "icon" [] ["app_icon.png"]).
  discriminate.
Defined.

(* ===================================================================== *)
(** ** Further properties of [create_square_icon]                         *)
(* ===================================================================== *)

Lemma rne_div_exact (c D : Z) : 0 < D -> rne_div (c * D) D = c.
Proof.
  intros HD. unfold rne_div. rewrite Z.div_mul, Z.mod_mul by lia.
  change (2 * 0) with 0.
  destruct (Z.compare_spec 0 D); [lia|reflexivity|lia].
Qed.

(** When the smaller side is a power of two, the quotient and the product
    are exact: [int(m * (S / m))] is [S]. *)
Lemma scaled_exact (S m j : Z) :
  0 < S < 2 ^ 31 -> 0 <= j < 31 -> m = 2 ^ j -> scaled S m m = Ok S.
Proof.
  intros HS Hj ->.
  assert (0 < 2 ^ j) as Hmp by (apply Z.pow_pos_nonneg; lia).
  assert (2 ^ j < 2 ^ 31) as Hm31 by (apply Z.pow_lt_mono_r; lia).
  assert (2 ^ 31 < 2 ^ 53) as H3153 by (apply Z.pow_lt_mono_r; lia).
  destruct (truediv_spec S (2 ^ j) ltac:(lia) ltac:(lia)) as (k & Hk & Hq0 & Ediv).
  assert (0 < 2 ^ k) as Hkp by (apply Z.pow_pos_nonneg; lia).
  assert (j <= k) as Hjk.
  { assert (52 + j < 31 + k); [|lia]. apply pow2_lt_mono_inv; [lia|].
    rewrite !Z.pow_add_r by lia.
    apply Z.le_lt_trans with (S * 2 ^ k).
    - destruct Hq0 as [Hq0 _].
      pose proof (Z.mul_div_le (S * 2 ^ k) (2 ^ j) Hmp).
      apply Z.le_trans with (2 ^ j * (S * 2 ^ k / 2 ^ j)); [|assumption].
      rewrite (Z.mul_comm (2 ^ j)). apply Z.mul_le_mono_nonneg_r; lia.
    - apply Z.mul_lt_mono_pos_r; lia. }
  assert (S * 2 ^ k = S * 2 ^ (k - j) * 2 ^ j) as Esplit.
  { rewrite <- Z.mul_assoc, <- Z.pow_add_r by lia. do 2 f_equal. lia. }
  rewrite Esplit in Hq0, Ediv. rewrite Z.div_mul in Hq0 by lia.
  rewrite rne_div_exact in Ediv by exact Hmp.
  set (q1 := S * 2 ^ (k - j)) in *.
  destruct (mul_int_spec (2 ^ j) q1 (- k) ltac:(lia) ltac:(lia) ltac:(lia))
    as (sh & Hsh & HX & Emul).
  assert (2 ^ j * q1 = S * 2 ^ k) as EX by (rewrite Esplit; ring).
  rewrite EX in HX, Emul.
  assert (0 < 2 ^ sh) as Hshp by (apply Z.pow_pos_nonneg; lia).
  assert (sh <= k) as Hshk.
  { assert (52 + sh < 31 + k); [|lia]. apply pow2_lt_mono_inv; [lia|].
    rewrite (Z.pow_add_r 2 31 k) by lia.
    apply Z.le_lt_trans with (S * 2 ^ k); [apply HX|].
    apply Z.mul_lt_mono_pos_r; lia. }
  assert (S * 2 ^ k = S * 2 ^ (k - sh) * 2 ^ sh) as Esplit2.
  { rewrite <- Z.mul_assoc, <- Z.pow_add_r by lia. do 2 f_equal. lia. }
  pose proof (div_pow2_bounds (S * 2 ^ k) 1 sh ltac:(lia) ltac:(lia)) as Hq2.
  rewrite Z.div_1_r, Z.mul_1_l in Hq2. specialize (Hq2 HX).
  rewrite Esplit2 in Hq2, Emul at 1. rewrite Z.div_mul in Hq2 by lia.
  rewrite rne_div_exact in Emul by exact Hshp.
  unfold scaled. rewrite Ediv. cbn [result_bind]. rewrite Emul. cbn [result_bind].
  rewrite to_int_fin by lia. rewrite trunc_as_div by lia.
  rewrite <- Esplit2, Z.div_mul by lia. reflexivity.
Qed.

Section CanvasFacts.
Context `{Pillow}.

(** The canvas is the crop of the resized image: each of its pixels is the
    pixel of the resized image at the same place in the crop box, or
    transparent where the box leaves the image. *)
Lemma canvas_pixels (src out : path) (fs : FS) (b : bytes) (im : Image) :
  fs !! src = Some (File b) -> decode b = Some im ->
  0 < width im < 2 ^ 31 -> 0 < height im < 2 ^ 31 ->
  resize_fits (width im) (height im) 1024 = true ->
  exists nw nh canvas,
    resized_dims (width im) (height im) 1024 = Ok (nw, nh) /\
    create_square_icon src out 1024 fs = (Ok canvas, fs) /\
    forall x y, px canvas x y =
      let sx := x + (nw - 1024) / 2 in
      let sy := y + (nh - 1024) / 2 in
      if (0 <=? sx) && (sx <? nw) && (0 <=? sy) && (sy <? nh)
      then px (resampled (convert_if_needed im) nw nh) sx sy else transparent.
Proof.
  intros Esrc Edec Hw Hh Hfit.
  destruct (create_square_icon_ok src out fs b im Esrc Edec Hw Hh Hfit)
    as (nw & nh & canvas & Edims & Hnw & Hnh & Ecrop & Erun & _).
  destruct (Image_crop_box (resampled (convert_if_needed im) nw nh) nw nh Hnw Hnh)
    as (canvas' & Ecrop' & _ & _ & _ & Hpx).
  assert (canvas' = canvas) as -> by congruence.
  exists nw, nh, canvas. split; [exact Edims|]. split; [exact Erun|].
  intros x y. rewrite Hpx.
  destruct (resampled_size (convert_if_needed im) nw nh) as (-> & -> & _). reflexivity.
Qed.

End CanvasFacts.

(** X8.  Each resized dimension falls short of the edge length by one pixel
    at most: both are at least [size - 1], and the smaller of the two is
    [size - 1] or [size].  (Sides and edge below [2^31].) *)
Theorem X8_resized_dims_one_short_at_most (w h size : Z) :
  0 < w < 2 ^ 31 -> 0 < h < 2 ^ 31 -> 0 < size < 2 ^ 31 ->
  exists nw nh,
    resized_dims w h size = Ok (nw, nh) /\
    size - 1 <= nw /\ size - 1 <= nh /\
    (Z.min nw nh = size - 1 \/ Z.min nw nh = size).
Proof.
  intros Hw Hh Hs.
  destruct (resized_dims_ok w h size Hw Hh Hs)
    as (nw & nh & Edims & _ & _ & Hnw & Hnh & Hwh & Hhw).
  exists nw, nh. repeat (split; [assumption|]).
  destruct (Z.le_ge_cases w h) as [Hle|Hle]; [apply Hwh in Hle|apply Hhw in Hle]; lia.
Qed.

Lemma X8_resized_dims_one_short_at_most_witness :
  exists nw nh,
    resized_dims 107 400 1024 = Ok (nw, nh) /\
    1024 - 1 <= nw /\ 1024 - 1 <= nh /\
    (Z.min nw nh = 1024 - 1 \/ Z.min nw nh = 1024).
Proof. apply (X8_resized_dims_one_short_at_most 107 400 1024); cbn; lia. Defined.

(** X9.  When the smaller side of the source is a power of two (256, 512,
    1024, 2048, ...) the scaling is exact: the smaller resized dimension is
    exactly 1024, and for a source that Pillow can resize the crop box lies
    inside the resized image and every pixel of the canvas is a pixel of
    the resized image: no padding. *)
Theorem X9_power_of_two_exact_fill `{Pillow}
    (source_path output_dir : path) (fs : FS) (b : bytes) (im : Image) (j : Z) :
  fs !! source_path = Some (File b) -> decode b = Some im ->
  0 < width im < 2 ^ 31 -> 0 < height im < 2 ^ 31 ->
  resize_fits (width im) (height im) 1024 = true ->
  0 <= j -> Z.min (width im) (height im) = 2 ^ j ->
  exists nw nh canvas,
    resized_dims (width im) (height im) 1024 = Ok (nw, nh) /\
    Z.min nw nh = 1024 /\
    create_square_icon source_path output_dir 1024 fs = (Ok canvas, fs) /\
    forall x y, 0 <= x < 1024 -> 0 <= y < 1024 ->
      0 <= x + (nw - 1024) / 2 < nw /\ 0 <= y + (nh - 1024) / 2 < nh /\
      px canvas x y =
        px (resampled (convert_if_needed im) nw nh)
           (x + (nw - 1024) / 2) (y + (nh - 1024) / 2).
Proof.
  intros Esrc Edec Hw Hh Hfit Hj Hmin.
  assert (j < 31) as Hj31.
  { apply pow2_lt_mono_inv; [lia|]. rewrite <- Hmin. lia. }
  destruct (canvas_pixels source_path output_dir fs b im Esrc Edec Hw Hh Hfit)
    as (nw & nh & canvas & Edims & Erun & Hpx).
  destruct (resized_dims_ok (width im) (height im) 1024 Hw Hh ltac:(cbn; lia))
    as (nw' & nh' & Edims' & Ew & Eh & _ & _ & Hwh & Hhw).
  assert (nw' = nw /\ nh' = nh) as [-> ->] by (split; congruence).
  assert (Z.min nw nh = 1024 /\ 1024 <= nw /\ 1024 <= nh) as (Hm & Hnw & Hnh).
  { pose proof (scaled_exact 1024 _ j ltac:(cbn; lia) ltac:(lia) Hmin) as Eexact.
    destruct (Z.le_ge_cases (width im) (height im)) as [Hle|Hle].
    - rewrite Z.min_l in * by exact Hle. rewrite Hmin in Ew.
      assert (nw = 1024) by congruence. apply Hwh in Hle. lia.
    - rewrite Z.min_r in * by exact Hle. rewrite Hmin in Eh.
      assert (nh = 1024) by congruence. apply Hhw in Hle. lia. }
  exists nw, nh, canvas. repeat (split; [assumption|]).
  intros x y Hx Hy.
  assert (0 <= x + (nw - 1024) / 2 < nw) as Hsx
    by (pose proof (Z.div_mod (nw - 1024) 2 ltac:(lia));
        pose proof (Z.mod_pos_bound (nw - 1024) 2 ltac:(lia)); lia).
  assert (0 <= y + (nh - 1024) / 2 < nh) as Hsy
    by (pose proof (Z.div_mod (nh - 1024) 2 ltac:(lia));
        pose proof (Z.mod_pos_bound (nh - 1024) 2 ltac:(lia)); lia).
  split; [exact Hsx|]. split; [exact Hsy|]. rewrite Hpx. cbv zeta.
  replace (0 <=? x + (nw - 1024) / 2) with true by (symmetry; apply Z.leb_le; lia).
  replace (x + (nw - 1024) / 2 <? nw) with true by (symmetry; apply Z.ltb_lt; lia).
  replace (0 <=? y + (nh - 1024) / 2) with true by (symmetry; apply Z.leb_le; lia).
  replace (y + (nh - 1024) / 2 <? nh) with true by (symmetry; apply Z.ltb_lt; lia).
  reflexivity.
Qed.

Lemma X9_power_of_two_exact_fill_witness :
  exists nw nh canvas,
    resized_dims 2048 512 1024 = Ok (nw, nh) /\
    Z.min nw nh = 1024 /\
    @create_square_icon (demo_pillow (Some (solid "RGB" 2048 512 opaque_white)))
      (source_icon ["app"]) ["app"] 1024 demo_fs = (Ok canvas, demo_fs) /\
    forall x y, 0 <= x < 1024 -> 0 <= y < 1024 ->
      0 <= x + (nw - 1024) / 2 < nw /\ 0 <= y + (nh - 1024) / 2 < nh /\
      px canvas x y =
        px (@resampled (demo_pillow (Some (solid "RGB" 2048 512 opaque_white)))
              (@convert_if_needed (demo_pillow (Some (solid "RGB" 2048 512 opaque_white)))
                 (solid "RGB" 2048 512 opaque_white)) nw nh)
           (x + (nw - 1024) / 2) (y + (nh - 1024) / 2).
Proof.
  apply (@X9_power_of_two_exact_fill
           (demo_pillow (Some (solid "RGB" 2048 512 opaque_white)))
           (source_icon ["app"]) ["app"] demo_fs
           [Byte.x89; Byte.x50; Byte.x4e; Byte.x47]
           (solid "RGB" 2048 512 opaque_white) 9);
    [vm_compute; reflexivity | reflexivity | cbn; lia | cbn; lia
    | vm_compute; reflexivity | lia | reflexivity].
Defined.

(** X10.  For every decodable source of positive size that Pillow can
    resize, the canvas is the center crop of the resized image everywhere
    but, at worst, in its first row and first column: each pixel [(x, y)]
    with [1 <= x, y < 1024] is the pixel of the resized image at
    [(x + left, y + top)], which lies inside that image. *)
Theorem X10_padding_confined_to_first_row_and_column `{Pillow}
    (source_path output_dir : path) (fs : FS) (b : bytes) (im : Image) :
  fs !! source_path = Some (File b) -> decode b = Some im ->
  0 < width im < 2 ^ 31 -> 0 < height im < 2 ^ 31 ->
  resize_fits (width im) (height im) 1024 = true ->
  exists nw nh canvas,
    resized_dims (width im) (height im) 1024 = Ok (nw, nh) /\
    create_square_icon source_path output_dir 1024 fs = (Ok canvas, fs) /\
    forall x y, 1 <= x < 1024 -> 1 <= y < 1024 ->
      0 <= x + (nw - 1024) / 2 < nw /\ 0 <= y + (nh - 1024) / 2 < nh /\
      px canvas x y =
        px (resampled (convert_if_needed im) nw nh)
           (x + (nw - 1024) / 2) (y + (nh - 1024) / 2).
Proof.
  intros Esrc Edec Hw Hh Hfit.
  destruct (canvas_pixels source_path output_dir fs b im Esrc Edec Hw Hh Hfit)
    as (nw & nh & canvas & Edims & Erun & Hpx).
  destruct (resized_dims_ok (width im) (height im) 1024 Hw Hh ltac:(cbn; lia))
    as (nw' & nh' & Edims' & _ & _ & Hnw & Hnh & _).
  assert (nw' = nw /\ nh' = nh) as [-> ->] by (split; congruence).
  exists nw, nh, canvas. repeat (split; [assumption|]).
  intros x y Hx Hy.
  assert (0 <= x + (nw - 1024) / 2 < nw) as Hsx
    by (pose proof (Z.div_mod (nw - 1024) 2 ltac:(lia));
        pose proof (Z.mod_pos_bound (nw - 1024) 2 ltac:(lia)); lia).
  assert (0 <= y + (nh - 1024) / 2 < nh) as Hsy
    by (pose proof (Z.div_mod (nh - 1024) 2 ltac:(lia));
        pose proof (Z.mod_pos_bound (nh - 1024) 2 ltac:(lia)); lia).
  split; [exact Hsx|]. split; [exact Hsy|]. rewrite Hpx. cbv zeta.
  replace (0 <=? x + (nw - 1024) / 2) with true by (symmetry; apply Z.leb_le; lia).
  replace (x + (nw - 1024) / 2 <? nw) with true by (symmetry; apply Z.ltb_lt; lia).
  replace (0 <=? y + (nh - 1024) / 2) with true by (symmetry; apply Z.leb_le; lia).
  replace (y + (nh - 1024) / 2 <? nh) with true by (symmetry; apply Z.ltb_lt; lia).
  reflexivity.
Qed.

Lemma X10_padding_confined_to_first_row_and_column_witness :
  exists nw nh canvas,
    resized_dims 49 49 1024 = Ok (nw, nh) /\
    @create_square_icon (demo_pillow (Some (solid "RGBA" 49 49 opaque_white)))
      (source_icon ["app"]) ["app"] 1024 demo_fs = (Ok canvas, demo_fs) /\
    forall x y, 1 <= x < 1024 -> 1 <= y < 1024 ->
      0 <= x + (nw - 1024) / 2 < nw /\ 0 <= y + (nh - 1024) / 2 < nh /\
      px canvas x y =
        px (@resampled (demo_pillow (Some (solid "RGBA" 49 49 opaque_white)))
              (@convert_if_needed (demo_pillow (Some (solid "RGBA" 49 49 opaque_white)))
                 (solid "RGBA" 49 49 opaque_white)) nw nh)
           (x + (nw - 1024) / 2) (y + (nh - 1024) / 2).
Proof.
  apply (@X10_padding_confined_to_first_row_and_column
           (demo_pillow (Some (solid "RGBA" 49 49 opaque_white)))
           (source_icon ["app"]) ["app"] demo_fs
           [Byte.x89; Byte.x50; Byte.x4e; Byte.x47] (solid "RGBA" 49 49 opaque_white));
    [vm_compute; reflexivity | reflexivity | cbn; lia | cbn; lia
    | vm_compute; reflexivity].
Defined.

(** X11.  The crop is centered.  The box is 1024 by 1024; along each axis
    the part of the resized image cut off after the box equals the part cut
    off before it, or exceeds it by one pixel; along the axis of the smaller
    source side nothing is cut off before the box, which starts at 0 (or at
    -1 when the resized side is 1023). *)
Theorem X11_crop_box_centered (w h : Z) :
  0 < w < 2 ^ 31 -> 0 < h < 2 ^ 31 ->
  exists nw nh x0 y0,
    resized_dims w h 1024 = Ok (nw, nh) /\
    crop_box nw nh 1024 = (x0, y0, x0 + 1024, y0 + 1024) /\
    0 <= (nw - (x0 + 1024)) - x0 <= 1 /\
    0 <= (nh - (y0 + 1024)) - y0 <= 1 /\
    -1 <= x0 /\ -1 <= y0 /\
    (w <= h -> x0 <= 0) /\ (h <= w -> y0 <= 0).
Proof.
  intros Hw Hh.
  destruct (resized_dims_ok w h 1024 Hw Hh ltac:(cbn; lia))
    as (nw & nh & Edims & _ & _ & Hnw & Hnh & Hwh & Hhw).
  exists nw, nh, ((nw - 1024) / 2), ((nh - 1024) / 2).
  split; [exact Edims|]. split; [reflexivity|].
  pose proof (Z.div_mod (nw - 1024) 2 ltac:(lia)).
  pose proof (Z.mod_pos_bound (nw - 1024) 2 ltac:(lia)).
  pose proof (Z.div_mod (nh - 1024) 2 ltac:(lia)).
  pose proof (Z.mod_pos_bound (nh - 1024) 2 ltac:(lia)).
  repeat split; lia.
Qed.

Lemma X11_crop_box_centered_witness :
  exists nw nh x0 y0,
    resized_dims 3000 1000 1024 = Ok (nw, nh) /\
    crop_box nw nh 1024 = (x0, y0, x0 + 1024, y0 + 1024) /\
    0 <= (nw - (x0 + 1024)) - x0 <= 1 /\
    0 <= (nh - (y0 + 1024)) - y0 <= 1 /\
    -1 <= x0 /\ -1 <= y0 /\
    (3000 <= 1000 -> x0 <= 0) /\ (1000 <= 3000 -> y0 <= 0).
Proof. apply (X11_crop_box_centered 3000 1000); cbn; lia. Defined.

(** X13.  No variant is resampled up: every size of the iconset is between
    1 and the canvas edge, every variant staged by a generation within
    Pillow's limits is an RGBA image, and the 1024-pixel variant is the
    canvas itself, which [resize] returns unchanged. *)
Theorem X13_variants_rgba_largest_is_canvas `{Pillow}
    (source_path output_dir : path) (fs : FS) (b : bytes) (im : Image) :
  fs !! source_path = Some (File b) -> decode b = Some im ->
  0 < width im < 2 ^ 31 -> 0 < height im < 2 ^ 31 ->
  resize_fits (width im) (height im) 1024 = true -> variants_fit = true ->
  no_file_on (output_dir ++ ["AppIcon.iconset"]) fs = true ->
  variants_free (output_dir ++ ["AppIcon.iconset"]) fs = true ->
  exists fs1 canvas fs',
    create_square_icon source_path output_dir 1024 fs1 = (Ok canvas, fs1) /\
    generate_iconset source_path output_dir fs
      = (Ok (output_dir ++ ["AppIcon.iconset"]), fs') /\
    fs' !! (output_dir ++ ["AppIcon.iconset"; "icon_512x512@2x.png"])
      = Some (File (encode_png canvas)) /\
    Forall (fun '(size, filename) =>
              1 <= size <= width canvas /\
              exists v, Image_resize canvas (size, size) = Ok v /\
                mode v = "RGBA" /\
                fs' !! (output_dir ++ ["AppIcon.iconset"; filename])
                  = Some (File (encode_png v)))
           sizes.
Proof.
  intros Esrc Edec Hw Hh Hfit Hvar Hno Hfree.
  destruct (generate_iconset_ok source_path output_dir fs b im Esrc Edec Hw Hh
              Hfit Hvar Hno Hfree)
    as (fs1 & canvas & _ & Ecanvas & Hcw & Hch & Hcm & Egen).
  exists fs1, canvas, (staged (output_dir ++ ["AppIcon.iconset"]) canvas sizes fs1).
  split; [exact Ecanvas|]. split; [exact Egen|].
  assert (forall size filename, In (size, filename) sizes ->
            staged (output_dir ++ ["AppIcon.iconset"]) canvas sizes fs1
              !! (output_dir ++ ["AppIcon.iconset"; filename])
            = Some (File (encode_png (resampled canvas size size)))) as Hlook.
  { intros size filename Hin.
    change ["AppIcon.iconset"; filename] with (["AppIcon.iconset"] ++ [filename]).
    rewrite app_assoc. apply staged_lookup_in; [exact sizes_NoDup|exact Hin]. }
  split.
  - rewrite (Hlook 1024 "icon_512x512@2x.png") by (cbn; tauto).
    rewrite <- Hcw at 1. rewrite <- Hch. rewrite resampled_same. reflexivity.
  - apply Forall_forall. intros [size filename] Hin. apply list_elem_of_In in Hin.
    pose proof (sizes_positive size filename Hin) as Hpos.
    split.
    + split; [exact Hpos|]. rewrite Hcw.
      assert (Forall (fun sf : Z * string => fst sf <= 1024) sizes) as Hall
        by (unfold sizes; repeat constructor; cbn; lia).
      rewrite Forall_forall in Hall. apply list_elem_of_In in Hin.
      apply (Hall _ Hin).
    + exists (resampled canvas size size).
      split; [apply (variant_resize_ok canvas size filename Hcw Hch Hvar Hin)|].
      destruct (resampled_size canvas size size) as (_ & _ & ->).
      split; [exact Hcm|apply (Hlook size filename Hin)].
Qed.

Lemma X13_variants_rgba_largest_is_canvas_witness :
  exists fs' canvas,
    @generate_iconset (demo_pillow (Some (solid "RGB" 500 300 opaque_white)))
      (source_icon ["app"]) ["app"] demo_fs = (Ok (["app"] ++ ["AppIcon.iconset"]), fs') /\
    fs' !! (["app"] ++ ["AppIcon.iconset"; "icon_512x512@2x.png"])
      = Some (File (@encode_png (demo_pillow (Some (solid "RGB" 500 300 opaque_white)))
                      canvas)).
Proof.
  destruct (@X13_variants_rgba_largest_is_canvas
              (demo_pillow (Some (solid "RGB" 500 300 opaque_white)))
              (source_icon ["app"]) ["app"] demo_fs
              [Byte.x89; Byte.x50; Byte.x4e; Byte.x47]
              (solid "RGB" 500 300 opaque_white))
    as (fs1 & canvas & fs' & _ & Egen & Hbig & _);
    [vm_compute; reflexivity | reflexivity | cbn; lia | cbn; lia
    | vm_compute; reflexivity | vm_compute; reflexivity
    | vm_compute; reflexivity | vm_compute; reflexivity |].
  exists fs', canvas. split; [exact Egen|exact Hbig].
Defined.

(** [int(M * (S / m))] is the integer part of a value [A / K] where
    [q1 / K] is within a relative [2^-53] of [S / m] and [A] within a
    relative [2^-53] of [M * q1]: the two roundings of the computation. *)
Lemma scaled_form (S m M : Z) :
  0 < S < 2 ^ 31 -> 0 < m < 2 ^ 31 -> 0 < M < 2 ^ 31 ->
  exists K q1 A,
    0 < K /\ 0 < q1 /\ 0 <= A /\ scaled S m M = Ok (A / K) /\
    (2 ^ 53 - 1) * (S * K) <= 2 ^ 53 * (q1 * m) <= (2 ^ 53 + 1) * (S * K) /\
    (2 ^ 53 - 1) * (M * q1) <= 2 ^ 53 * A <= (2 ^ 53 + 1) * (M * q1).
Proof.
  intros HS Hm HM.
  assert (2 ^ 31 < 2 ^ 53) as H3153 by (apply Z.pow_lt_mono_r; lia).
  destruct (truediv_spec S m ltac:(lia) ltac:(lia)) as (k & Hk & Hq0 & Ediv).
  assert (0 < 2 ^ k) as Hkp by (apply Z.pow_pos_nonneg; lia).
  assert (0 <= S * 2 ^ k) as HN by (apply Z.mul_nonneg_nonneg; lia).
  pose proof (rne_div_bounds (S * 2 ^ k) m ltac:(lia) HN) as [Hq1 Herr1].
  set (q1 := rne_div (S * 2 ^ k) m) in *.
  assert (2 ^ 52 * m <= S * 2 ^ k) as Hlo6.
  { destruct Hq0 as [Hq0 _].
    pose proof (Z.mul_div_le (S * 2 ^ k) m ltac:(lia)).
    apply Z.le_trans with (m * (S * 2 ^ k / m)); [|assumption].
    rewrite (Z.mul_comm m). apply Z.mul_le_mono_nonneg_r; lia. }
  destruct (mul_int_spec M q1 (- k) ltac:(lia) ltac:(lia) ltac:(lia))
    as (sh & Hsh & HX & Emul).
  assert (0 < 2 ^ sh) as Hshp by (apply Z.pow_pos_nonneg; lia).
  assert (0 < q1) as Hq1p by lia.
  assert (0 <= M * q1) as HN2 by (apply Z.mul_nonneg_nonneg; lia).
  pose proof (rne_div_bounds (M * q1) (2 ^ sh) Hshp HN2) as [Hq2 Herr2].
  pose proof (div_pow2_bounds (M * q1) 1 sh ltac:(lia) ltac:(lia)) as Hq2b.
  rewrite Z.div_1_r, Z.mul_1_l in Hq2b. specialize (Hq2b HX).
  set (q2 := rne_div (M * q1) (2 ^ sh)) in *.
  exists (2 ^ k), q1, (q2 * 2 ^ sh).
  split; [exact Hkp|]. split; [exact Hq1p|].
  split; [apply Z.mul_nonneg_nonneg; lia|]. split.
  - unfold scaled. rewrite Ediv. cbn [result_bind]. rewrite Emul. cbn [result_bind].
    rewrite to_int_fin by lia. rewrite trunc_as_div by lia. reflexivity.
  - rewrite Z.pow_add_r in HX by lia. split.
    + apply (half_ulp_relative q1 m (S * 2 ^ k) ltac:(lia) Hlo6 Herr1).
    + apply (half_ulp_relative q2 (2 ^ sh) (M * q1) Hshp (proj1 HX) Herr2).
Qed.

(** X14.  The scaling is uniform to within one pixel: each resized
    dimension differs by at most one from the source dimension times
    [1024 / min(width, height)], taken exactly and rounded down. *)
Theorem X14_uniform_scale_within_one_pixel (w h : Z) :
  0 < w < 2 ^ 31 -> 0 < h < 2 ^ 31 ->
  exists nw nh,
    resized_dims w h 1024 = Ok (nw, nh) /\
    1024 * w / Z.min w h - 1 <= nw <= 1024 * w / Z.min w h + 1 /\
    1024 * h / Z.min w h - 1 <= nh <= 1024 * h / Z.min w h + 1.
Proof.
  intros Hw Hh. rewrite resized_dims_scaled.
  set (m := Z.min w h).
  assert (0 < m < 2 ^ 31) as Hm by (unfold m; lia).
  assert (forall M, 0 < M < 2 ^ 31 ->
            exists n, scaled 1024 m M = Ok n /\
              1024 * M / m - 1 <= n <= 1024 * M / m + 1) as Hside.
  { intros M HM.
    destruct (scaled_form 1024 m M ltac:(cbn; lia) Hm HM)
      as (K & q1 & A & HK & Hq1 & HA & Erun & [Hd_lo Hd_hi] & [Hm_lo Hm_hi]).
    exists (A / K). split; [exact Erun|].
    pose proof (Z.div_mod A K ltac:(lia)) as HAK.
    pose proof (Z.mod_pos_bound A K HK) as HAr.
    set (n := A / K) in *.
    (* everything is compared after multiplication by [m * K] *)
    assert (0 < m * K) as HT by (apply Z.mul_pos_pos; lia).
    assert (K <= m * K) as HKT.
    { replace K with (1 * K) at 1 by ring. apply Z.mul_le_mono_nonneg_r; lia. }
    assert (M * K < 2 ^ 31 * K) as HMK by (apply Z.mul_lt_mono_pos_r; lia).
    assert ((2 ^ 53 - 1) * (1024 * (M * K)) <= 2 ^ 53 * (M * (q1 * m))) as L1.
    { replace ((2 ^ 53 - 1) * (1024 * (M * K))) with (M * ((2 ^ 53 - 1) * (1024 * K))) by ring.
      replace (2 ^ 53 * (M * (q1 * m))) with (M * (2 ^ 53 * (q1 * m))) by ring.
      apply Z.mul_le_mono_nonneg_l; [lia|exact Hd_lo]. }
    assert (2 ^ 53 * (M * (q1 * m)) <= (2 ^ 53 + 1) * (1024 * (M * K))) as L1'.
    { replace ((2 ^ 53 + 1) * (1024 * (M * K))) with (M * ((2 ^ 53 + 1) * (1024 * K))) by ring.
      replace (2 ^ 53 * (M * (q1 * m))) with (M * (2 ^ 53 * (q1 * m))) by ring.
      apply Z.mul_le_mono_nonneg_l; [lia|exact Hd_hi]. }
    assert ((2 ^ 53 - 1) * (M * (q1 * m)) <= 2 ^ 53 * (A * m)) as L2.
    { replace ((2 ^ 53 - 1) * (M * (q1 * m))) with ((2 ^ 53 - 1) * (M * q1) * m) by ring.
      replace (2 ^ 53 * (A * m)) with (2 ^ 53 * A * m) by ring.
      apply Z.mul_le_mono_nonneg_r; [lia|exact Hm_lo]. }
    assert (2 ^ 53 * (A * m) <= (2 ^ 53 + 1) * (M * (q1 * m))) as L2'.
    { replace ((2 ^ 53 + 1) * (M * (q1 * m))) with ((2 ^ 53 + 1) * (M * q1) * m) by ring.
      replace (2 ^ 53 * (A * m)) with (2 ^ 53 * A * m) by ring.
      apply Z.mul_le_mono_nonneg_r; [lia|exact Hm_hi]. }
    assert (A * m = n * (m * K) + A mod K * m) as EB by (rewrite HAK at 1; ring).
    assert (0 <= A mod K * m < m * K) as HR.
    { split; [apply Z.mul_nonneg_nonneg; lia|].
      rewrite (Z.mul_comm m K). apply Z.mul_lt_mono_pos_r; lia. }
    split.
    - assert (1024 * M / m < n + 2); [|lia].
      apply Z.div_lt_upper_bound; [lia|].
      apply Z.mul_lt_mono_pos_r with K; [exact HK|].
      replace (1024 * M * K) with (1024 * (M * K)) by ring.
      replace (m * (n + 2) * K) with (n * (m * K) + 2 * (m * K)) by ring.
      set (T := m * K) in *. set (W := M * K) in *. set (P := M * (q1 * m)) in *.
      set (V := n * T) in *. set (R := A mod K * m) in *. set (B := A * m) in *.
      clearbody T W P V R B.
      change (2 ^ 53) with 9007199254740992 in *.
      change (2 ^ 31) with 2147483648 in *. lia.
    - assert (n - 1 <= 1024 * M / m); [|lia].
      apply Z.div_le_lower_bound; [lia|].
      apply Z.mul_le_mono_pos_r with K; [exact HK|].
      replace (1024 * M * K) with (1024 * (M * K)) by ring.
      replace (m * (n - 1) * K) with (n * (m * K) - m * K) by ring.
      set (T := m * K) in *. set (W := M * K) in *. set (P := M * (q1 * m)) in *.
      set (V := n * T) in *. set (R := A mod K * m) in *. set (B := A * m) in *.
      clearbody T W P V R B.
      change (2 ^ 53) with 9007199254740992 in *.
      change (2 ^ 31) with 2147483648 in *. lia. }
  destruct (Hside w Hw) as (nw & Ew & Hnw).
  destruct (Hside h Hh) as (nh & Eh & Hnh).
  exists nw, nh. rewrite Ew, Eh. cbn [result_bind]. auto.
Qed.

Lemma X14_uniform_scale_within_one_pixel_witness :
  exists nw nh,
    resized_dims 500 300 1024 = Ok (nw, nh) /\
    1024 * 500 / Z.min 500 300 - 1 <= nw <= 1024 * 500 / Z.min 500 300 + 1 /\
    1024 * 300 / Z.min 500 300 - 1 <= nh <= 1024 * 300 / Z.min 500 300 + 1.
Proof. apply (X14_uniform_scale_within_one_pixel 500 300); cbn; lia. Defined.
